(** * DroneDB index operations (src/dbops.cpp): a shallow embedding

    The index is a table [entries] in an SQLite store next to the working
    tree.  The operations of [dbops.cpp] read the file system, run SQL
    statements on the store and call user callbacks.  Here the store is a
    list of rows in row order, the file system a finite view from paths to
    nodes, and every operation a computation in a state-and-exception monad
    over a [World]; the monad also records a trace of the effects that the
    temporal properties talk about. *)

From Stdlib Require Import ZArith Lia Ascii String.
From stdpp Require Import base gmap strings list.

Local Open Scope string_scope.
Local Open Scope Z_scope.

(* ================================================================== *)
(** ** Strings *)

Definition slash : ascii := "/"%char.
Definition backslash : ascii := "\"%char.
Definition percent : ascii := "%"%char.
Definition underscore : ascii := "_"%char.
Definition star : ascii := "*"%char.
Definition tab : string := String (ascii_of_nat 9) EmptyString.

(** Modelled from the spec: [utils::string_replace(str, from, to)]
    (utils.cpp is not part of the sources) replaces every occurrence of
    [from] in [str] by [to], scanning left to right and continuing after the
    inserted text; an empty [from] changes nothing.  [skip] counts the
    characters of a match that are still to be dropped. *)
Fixpoint string_replace_aux (from to : string) (skip : nat) (s : string)
  : string :=
  match s with
  | EmptyString => EmptyString
  | String c s' =>
      match skip with
      | S k => string_replace_aux from to k s'
      | O =>
          if String.prefix from s
          then to +:+ string_replace_aux from to (String.length from - 1) s'
          else String c (string_replace_aux from to 0 s')
      end
  end.

Definition string_replace (str from to : string) : string :=
  match from with
  | EmptyString => str
  | _ => string_replace_aux from to 0 str
  end.

(** dbops.cpp, [sanitize_query_param]. *)
Definition sanitize_query_param (str : string) : string :=
  let res := str in
  let res := string_replace res "/" "//" in
  let res := string_replace res "%" "/%" in
  let res := string_replace res "_" "/_" in
  let res := string_replace res "*" "%" in
  res.

(** What the four substitutions do to one character of the input. *)
Definition escape_char (c : ascii) : string :=
  if Ascii.eqb c slash then "//"
  else if Ascii.eqb c percent then "/%"
  else if Ascii.eqb c underscore then "/_"
  else if Ascii.eqb c star then "%"
  else String c EmptyString.

(** Number of occurrences of a character; the depth of a path is its number
    of separators. *)
Fixpoint count_char (c : ascii) (s : string) : Z :=
  match s with
  | EmptyString => 0
  | String x s' => (if Ascii.eqb x c then 1 else 0) + count_char c s'
  end.

Fixpoint string_mem (c : ascii) (s : string) : bool :=
  match s with
  | EmptyString => false
  | String x s' => Ascii.eqb x c || string_mem c s'
  end.

Fixpoint string_rev_onto (s acc : string) : string :=
  match s with
  | EmptyString => acc
  | String c s' => string_rev_onto s' (String c acc)
  end.

Definition string_rev (s : string) : string := string_rev_onto s EmptyString.

(** [drop n s]: [s.substr(n, npos)] for [n <= s.length()]. *)
Fixpoint string_drop (n : nat) (s : string) : string :=
  match n, s with
  | O, _ => s
  | S _, EmptyString => EmptyString
  | S k, String _ s' => string_drop k s'
  end.

(* ------------------------------------------------------------------ *)
(** *** The LIKE operator of the store

    The relational store is an external engine; its LIKE operator is
    modelled here by the usual definition: [%] matches any run of
    characters, [_] any one character, the character after the escape
    character stands for itself, and any other character is compared with
    the store's collation [ceq] (SQLite folds ASCII case by default, a
    binary collation compares exactly).  A pattern ending in the escape
    character matches nothing.  Texts are read byte by byte, so [_]
    stands for one byte: this is the character of a path in ASCII, where
    SQLite takes a whole UTF-8 character. *)

Section Like.
Variable ceq : ascii -> ascii -> bool.
Variable esc : option ascii.

Definition is_escape (c : ascii) : bool :=
  match esc with
  | Some e => Ascii.eqb c e
  | None => false
  end.

Definition is_empty (s : string) : bool :=
  match s with EmptyString => true | _ => false end.

Fixpoint like (pat s : string) {struct pat} : bool :=
  match pat with
  | EmptyString => is_empty s
  | String c pat' =>
      if Ascii.eqb c percent then
        (fix any (s : string) : bool :=
           like pat' s
           || match s with
              | EmptyString => false
              | String _ s' => any s'
              end) s
      else if is_escape c then
        match pat' with
        | EmptyString => false
        | String d pat'' =>
            match s with
            | EmptyString => false
            | String x s' => ceq d x && like pat'' s'
            end
        end
      else if Ascii.eqb c underscore then
        match s with
        | EmptyString => false
        | String _ s' => like pat' s'
        end
      else
        match s with
        | EmptyString => false
        | String x s' => ceq c x && like pat' s'
        end
  end.

(** The suffixes of [s] tried by a [%]. *)
Fixpoint any_suffix (f : string -> bool) (s : string) : bool :=
  f s || match s with
         | EmptyString => false
         | String _ s' => any_suffix f s'
         end.

(** The reading of an input of [sanitize_query_param]: [*] stands for any
    run of characters, every other character for itself. *)
Fixpoint glob (q s : string) {struct q} : bool :=
  match q with
  | EmptyString => is_empty s
  | String c q' =>
      if Ascii.eqb c star then any_suffix (glob q') s
      else
        match s with
        | EmptyString => false
        | String x s' => ceq c x && glob q' s'
        end
  end.

(** [s] begins with text that compares equal to [pre]. *)
Fixpoint begins_with (pre s : string) : bool :=
  match pre with
  | EmptyString => true
  | String c pre' =>
      match s with
      | EmptyString => false
      | String x s' => ceq c x && begins_with pre' s'
      end
  end.
End Like.

(* ================================================================== *)
(** ** Entries and rows *)

(** Modelled from the spec: entry_types.h is not part of the sources.  The
    tags are those of the data model; the statements of dbops.cpp write the
    tag of a directory as the literal 1. *)
Inductive EntryType :=
| Undefined | Directory | Generic | GeoImage | GeoRaster
| PointCloud | Image | Vector | DroneDB.

Definition type_code (t : EntryType) : Z :=
  match t with
  | Undefined => 0 | Directory => 1 | Generic => 2 | GeoImage => 3
  | GeoRaster => 4 | PointCloud => 5 | Image => 6 | Vector => 7
  | DroneDB => 8
  end.

Definition is_directory_type (t : EntryType) : bool := type_code t =? 1.

(** The tags the classifier gives to files (spec 4.1): never [Directory],
    never the root marker. *)
Inductive FileClass :=
| CGeneric | CGeoImage | CGeoRaster | CPointCloud | CImage | CVector.

Definition class_type (k : FileClass) : EntryType :=
  match k with
  | CGeneric => Generic | CGeoImage => GeoImage | CGeoRaster => GeoRaster
  | CPointCloud => PointCloud | CImage => Image | CVector => Vector
  end.

(** The C++ [Entry]: [e_meta] is the dump of the JSON document (the text
    [null] for a null document), a geometry is its well-known text, empty
    when there is no geometry. *)
Record Entry := mkEntry {
  e_path : string;
  e_hash : string;
  e_type : EntryType;
  e_meta : string;
  e_mtime : Z;
  e_size : Z;
  e_depth : Z;
  e_point_geom : string;
  e_polygon_geom : string
}.

(** A default-constructed [Entry]. *)
Definition new_entry : Entry :=
  mkEntry "" "" Undefined "null" 0 0 0 "" "".

(** A row of the table [entries].  A column that an INSERT leaves out holds
    SQL NULL ([None]). *)
Record Row := mkRow {
  r_path : string;
  r_hash : option string;
  r_type : EntryType;
  r_meta : string;
  r_mtime : Z;
  r_size : Z;
  r_depth : Z;
  r_point_geom : option string;
  r_polygon_geom : option string
}.

(** Modelled from the spec: [Statement::getText] (statement.cpp is not part
    of the sources) reads a NULL text column as the empty string. *)
Definition getText (col : option string) : string :=
  match col with
  | Some s => s
  | None => ""
  end.

(** [GeomFromText(wkt, 4326)]: no geometry for the empty text. *)
Definition GeomFromText (wkt : string) : option string :=
  match wkt with
  | EmptyString => None
  | _ => Some wkt
  end.

(** The row bound by the INSERT of [addToIndex] and by [UPDATE_QUERY]. *)
Definition row_of_entry (e : Entry) : Row :=
  {| r_path := e_path e;
     r_hash := Some (e_hash e);
     r_type := e_type e;
     r_meta := e_meta e;
     r_mtime := e_mtime e;
     r_size := e_size e;
     r_depth := e_depth e;
     r_point_geom := GeomFromText (e_point_geom e);
     r_polygon_geom := GeomFromText (e_polygon_geom e) |}.

(** Modelled from the spec: the constructor [Entry(Statement&)] (entry.cpp
    is not part of the sources) reads the nine selected columns. *)
Definition entry_of_row (r : Row) : Entry :=
  {| e_path := r_path r;
     e_hash := getText (r_hash r);
     e_type := r_type r;
     e_meta := r_meta r;
     e_mtime := r_mtime r;
     e_size := r_size r;
     e_depth := r_depth r;
     e_point_geom := getText (r_point_geom r);
     e_polygon_geom := getText (r_polygon_geom r) |}.

(** Modelled from the spec: [io::Path::depth] (not part of the sources) is
    the number of separators of the path. *)
Definition path_depth (p : string) : Z := count_char slash p.

(** [fs::path::filename]: the text after the last separator. *)
Fixpoint filename (p : string) : string :=
  match p with
  | EmptyString => EmptyString
  | String c p' =>
      if string_mem slash p' then filename p'
      else if Ascii.eqb c slash then p' else p
  end.

Definition has_filename (p : string) : bool := negb (is_empty (filename p)).

(* ================================================================== *)
(** ** The world: file system, store, build folders *)

Inductive Node :=
| NDir (mtime : Z)
| NFile (mtime : Z) (size : Z) (content : string).

Definition FS := string -> option Node.

Inductive FileStatus := NotModified | Modified | Deleted.

Definition status_eqb (a b : FileStatus) : bool :=
  match a, b with
  | NotModified, NotModified | Modified, Modified | Deleted, Deleted => true
  | _, _ => false
  end.

(** The exceptions of the application and of the store, and the
    [std::out_of_range] of the standard library. *)
Inductive Exn :=
| FSException (msg : string)
| InvalidArgsException (msg : string)
| SQLException (msg : string)
| OutOfRange.

(** The effects that leave a mark: statements that change the store, the
    removal of a build folder, the hashing of a file, callbacks, output. *)
Inductive Event :=
| EvBegin
| EvCommit
| EvInsert (path : string)
| EvUpdate (path : string)
| EvDelete (path : string)
| EvDeleteLike (pattern : string)
| EvRename (source dest : string)
| EvSetLastUpdate
| EvRemoveBuild (hash : string)
| EvHash (path : string)
| EvAddCallback (path : string) (wasUpdate : bool)
| EvRemoveCallback (path : string)
| EvPrint (line : string).

Record Store := mkStore {
  entries : list Row;
  last_edit : Z
}.

(** [w_db] is the store as the open connection sees it, [w_disk] the
    committed store (what a rollback, or closing the connection inside a
    transaction, goes back to); [w_builds] holds the hashes [h] for which
    [.ddb/build/h] exists. *)
Record World := mkWorld {
  w_fs : FS;
  w_builds : gset string;
  w_db : Store;
  w_disk : Store;
  w_txn : bool;
  w_time : Z;
  w_trace : list Event
}.

Inductive Outcome (A : Type) :=
| Ret (a : A)
| Throw (e : Exn)
| Undef.
Arguments Ret {A} a.
Arguments Throw {A} e.
Arguments Undef {A}.

(** A computation: it ends with a value, with an exception or in undefined
    behaviour, and leaves a world in each case. *)
Definition M (A : Type) : Type := World -> Outcome A * World.

Definition ret {A} (a : A) : M A := fun w => (Ret a, w).
Definition throw {A} (e : Exn) : M A := fun w => (Throw e, w).
Definition undefined {A} : M A := fun w => (Undef, w).

Definition bind {A B} (m : M A) (k : A -> M B) : M B :=
  fun w =>
    match m w with
    | (Ret a, w') => k a w'
    | (Throw e, w') => (Throw e, w')
    | (Undef, w') => (Undef, w')
    end.

Declare Scope io_scope.
Delimit Scope io_scope with io.
Notation "x <- m ;; k" := (bind m (fun x => k))
  (at level 100, m at next level, right associativity) : io_scope.
Notation "m ;; k" := (bind m (fun _ => k))
  (at level 100, right associativity) : io_scope.
Local Open Scope io_scope.

Definition get_world : M World := fun w => (Ret w, w).

Definition log (ev : Event) : M unit :=
  fun w =>
    (Ret tt,
     mkWorld (w_fs w) (w_builds w) (w_db w) (w_disk w) (w_txn w) (w_time w)
             (w_trace w ++ [ev])).

Definition with_entries (f : list Row -> list Row) (s : Store) : Store :=
  mkStore (f (entries s)) (last_edit s).

(** A statement that changes the store: inside a transaction the change
    stays with the connection, outside it is committed at once. *)
Definition write_store (f : Store -> Store) : M unit :=
  fun w =>
    let db := f (w_db w) in
    (Ret tt,
     mkWorld (w_fs w) (w_builds w) db (if w_txn w then w_disk w else db)
             (w_txn w) (w_time w) (w_trace w)).

(** Modelled from the spec: [Database::exec] (database.cpp is not part of
    the sources) raises the store's error; SQLite refuses a BEGIN inside a
    transaction and a COMMIT outside one. *)
Definition exec_begin : M unit :=
  fun w =>
    if w_txn w
    then (Throw (SQLException
                   "cannot start a transaction within a transaction"), w)
    else (Ret tt,
          mkWorld (w_fs w) (w_builds w) (w_db w) (w_disk w) true (w_time w)
                  (w_trace w ++ [EvBegin])).

Definition exec_commit : M unit :=
  fun w =>
    if w_txn w
    then (Ret tt,
          mkWorld (w_fs w) (w_builds w) (w_db w) (w_db w) false (w_time w)
                  (w_trace w ++ [EvCommit]))
    else (Throw (SQLException "cannot commit - no transaction is active"), w).

(** Modelled from the spec: [Database::setLastUpdate] records the current
    time as the last-edit timestamp. *)
Definition setLastUpdate : M unit :=
  w <- get_world ;;
  write_store (fun s => mkStore (entries s) (w_time w)) ;;
  log EvSetLastUpdate.

Definition has_path (p : string) (rows : list Row) : bool :=
  existsb (fun r => String.eqb (r_path r) p) rows.

(** [SELECT ... WHERE path = ?], first row. *)
Definition find_row (p : string) (rows : list Row) : option Row :=
  List.find (fun r => String.eqb (r_path r) p) rows.

(** [DELETE FROM entries WHERE path = ?]. *)
Definition delete_path (p : string) (rows : list Row) : list Row :=
  List.filter (fun r => negb (String.eqb (r_path r) p)) rows.

(** [UPDATE entries SET <all columns but path> WHERE path = ?]. *)
Definition update_path (e : Entry) (rows : list Row) : list Row :=
  List.map (fun r => if String.eqb (r_path r) (e_path e)
                     then row_of_entry e else r) rows.

(** [UPDATE entries SET path = ?, depth = ? WHERE path = ?]. *)
Definition rename_path (source dest : string) (d : Z) (rows : list Row)
  : list Row :=
  List.map (fun r => if String.eqb (r_path r) source
                     then mkRow dest (r_hash r) (r_type r) (r_meta r)
                                (r_mtime r) (r_size r) d
                                (r_point_geom r) (r_polygon_geom r)
                     else r) rows.

(** An INSERT; [path] is the primary key of [entries] (spec 6), so a second
    row with the same path is refused by the store. *)
Definition sql_insert (r : Row) : M unit :=
  w <- get_world ;;
  if has_path (r_path r) (entries (w_db w))
  then throw (SQLException "UNIQUE constraint failed: entries.path")
  else write_store (with_entries (fun rows => (rows ++ [r])%list)) ;;
       log (EvInsert (r_path r)).

Definition sql_delete (p : string) : M unit :=
  write_store (with_entries (delete_path p)) ;;
  log (EvDelete p).

Definition sql_rename (source dest : string) (d : Z) : M unit :=
  w <- get_world ;;
  if has_path source (entries (w_db w)) && has_path dest (entries (w_db w))
     && negb (String.eqb source dest)
  then throw (SQLException "UNIQUE constraint failed: entries.path")
  else write_store (with_entries (rename_path source dest d)) ;;
       log (EvRename source dest).

(** The order of the index of the primary key: the paths byte by byte,
    a proper prefix first.  A statement that reads the column [path]
    alone is answered from this index, in this order; a statement that
    reads other columns scans the rows in their order. *)
Fixpoint insert_path (p : string) (l : list string) : list string :=
  match l with
  | [] => [p]
  | q :: l' => if String.leb p q then p :: l else q :: insert_path p l'
  end.

Fixpoint sort_paths (l : list string) : list string :=
  match l with
  | [] => []
  | p :: l' => insert_path p (sort_paths l')
  end.

Fixpoint for_each {A} (f : A -> M unit) (l : list A) : M unit :=
  match l with
  | [] => ret tt
  | x :: l' => f x ;; for_each f l'
  end.

(* ------------------------------------------------------------------ *)
(** *** SQL string functions used by the folder-consistency query *)

(** [replace(X, Y, Z)]: every occurrence of [Y] in [X] replaced by [Z];
    [X] itself when [Y] is empty. *)
Definition sql_replace (x y z : string) : string := string_replace x y z.

(** [ltrim(X, Y)], [rtrim(X, Y)], [trim(X, Y)]: characters that occur in
    [Y] removed from the left, the right, both ends of [X]. *)
Fixpoint sql_ltrim (x chars : string) : string :=
  match x with
  | EmptyString => EmptyString
  | String c x' => if string_mem c chars then sql_ltrim x' chars else x
  end.

Definition sql_rtrim (x chars : string) : string :=
  string_rev (sql_ltrim (string_rev x) chars).

Definition sql_trim (x chars : string) : string :=
  sql_rtrim (sql_ltrim x chars) chars.

(** The column [A.folder] of [FOLDER_CONSISTENCY_QUERY]:
    [replace(path, replace(path, rtrim(path, replace(path, '/', '')), ''), '')]. *)
Definition folder_column (path : string) : string :=
  sql_replace path
    (sql_replace path (sql_rtrim path (sql_replace path "/" "")) "") "".

(** [FOLDER_CONSISTENCY_QUERY]: for the rows with [type != 1] whose
    [A.folder] is not empty, [TRIM(A.folder, '/')] when it is not the path of
    a row with [type = 1]. *)
Definition folder_consistency_query (rows : list Row) : list string :=
  let dirs :=
    List.map r_path (List.filter (fun r => type_code (r_type r) =? 1) rows) in
  let A :=
    List.map (fun r => (r_path r, folder_column (r_path r)))
      (List.filter (fun r => negb (type_code (r_type r) =? 1)) rows) in
  let B :=
    List.map (fun a => (fst a, sql_trim (snd a) "/"))
      (List.filter (fun a => 0 <? Z.of_nat (String.length (snd a))) A) in
  List.map snd
    (List.filter (fun b => negb (existsb (String.eqb (snd b)) dirs)) B).

(* ------------------------------------------------------------------ *)
(** *** [std::string::operator[]] and [size_t] *)

Definition size_t_sub (a b : Z) : Z := (a - b) mod 2 ^ 64.

(** [s[pos]]: a character of [s] for [pos < s.size()], the terminating null
    for [pos == s.size()], undefined behaviour beyond. *)
Definition string_at (s : string) (pos : Z) : option ascii :=
  let n := Z.of_nat (String.length s) in
  if pos <? n then String.get (Z.to_nat pos) s
  else if pos =? n then Some zero
  else None.

Definition string_index (s : string) (pos : Z) : M ascii :=
  match string_at s pos with
  | Some c => ret c
  | None => undefined
  end.

(** [s[s.length() - 1]]. *)
Definition last_index (s : string) : Z :=
  size_t_sub (Z.of_nat (String.length s)) 1.

(** [s[s.length() - 1] == '/' || s[s.length() - 1] == '\\']. *)
Definition ends_with_separator (s : string) : M bool :=
  c <- string_index s (last_index s) ;;
  if Ascii.eqb c slash then ret true
  else
    c' <- string_index s (last_index s) ;;
    ret (Ascii.eqb c' backslash).


(* ================================================================== *)
(** ** File extensions (the indexer of index.h) *)

(** [std::tolower] on an [unsigned char], in the C locale: the letters
    [A] to [Z] go to [a] to [z], every other character stays. *)
Definition tolower (c : ascii) : ascii :=
  let n := nat_of_ascii c in
  if (65 <=? n)%nat && (n <=? 90)%nat then ascii_of_nat (n + 32) else c.

(** The comparison of characters by the LIKE of SQLite as the index
    opens it: the case of the ASCII letters is folded. *)
Definition nocase (a b : ascii) : bool := Ascii.eqb (tolower a) (tolower b).

(** [std::transform(s.begin(), s.end(), s.begin(), f)]. *)
Fixpoint string_map (f : ascii -> ascii) (s : string) : string :=
  match s with
  | EmptyString => EmptyString
  | String c s' => String (f c) (string_map f s')
  end.

(** [checkExtension]: [extension] is the text of [fs::path::extension()],
    which begins with the dot when it is not empty; the first character is
    dropped whatever it is, the rest is put in lower case and looked up
    in [matches]. *)
Definition checkExtension (extension : string) (matches : list string)
  : bool :=
  let ext := extension in
  if (String.length ext <? 1)%nat then false
  else
    let extLowerCase := string_map tolower (string_drop 1 ext) in
    existsb (fun m => String.eqb m extLowerCase) matches.

(** The letters [A] to [Z], and the upper-case form of a character. *)
Definition is_upper (c : ascii) : bool :=
  let n := nat_of_ascii c in (65 <=? n)%nat && (n <=? 90)%nat.

Definition toupper (c : ascii) : ascii :=
  let n := nat_of_ascii c in
  if (97 <=? n)%nat && (n <=? 122)%nat then ascii_of_nat (n - 32) else c.

Definition has_upper (s : string) : bool :=
  existsb is_upper (list_ascii_of_string s).

(* ================================================================== *)
(** ** Opening a working tree (dbops.cpp, [open] and [rootDirectory]) *)

From Stdlib Require Import FunInd Recdef.

(** An absolute path, as the list of its components from the root; the
    root directory is the empty list.  [fs::path::parent_path] drops the
    last component and leaves the root as it is. *)
Definition Path := list string.

Definition parent_path (p : Path) : Path := List.removelast p.

Definition path_eqb (p q : Path) : bool := bool_decide (p = q).

(** Modelled from the spec: [DDB_FOLDER] (ddb.h is not part of the
    sources) is the marker directory [.ddb]. *)
Definition DDB_FOLDER : string := ".ddb".

(** [dirPath / DDB_FOLDER / "dbase.sqlite"]. *)
Definition dbase_of (dirPath : Path) : Path :=
  (dirPath ++ [DDB_FOLDER; "dbase.sqlite"])%list.

(** What [open] gives: the database, known by the file it was opened
    from, or one of its two exceptions. *)
Inductive Opened :=
| OpenedDatabase (openFile : Path)
| OpenFailed (e : Exn)
| OpenDBException (dbasePath : Path).

Section Open.

(** [fs::exists] on the file system, which [open] does not change. *)
Variable file_exists : Path -> bool.

(** Modelled from the spec: [Database::open], [tableExists("entries")]
    and [ensureSchemaConsistency] (database.cpp is not part of the
    sources): the store at an existing file is opened, it has its table
    [entries] or not, and a store that has it is brought to the current
    schema. *)
Variable tableExists : Path -> bool.

(** dbops.cpp, [open], for the absolute path [fs::absolute(directory)]. *)
Function open (dirPath : Path) (traverseUp : bool)
         {measure List.length dirPath} : Opened :=
  if negb (file_exists (dbase_of dirPath)) then
    if negb traverseUp || path_eqb (parent_path dirPath) dirPath
    then OpenFailed
           (FSException
              "Not a valid DroneDB directory, .ddb does not exist. Did you run ddb init?")
    else open (parent_path dirPath) true
  else if negb (tableExists (dbase_of dirPath))
  then OpenDBException (dbase_of dirPath)
  else OpenedDatabase (dbase_of dirPath).
Proof.
  intros dirPath traverseUp _ H. apply orb_false_iff in H as [_ H].
  unfold path_eqb, parent_path in *.
  destruct dirPath as [|x p _] using List.rev_ind; [discriminate|].
  rewrite List.removelast_last, List.length_app. simpl. lia.
Defined.

(** The nearest directory with a database, from the directory itself up
    to the root; the path is given with its last component first. *)
Fixpoint nearest_rev (r : list string) : option Path :=
  if file_exists (dbase_of (List.rev r)) then Some (List.rev r)
  else match r with
       | [] => None
       | _ :: r' => nearest_rev r'
       end.

Definition nearest (dirPath : Path) : option Path :=
  nearest_rev (List.rev dirPath).

(** What [open] makes of the directory its search ends at. *)
Definition open_at (found : option Path) : Opened :=
  match found with
  | Some dir =>
      if tableExists (dbase_of dir) then OpenedDatabase (dbase_of dir)
      else OpenDBException (dbase_of dir)
  | None =>
      OpenFailed
        (FSException
           "Not a valid DroneDB directory, .ddb does not exist. Did you run ddb init?")
  end.

End Open.

(** dbops.cpp, [rootDirectory], of an open database:
    [fs::path(db->getOpenFile()).parent_path().parent_path()]. *)
Definition rootDirectory (openFile : Path) : Path :=
  parent_path (parent_path openFile).
(* ================================================================== *)
(** ** The operations of dbops.cpp *)

Definition AddCallback := option (Entry -> bool -> bool).
Definition RemoveCallback := option (string -> bool).

Set Default Proof Using "Type".

Section Ops.

(** The collation of the store's LIKE. *)
Variable ceq : ascii -> ascii -> bool.

(** [Hash::fileSHA256], on the bytes of the file. *)
Variable sha256 : string -> string.

(** The type classifier and the metadata extractors (spec 4.1, 4.2):
    from the path and the bytes of a file. *)
Variable classify : string -> string -> FileClass.
Variable extract_meta : FileClass -> string -> string -> string.
Variable extract_point : FileClass -> string -> string -> string.
Variable extract_polygon : FileClass -> string -> string -> string.

(** [io::Path(p).relativeTo(directory).generic()] and [directory / rel]
    for the root directory of the working tree. *)
Variable relativeTo : string -> string.
Variable rootJoin : string -> string.

(** [utils::hasDotNotation]. *)
Variable hasDotNotation : string -> bool.

(** [getIndexPathList(directory, paths, true)]: the listing walks the
    directories with the iterators of [std::filesystem] and returns the
    collected directories in the order of an unordered map; it is taken
    as given, as a function of the file system and of the input paths
    that either raises or returns the paths to index. *)
Variable getIndexPathList : FS -> list string -> Exn + list string.

Definition like_escaped (pat s : string) : bool :=
  like ceq (Some slash) pat s.

Definition like_plain (pat s : string) : bool :=
  like ceq None pat s.

(** dbops.cpp, [checkUpdate]: the entry is passed by reference, so the
    entry as left by the call is returned with the status. *)
Definition checkUpdate (e : Entry) (p : string) (dbMtime : Z)
           (dbHash : string) : M (FileStatus * Entry) :=
  w <- get_world ;;
  match w_fs w p with
  | None => ret (Deleted, e)
  | Some (NDir _) => ret (NotModified, e)
  | Some (NFile mtime _ content) =>
      let e := mkEntry (e_path e) (e_hash e) (e_type e) (e_meta e) mtime
                       (e_size e) (e_depth e) (e_point_geom e)
                       (e_polygon_geom e) in
      if negb (mtime =? dbMtime) then
        log (EvHash p) ;;
        let e := mkEntry (e_path e) (sha256 content) (e_type e) (e_meta e)
                         (e_mtime e) (e_size e) (e_depth e)
                         (e_point_geom e) (e_polygon_geom e) in
        if negb (String.eqb dbHash (e_hash e)) then ret (Modified, e)
        else ret (NotModified, e)
      else ret (NotModified, e)
  end.

(** Modelled from the spec: [parseEntry(path, rootDirectory, entry, true)]
    (entry.cpp is not part of the sources), spec 4.3: the relative path,
    mtime and size from the file system; a directory gets an empty hash, a
    null meta and size zero; a file is hashed, classified and handed to
    the extractor of its type; the depth is the number of separators of
    the relative path.  A path that does not exist is an error. *)
Definition parseEntry (p : string) (e : Entry) : M Entry :=
  w <- get_world ;;
  let rel := relativeTo p in
  match w_fs w p with
  | None => throw (FSException "Path does not exist")
  | Some (NDir mtime) =>
      ret (mkEntry rel "" Directory "null" mtime 0 (path_depth rel) "" "")
  | Some (NFile mtime size content) =>
      log (EvHash p) ;;
      let k := classify p content in
      ret (mkEntry rel (sha256 content) (class_type k)
                   (extract_meta k p content) mtime size (path_depth rel)
                   (extract_point k p content)
                   (extract_polygon k p content))
  end.

(** dbops.cpp, [doUpdate]. *)
Definition doUpdate (e : Entry) : M unit :=
  write_store (with_entries (update_path e)) ;;
  log (EvUpdate (e_path e)).

(** The body of the loop of [addToIndex] for one path; the result tells
    whether the loop goes on ([false]: the callback cancelled and
    [addToIndex] returns). *)
Definition add_path (callback : AddCallback) (p : string) : M bool :=
  let relPath := relativeTo p in
  if has_filename p && string_mem backslash (filename p) then ret true
  else
    w <- get_world ;;
    st <- match find_row relPath (entries (w_db w)) with
          | Some r =>
              se <- checkUpdate new_entry p (r_mtime r)
                      (getText (r_hash r)) ;;
              ret (negb (status_eqb (fst se) NotModified), false, snd se)
          | None => ret (false, true, new_entry)
          end ;;
    let update := fst (fst st) in
    let add := snd (fst st) in
    if add || update then
      e <- parseEntry p (snd st) ;;
      (if add then sql_insert (row_of_entry e) else doUpdate e) ;;
      match callback with
      | Some cb =>
          log (EvAddCallback (e_path e) (negb add)) ;;
          ret (cb e (negb add))
      | None => ret true
      end
    else ret true.

Fixpoint add_loop (callback : AddCallback) (pathList : list string)
  : M bool :=
  match pathList with
  | [] => ret true
  | p :: rest =>
      continue <- add_path callback p ;;
      if continue then add_loop callback rest else ret false
  end.

(** dbops.cpp, [addToIndex]. *)
Definition addToIndex (paths : list string) (callback : AddCallback)
  : M unit :=
  match paths with
  | [] => ret tt
  | _ =>
      w <- get_world ;;
      match getIndexPathList (w_fs w) paths with
      | inl ex => throw ex
      | inr pathList =>
          exec_begin ;;
          finished <- add_loop callback pathList ;;
          if finished then exec_commit ;; setLastUpdate
          else ret tt
      end
  end.

(** dbops.cpp, [checkDeleteBuild]. *)
Definition checkDeleteBuild (hash : string) : M unit :=
  if is_empty hash then ret tt
  else
    w <- get_world ;;
    if bool_decide (hash ∈ w_builds w) then
      (fun w =>
         (Ret tt,
          mkWorld (w_fs w) (w_builds w ∖ {[ hash ]}) (w_db w) (w_disk w)
                  (w_txn w) (w_time w) (w_trace w))) ;;
      log (EvRemoveBuild hash)
    else ret tt.

Definition delete_pattern (query : string) (isFolder : bool) : string :=
  let str := sanitize_query_param query in
  if isFolder then str +:+ "//%" else str.

(** dbops.cpp, [deleteFromIndex]; the result of the callback is not
    looked at. *)
Definition deleteFromIndex (query : string) (isFolder : bool)
           (callback : RemoveCallback) : M Z :=
  let str := delete_pattern query isFolder in
  w <- get_world ;;
  let matched :=
    List.filter (fun r => like_escaped str (r_path r)) (entries (w_db w)) in
  for_each (fun r =>
              checkDeleteBuild (getText (r_hash r)) ;;
              match callback with
              | Some _ => log (EvRemoveCallback (r_path r))
              | None => ret tt
              end) matched ;;
  let count := Z.of_nat (List.length matched) in
  (if 0 <? count then
     write_store
       (with_entries
          (List.filter (fun r => negb (like_escaped str (r_path r))))) ;;
     log (EvDeleteLike str)
   else ret tt) ;;
  ret count.

Definition match_pattern (query : string) (isFolder : bool) : string :=
  let sanitized := sanitize_query_param query in
  let sanitized :=
    if Nat.eqb (String.length sanitized) 0 then "%" else sanitized in
  if isFolder then sanitized +:+ "//%" else sanitized.

(** dbops.cpp, [getMatchingEntries]. *)
Definition getMatchingEntries (path : string) (maxRecursionDepth : Z)
           (isFolder : bool) : M (list Entry) :=
  if maxRecursionDepth <? 0
  then throw (FSException "Max recursion depth cannot be negative")
  else
    let sanitized := match_pattern path isFolder in
    w <- get_world ;;
    ret (List.map entry_of_row
           (List.filter
              (fun r =>
                 like_escaped sanitized (r_path r)
                 && (if 0 <? maxRecursionDepth
                     then r_depth r <=? maxRecursionDepth - 1
                     else true))
              (entries (w_db w)))).

(** The inner loop of [removeFromIndex] over the matches of one input
    path; it returns [tot]. *)
Fixpoint remove_matches (callback : RemoveCallback)
         (entryMatches : list Entry) (tot : Z) : M Z :=
  match entryMatches with
  | [] => ret tot
  | e :: rest =>
      cnt <- deleteFromIndex (e_path e) false callback ;;
      cnt' <- (if is_directory_type (e_type e)
               then deleteFromIndex (e_path e) true callback
               else ret 0) ;;
      remove_matches callback rest (tot + (cnt + cnt'))
  end.

(** The body of the outer loop of [removeFromIndex] for one input path;
    [getMatchingEntries] is called with the defaults of its declaration
    (all depths, not a folder). *)
Definition remove_path (callback : RemoveCallback) (p : string) : M unit :=
  let relPath := relativeTo p in
  entryMatches <- getMatchingEntries relPath 0 false ;;
  tot <- remove_matches callback entryMatches 0 ;;
  if tot =? 0 then throw (FSException "No matching entries")
  else ret tt.

(** dbops.cpp, [removeFromIndex]. *)
Definition removeFromIndex (paths : list string)
           (callback : RemoveCallback) : M unit :=
  match paths with
  | [] => ret tt
  | _ => for_each (remove_path callback) paths ;; setLastUpdate
  end.

(** The body of the loop of [syncIndex] for one fetched row; the result
    is the contribution to [changed]. *)
Definition sync_row (r : Row) : M bool :=
  let relPath := r_path r in
  let p := rootJoin relPath in
  let hash := getText (r_hash r) in
  se <- checkUpdate new_entry p (r_mtime r) hash ;;
  match fst se with
  | Deleted =>
      sql_delete relPath ;;
      checkDeleteBuild hash ;;
      log (EvPrint ("D" +:+ tab +:+ relPath)) ;;
      ret true
  | Modified =>
      e <- parseEntry p (snd se) ;;
      doUpdate e ;;
      log (EvPrint ("U" +:+ tab +:+ e_path e)) ;;
      ret true
  | NotModified => ret false
  end.

Fixpoint sync_loop (rows : list Row) (changed : bool) : M bool :=
  match rows with
  | [] => ret changed
  | r :: rest =>
      c <- sync_row r ;;
      sync_loop rest (c || changed)
  end.

(** dbops.cpp, [syncIndex]. *)
Definition syncIndex : M unit :=
  w <- get_world ;;
  exec_begin ;;
  changed <- sync_loop (entries (w_db w)) false ;;
  exec_commit ;;
  if changed then setLastUpdate else ret tt.

(** dbops.cpp, [deleteEntry]. *)
Definition deleteEntry (path : string) : M unit := sql_delete path.

(** dbops.cpp, [addFolder] with [CREATE_FOLDER_QUERY]: the columns
    [hash], [point_geom] and [polygon_geom] are left out. *)
Definition addFolder (path : string) (mtime : Z) : M unit :=
  sql_insert (mkRow path None Directory "null" mtime 0 (path_depth path)
                    None None).

(** dbops.cpp, [createMissingFolders]. *)
Definition createMissingFolders : M unit :=
  w <- get_world ;;
  for_each (fun folder =>
              w' <- get_world ;;
              addFolder folder (w_time w'))
           (folder_consistency_query (entries (w_db w))).

(** dbops.cpp, [pathExists]. *)
Definition pathExists (path : string) : M bool :=
  w <- get_world ;;
  ret (0 <? Z.of_nat
             (List.length
                (List.filter (fun r => String.eqb (r_path r) path)
                   (entries (w_db w))))).

(** dbops.cpp, [getEntry]: [None] is the null pointer. *)
Definition getEntry (path : string) : M (option Entry) :=
  w <- get_world ;;
  ret (option_map entry_of_row (find_row path (entries (w_db w)))).

(** dbops.cpp, [listFolderPaths]: the LIKE has no ESCAPE clause, and its
    [_] is read here as one byte, which is one character of an ASCII
    path.  The statement reads the column [path] alone, so the paths come
    in the order of the index of the primary key. *)
Definition listFolderPaths (path : string) : M (list string) :=
  w <- get_world ;;
  ret (sort_paths
         (List.map r_path
            (List.filter
               (fun r => like_plain (path +:+ "/%") (r_path r)
                         || String.eqb (r_path r) path)
               (entries (w_db w))))).

(** dbops.cpp, [replacePath]. *)
Definition replacePath (source dest : string) : M unit :=
  let depth := path_depth dest in
  sql_rename source dest depth.

(** [s.substr(pos, std::string::npos)]: the text from [pos] on, and
    [std::out_of_range] when [pos] is beyond the size of [s]. *)
Definition substr (s : string) (pos : nat) : M string :=
  if (String.length s <? pos)%nat then throw OutOfRange
  else ret (string_drop pos s).

(** The rewritten path of [moveEntry]:
    [dest + std::string(path).substr(source.length(), std::string::npos)]. *)
Definition moved_path (source dest path : string) : M string :=
  rest <- substr path (String.length source) ;;
  ret (dest +:+ rest).

Definition is_dir_entry (e : Entry) : bool :=
  match e_type e with
  | Directory => true
  | _ => false
  end.

(** [moveEntry], the consistency checks on the two entries: a folder
    cannot be moved on anything that exists, a file not on a folder. *)
Definition move_check (sourceEntry : Entry) (dst : option Entry) : M unit :=
  match dst with
  | Some destEntry =>
      if is_dir_entry sourceEntry then
        if negb (is_dir_entry destEntry)
        then throw (InvalidArgsException "Cannot move a folder on a file")
        else throw (InvalidArgsException
                      "Cannot move a directory on another directory")
      else if is_dir_entry destEntry
      then throw (InvalidArgsException "Cannot move a file on a directory")
      else ret tt
  | None => ret tt
  end.

(** [moveEntry], the loop over the paths of a moved folder. *)
Definition move_folder_step (source dest path : string) : M unit :=
  newPath <- moved_path source dest path ;;
  deleteEntry newPath ;;
  replacePath path newPath.

(** [moveEntry], the statements between BEGIN and COMMIT. *)
Definition move_rows (source dest : string) (sourceEntry : Entry)
           (destExists : bool) : M unit :=
  if negb (is_dir_entry sourceEntry) then
    (if destExists then deleteEntry dest else ret tt) ;;
    replacePath source dest
  else
    paths <- listFolderPaths source ;;
    for_each (move_folder_step source dest) paths ;;
    createMissingFolders.

(** [moveEntry], from the lookup of the two entries on. *)
Definition move_entries (source dest : string) : M unit :=
  src <- getEntry source ;;
  dst <- getEntry dest ;;
  match src with
  | None => throw (InvalidArgsException "source path not found")
  | Some sourceEntry =>
      move_check sourceEntry dst ;;
      exec_begin ;;
      move_rows source dest sourceEntry
                (match dst with Some _ => true | None => false end) ;;
      exec_commit ;;
      setLastUpdate
  end.

(** dbops.cpp, [moveEntry]. *)
Definition moveEntry (source dest : string) : M unit :=
  sep <- ends_with_separator source ;;
  if sep
  then throw (InvalidArgsException "source cannot end with path separator")
  else if hasDotNotation source
  then throw (InvalidArgsException
                "source path cannot contain any dot notations")
  else
    sep' <- ends_with_separator dest ;;
    if sep'
    then throw (InvalidArgsException "dest cannot end with path separator")
    else if hasDotNotation dest
    then throw (InvalidArgsException
                  "dest path cannot contain any dot notations")
    else if String.eqb source dest then ret tt
    else move_entries source dest.

(* ================================================================== *)
(** ** Notions used by the statements *)

(** A computation that never runs into undefined behaviour. *)
Definition defined {A} (m : M A) : Prop :=
  forall w, fst (m w) <> Undef.

Definition set_mtime (e : Entry) (mtime : Z) : Entry :=
  mkEntry (e_path e) (e_hash e) (e_type e) (e_meta e) mtime (e_size e)
          (e_depth e) (e_point_geom e) (e_polygon_geom e).

Definition set_hash (e : Entry) (hash : string) : Entry :=
  mkEntry (e_path e) hash (e_type e) (e_meta e) (e_mtime e) (e_size e)
          (e_depth e) (e_point_geom e) (e_polygon_geom e).

Definition add_event (ev : Event) (w : World) : World :=
  mkWorld (w_fs w) (w_builds w) (w_db w) (w_disk w) (w_txn w) (w_time w)
          (w_trace w ++ [ev]).


(** What the test for a trailing separator of [moveEntry] reads: [None]
    when the read is out of bounds. *)
Definition trailing_separator (s : string) : option bool :=
  match string_at s (last_index s) with
  | Some c => Some (Ascii.eqb c slash || Ascii.eqb c backslash)
  | None => None
  end.

(** The world [moveEntry] leaves when a file entry is moved. *)
Definition moved_file_world (source dest : string) (w : World) : World :=
  let rows :=
    rename_path source dest (path_depth dest)
      (delete_path dest (entries (w_db w))) in
  let db := mkStore rows (w_time w) in
  mkWorld (w_fs w) (w_builds w) db db false (w_time w)
    (w_trace w ++ [EvBegin]
       ++ (if has_path dest (entries (w_db w)) then [EvDelete dest] else [])
       ++ [EvRename source dest; EvCommit; EvSetLastUpdate]).

(** Events of the loop of [deleteFromIndex] over the matched rows. *)
Definition is_removal_event (ev : Event) : Prop :=
  match ev with
  | EvRemoveBuild _ | EvRemoveCallback _ => True
  | _ => False
  end.

(** The hashes read by [deleteFromIndex] from the matched rows for which
    [checkDeleteBuild] looks for a build folder. *)
Definition build_hashes (rows : list Row) : list string :=
  List.filter (fun h => negb (is_empty h))
    (List.map (fun r => getText (r_hash r)) rows).

(** The rows selected by [deleteFromIndex]. *)
Definition delete_matches (query : string) (isFolder : bool)
           (rows : list Row) : list Row :=
  List.filter (fun r => like_escaped (delete_pattern query isFolder) (r_path r))
    rows.

(** The rows selected by [getMatchingEntries] called as in
    [removeFromIndex]. *)
Definition remove_matches_of (p : string) (rows : list Row) : list Row :=
  List.filter
    (fun r => like_escaped (match_pattern (relativeTo p) false) (r_path r))
    rows.

(** Some input path of [removeFromIndex] matches no entry when its turn
    comes: the paths before it were removed without an error and left the
    world [w1], where nothing matches [p]. *)
Definition unmatched_input (callback : RemoveCallback) (paths : list string)
           (w : World) : Prop :=
  exists pre p post w1,
    paths = (pre ++ p :: post)%list
    /\ for_each (remove_path callback) pre w = (Ret tt, w1)
    /\ remove_matches_of p (entries (w_db w1)) = [].

(** The status [checkUpdate] returns, as a function of the file system. *)
Definition file_status (fs : FS) (p : string) (dbMtime : Z) (dbHash : string)
  : FileStatus :=
  match fs p with
  | None => Deleted
  | Some (NDir _) => NotModified
  | Some (NFile mtime _ content) =>
      if mtime =? dbMtime then NotModified
      else if String.eqb dbHash (sha256 content) then NotModified
      else Modified
  end.

(** The status [syncIndex] finds for a row. *)
Definition row_status (fs : FS) (r : Row) : FileStatus :=
  file_status fs (rootJoin (r_path r)) (r_mtime r) (getText (r_hash r)).

(** A row that [syncIndex] leaves alone. *)
Definition row_clean (fs : FS) (r : Row) : Prop :=
  row_status fs r = NotModified.

(** [addToIndex] skips a path whose file name contains a backslash. *)
Definition indexed (p : string) : bool :=
  negb (has_filename p && string_mem backslash (filename p)).

(** The paths of the rows [addToIndex] examines for a path list. *)
Definition examined_paths (pathList : list string) : list string :=
  List.map relativeTo (List.filter indexed pathList).

(** The path list of a call of [addToIndex]; none when there is nothing to
    do or when the listing raises. *)
Definition listed (fs : FS) (paths : list string) : list string :=
  match paths with
  | [] => []
  | _ => match getIndexPathList fs paths with
         | inr pathList => pathList
         | inl _ => []
         end
  end.

Definition never_cancels (callback : AddCallback) : Prop :=
  match callback with
  | Some cb => forall e wasUpdate, cb e wasUpdate = true
  | None => True
  end.

(** Events that change neither a row nor the last-edit timestamp nor a
    build folder. *)
Definition is_quiet_event (ev : Event) : Prop :=
  match ev with
  | EvBegin | EvCommit | EvHash _ => True
  | _ => False
  end.

(** [w'] is [w] but for events of the kind [P] added to the trace. *)
Definition only_trace (P : Event -> Prop) (w w' : World) : Prop :=
  w_fs w' = w_fs w /\ w_builds w' = w_builds w /\ w_db w' = w_db w
  /\ w_disk w' = w_disk w /\ w_txn w' = w_txn w /\ w_time w' = w_time w
  /\ exists evs, w_trace w' = (w_trace w ++ evs)%list /\ Forall P evs.

(** The entry [parseEntry] fills in for a path and what is found there. *)
Definition parsed_entry (p : string) (node : Node) : Entry :=
  let rel := relativeTo p in
  match node with
  | NDir mtime =>
      mkEntry rel "" Directory "null" mtime 0 (path_depth rel) "" ""
  | NFile mtime size content =>
      let k := classify p content in
      mkEntry rel (sha256 content) (class_type k) (extract_meta k p content)
              mtime size (path_depth rel) (extract_point k p content)
              (extract_polygon k p content)
  end.

(** The answer of an [AddCallback]; no callback never cancels. *)
Definition call_add (callback : AddCallback) (e : Entry) (wasUpdate : bool)
  : bool :=
  match callback with
  | Some cb => cb e wasUpdate
  | None => true
  end.

(** What stays as it is while the loop of [addToIndex] runs, inside its
    transaction. *)
Definition add_frame (w w' : World) : Prop :=
  w_fs w' = w_fs w /\ w_builds w' = w_builds w /\ w_txn w' = true
  /\ w_disk w' = w_disk w /\ w_time w' = w_time w
  /\ last_edit (w_db w') = last_edit (w_db w).

(** The world after a statement that leaves the rows [rows] in the table. *)
Definition set_entries (rows : list Row) (w : World) : World :=
  let db := mkStore rows (last_edit (w_db w)) in
  mkWorld (w_fs w) (w_builds w) db (if w_txn w then w_disk w else db)
          (w_txn w) (w_time w) (w_trace w).

(** The invariant of the loop of [addToIndex] that makes a later
    [syncIndex] a no-op: every row is unchanged on disk or still to be
    examined. *)
Definition add_inv (fs0 : FS) (remaining : list string) (w : World) : Prop :=
  w_fs w = fs0 /\ w_txn w = true
  /\ List.NoDup (List.map r_path (entries (w_db w)))
  /\ forall r, In r (entries (w_db w)) ->
               row_clean fs0 r \/ In (r_path r) (examined_paths remaining).

(** The columns of a directory row (invariant 5 of the data model): empty
    hash, null meta, size zero, no geometry. *)
Definition directory_columns (r : Row) : Prop :=
  getText (r_hash r) = "" /\ r_meta r = "null" /\ r_size r = 0
  /\ r_point_geom r = None /\ r_polygon_geom r = None.

Definition dir_shape (r : Row) : Prop :=
  r_type r = Directory -> directory_columns r.

Definition store_ok (s : Store) : Prop := Forall dir_shape (entries s).

Definition world_ok (w : World) : Prop :=
  store_ok (w_db w) /\ store_ok (w_disk w).

(** [m] keeps the invariant [I], however it ends, and its result
    satisfies [R]. *)
Definition keeps (I : World -> Prop) {A} (m : M A) (R : A -> Prop) : Prop :=
  forall w, I w -> I (snd (m w)) /\ forall a, fst (m w) = Ret a -> R a.

(** The worlds that the operations of the index can produce, starting
    from a freshly initialised index: calls of the four mutating
    operations with any arguments, changes of the file system, of the
    build folders and of the clock between calls, and a reopening of the
    store, which rolls an open transaction back. *)
Inductive reachable : World -> Prop :=
| reach_init (fs : FS) (builds : gset string) (time : Z) :
    reachable (mkWorld fs builds (mkStore [] time) (mkStore [] time) false
                       time [])
| reach_add (w : World) (paths : list string) (callback : AddCallback) :
    reachable w -> reachable (snd (addToIndex paths callback w))
| reach_remove (w : World) (paths : list string)
               (callback : RemoveCallback) :
    reachable w -> reachable (snd (removeFromIndex paths callback w))
| reach_sync (w : World) :
    reachable w -> reachable (snd (syncIndex w))
| reach_move (w : World) (source dest : string) :
    reachable w -> reachable (snd (moveEntry source dest w))
| reach_env (w : World) (fs : FS) (builds : gset string) (time : Z) :
    reachable w ->
    reachable (mkWorld fs builds (w_db w) (w_disk w) (w_txn w) time
                       (w_trace w))
| reach_reopen (w : World) :
    reachable w ->
    reachable (mkWorld (w_fs w) (w_builds w) (w_disk w) (w_disk w) false
                       (w_time w) (w_trace w)).

(** No condition on a result. *)
Definition whatever {A} (a : A) : Prop := True.

(** The paths [listFolderPaths] returns: the matching paths of the table,
    in the order of the index of the primary key. *)
Definition folder_paths (path : string) (rows : list Row) : list string :=
  sort_paths
    (List.map r_path
       (List.filter
          (fun r => like_plain (path +:+ "/%") (r_path r)
                    || String.eqb (r_path r) path) rows)).

(** A list of paths in ascending order, byte by byte. *)
Fixpoint ascending (l : list string) : bool :=
  match l with
  | [] => true
  | p :: l' =>
      match l' with
      | [] => true
      | q :: _ => String.leb p q && ascending l'
      end
  end.

(** The rewritten path of a path that is at least as long as [source]. *)
Definition rewritten (source dest path : string) : string :=
  dest +:+ string_drop (String.length source) path.



(** The row [addFolder] inserts. *)
Definition folder_row (mtime : Z) (path : string) : Row :=
  mkRow path None Directory "null" mtime 0 (path_depth path) None None.

(** The inserts of [createMissingFolders], on the table: [None] when one
    of them hits a path that is already there. *)
Fixpoint add_folders (mtime : Z) (folders : list string) (rows : list Row)
  : option (list Row) :=
  match folders with
  | [] => Some rows
  | f :: rest =>
      if has_path f rows then None
      else add_folders mtime rest (rows ++ [folder_row mtime f])
  end.

(** What a statement on the rows leaves alone. *)
Definition rows_frame (w w' : World) : Prop :=
  w_fs w' = w_fs w /\ w_builds w' = w_builds w /\ w_txn w' = w_txn w
  /\ w_time w' = w_time w /\ last_edit (w_db w') = last_edit (w_db w)
  /\ (w_txn w = true -> w_disk w' = w_disk w).

(** The proper prefixes of a path that end before a separator: the
    folders above it. *)
Fixpoint parent_folders_from (seen rest : string) : list string :=
  match rest with
  | EmptyString => []
  | String c rest' =>
      if Ascii.eqb c slash
      then string_rev seen :: parent_folders_from (String c seen) rest'
      else parent_folders_from (String c seen) rest'
  end.

Definition parent_folders (path : string) : list string :=
  parent_folders_from EmptyString path.


(** A row with its path rewritten and its depth recomputed. *)
Definition with_path (newPath : string) (r : Row) : Row :=
  mkRow newPath (r_hash r) (r_type r) (r_meta r) (r_mtime r) (r_size r)
        (path_depth newPath) (r_point_geom r) (r_polygon_geom r).

(** The worlds after a BEGIN and after a COMMIT that the store accepts. *)
Definition begun (w : World) : World :=
  mkWorld (w_fs w) (w_builds w) (w_db w) (w_disk w) true (w_time w)
          (w_trace w ++ [EvBegin]).

Definition committed (w : World) : World :=
  mkWorld (w_fs w) (w_builds w) (w_db w) (w_db w) false (w_time w)
          (w_trace w ++ [EvCommit]).

(* ------------------------------------------------------------------ *)
(** *** A small working tree, for the examples

    Paths are given relative to the root of the working tree, which is the
    current directory, so [relativeTo] and [rootJoin] are the identity.  The
    digest, the classifier and the extractors are stand-ins. *)

Definition demo_sha256 (content : string) : string := "sha:" +:+ content.
Definition demo_classify (p content : string) : FileClass := CGeneric.
Definition demo_meta (k : FileClass) (p content : string) : string := "{}".
Definition demo_geom (k : FileClass) (p content : string) : string := "".
Definition demo_path (p : string) : string := p.

(** A path has a dot segment when one of its segments is [.] or [..]. *)
Fixpoint dot_segment_from (seg s : string) : bool :=
  match s with
  | EmptyString => String.eqb seg "." || String.eqb seg ".."
  | String c s' =>
      if Ascii.eqb c slash
      then String.eqb seg "." || String.eqb seg ".."
           || dot_segment_from EmptyString s'
      else dot_segment_from (String c seg) s'
  end.

Definition demo_hasDotNotation (s : string) : bool :=
  dot_segment_from EmptyString s.

(** The listing of existing files: the paths, then the folders above
    them. *)
Definition demo_listing (fs : FS) (paths : list string)
  : Exn + list string :=
  if forallb (fun p => match fs p with Some _ => true | None => false end)
       paths
  then inr (paths ++ flat_map parent_folders paths)%list
  else inl (FSException "Path does not exist").

(** A folder [a] with the files [a/f] and [a/g], and a file [y]. *)
Definition demo_fs : FS :=
  fun p =>
    if String.eqb p "a" then Some (NDir 5)
    else if String.eqb p "a/f" then Some (NFile 7 3 "xyz")
    else if String.eqb p "a/g" then Some (NFile 8 2 "gg")
    else if String.eqb p "y" then Some (NFile 3 2 "yy")
    else None.

Definition row_a : Row :=
  mkRow "a" (Some "") Directory "null" 5 0 0 None None.
Definition row_af : Row :=
  mkRow "a/f" (Some "sha:xyz") Generic "{}" 7 3 1 None None.
Definition row_ag : Row :=
  mkRow "a/g" (Some "sha:gg") Generic "{}" 8 2 1 None None.
Definition row_y : Row :=
  mkRow "y" (Some "sha:yy") Generic "{}" 3 2 0 None None.

(** [a/f] as indexed before its content changed. *)
Definition row_af_old : Row :=
  mkRow "a/f" (Some "old") Generic "{}" 1 3 1 None None.

(** A file that is no longer on disk. *)
Definition row_gone : Row :=
  mkRow "gone" (Some "sha:g") Generic "{}" 2 1 0 None None.

Definition demo_world (rows : list Row) (builds : gset string) : World :=
  mkWorld demo_fs builds (mkStore rows 50) (mkStore rows 50) false 100 [].

(** A freshly initialised index. *)
Definition demo_empty : World := demo_world [] ∅.

(* ------------------------------------------------------------------ *)
(** *** Notions used by the further properties *)

(** The file of a row is still in the working tree. *)
Definition on_disk (fs : FS) (r : Row) : bool :=
  match fs (rootJoin (r_path r)) with
  | Some _ => true
  | None => false
  end.

(** [h] is not empty and is the hash of a row that [keep] does not
    keep: the hash of a build folder that goes with a removed row. *)
Definition hash_of_removed (keep : Row -> bool) (rows : list Row)
           (h : string) : bool :=
  negb (is_empty h)
  && existsb (fun r => negb (keep r)
                       && String.eqb (getText (r_hash r)) h) rows.

(** The test of [syncIndex] on the status of a row. *)
Definition row_changed (fs : FS) (r : Row) : bool :=
  negb (status_eqb (row_status fs r) NotModified).

(** What the statements between BEGIN and COMMIT leave alone: the file
    system, the clock, the last-edit timestamp and the committed store. *)
Definition in_transaction (w0 w : World) : Prop :=
  w_txn w = true /\ w_fs w = w_fs w0 /\ w_time w = w_time w0
  /\ last_edit (w_db w) = last_edit (w_db w0) /\ w_disk w = w_disk w0.

(** [w'] holds some of the rows of [w], in their order, and the build
    folders of [w] but those of the hashes of the other rows; it has the
    file system of [w], its clock, its transaction state and its
    last-edit timestamp. *)
Definition shrinks (w w' : World) : Prop :=
  (exists f,
      entries (w_db w') = List.filter f (entries (w_db w))
      /\ forall h, h ∈ w_builds w' <->
                   h ∈ w_builds w
                   /\ hash_of_removed f (entries (w_db w)) h = false)
  /\ w_fs w' = w_fs w /\ w_time w' = w_time w /\ w_txn w' = w_txn w
  /\ last_edit (w_db w') = last_edit (w_db w).

(** The query [removeFromIndex] runs for an input path. *)
Definition removal_query (p : string) : string :=
  if is_empty (relativeTo p) then "*" else relativeTo p.

Definition is_empty_list {A} (l : list A) : bool :=
  match l with [] => true | _ => false end.

(** Two texts that the collation of the store takes for the same: they
    are as long as each other, with characters that compare equal. *)
Fixpoint same_text (a b : string) : bool :=
  match a, b with
  | EmptyString, EmptyString => true
  | String x a', String y b' => ceq x y && same_text a' b'
  | _, _ => false
  end.

(** The collation is an equivalence on the characters, and no other
    character compares equal to [*]: so it is with the binary collation
    and with the folding of the case of the ASCII letters. *)
Definition collation_ok : Prop :=
  (forall a, ceq a a = true)
  /\ (forall a b, ceq a b = true -> ceq b a = true)
  /\ (forall a b c, ceq a b = true -> ceq b c = true -> ceq a c = true)
  /\ (forall c, ceq c star = true -> c = star).

(** A condition on rows that holds of the table as the connection sees it
    and of the committed table. *)
Definition rows_all (P : Row -> Prop) (w : World) : Prop :=
  Forall P (entries (w_db w)) /\ Forall P (entries (w_disk w)).

(** The depth column of a row holds the depth of its path. *)
Definition depth_ok (r : Row) : Prop := r_depth r = path_depth (r_path r).

(** A computation that raises no exception but an error of the store
    and [std::out_of_range]. *)
Definition raises_only_sql {A} (m : M A) : Prop :=
  forall w e w', m w = (Throw e, w') ->
                 (exists msg, e = SQLException msg) \/ e = OutOfRange.

(** [getEntry] with its third argument: [None] is a null [entry]
    pointer, which is refused before the table is read. *)
Definition getEntry_into (path : string) (entry : option Entry)
  : M (option Entry) :=
  match entry with
  | None => throw (InvalidArgsException "Entry pointer should not be null")
  | Some _ => getEntry path
  end.

(** The invariant of the loop of [syncIndex]: every row of the table is
    unchanged on disk or is a fetched row that is still to be examined. *)
Definition sync_inv (fs : FS) (rest : list Row) (w : World) : Prop :=
  w_fs w = fs /\ w_txn w = true
  /\ forall r, In r (entries (w_db w)) -> row_clean fs r \/ In r rest.

(** [n] occurs in [s], at some position. *)
Fixpoint occurs (n s : string) : bool :=
  String.prefix n s
  || match s with
     | EmptyString => false
     | String _ s' => occurs n s'
     end.

(** [s] begins or ends with a separator. *)
Definition slash_ended (s : string) : bool :=
  String.prefix "/" s || String.prefix "/" (string_rev s).

(** The table has a row of type [Directory] at the path. *)
Definition has_folder (path : string) (rows : list Row) : bool :=
  existsb (fun r => String.eqb (r_path r) path
                    && (type_code (r_type r) =? 1)) rows.

(** For the examples: a path in upper case, a file [A], a folder whose
    name has [%], and the files [a/x] and [a/b/f]. *)
Definition row_upper : Row :=
  mkRow "WEIRD%NAME_2" (Some "sha:w") Generic "{}" 4 1 0 None None.
Definition row_A : Row :=
  mkRow "A" (Some "sha:A") Generic "{}" 4 1 0 None None.
Definition row_abf : Row :=
  mkRow "a/b/f" (Some "sha:bf") Generic "{}" 4 1 2 None None.

(** A file below a folder [axb], for the examples. *)
Definition row_axb_f : Row :=
  mkRow "axb/f" (Some "sha:q") Generic "{}" 4 1 1 None None.
(* ================================================================ *)
(** ** Strings: facts *)

Lemma string_app_cons (c : ascii) (a b : string) :
  String c a +:+ b = String c (a +:+ b).
Proof. reflexivity. Qed.

Lemma string_app_nil_l (s : string) : "" +:+ s = s.
Proof. reflexivity. Qed.

Lemma string_app_nil_r (s : string) : s +:+ "" = s.
Proof.
  induction s as [|c s IH]; [reflexivity|].
  rewrite string_app_cons, IH. reflexivity.
Qed.

Lemma string_app_assoc (a b c : string) : (a +:+ b) +:+ c = a +:+ (b +:+ c).
Proof.
  induction a as [|x a IH]; [reflexivity|].
  rewrite !string_app_cons, IH. reflexivity.
Qed.

Lemma prefix_nil (s : string) : String.prefix "" s = true.
Proof. destruct s; reflexivity. Qed.

Lemma prefix_single (f c : ascii) (s : string) :
  String.prefix (String f "") (String c s) = Ascii.eqb c f.
Proof.
  simpl. destruct (ascii_dec f c) as [->|Hne].
  - rewrite prefix_nil, Ascii.eqb_refl. reflexivity.
  - symmetry. apply Ascii.eqb_neq. congruence.
Qed.

(** Replacing a single character works character by character. *)
Lemma string_replace_char_cons (f : ascii) (to : string) (c : ascii)
      (s : string) :
  string_replace (String c s) (String f "") to =
  (if Ascii.eqb c f then to else String c "")
    +:+ string_replace s (String f "") to.
Proof.
  unfold string_replace.
  change (string_replace_aux (String f "") to 0 (String c s))
    with (if String.prefix (String f "") (String c s)
          then to +:+ string_replace_aux (String f "") to 0 s
          else String c (string_replace_aux (String f "") to 0 s)).
  rewrite prefix_single. destruct (Ascii.eqb c f); reflexivity.
Qed.

Lemma string_replace_char_nil (f : ascii) (to : string) :
  string_replace "" (String f "") to = "".
Proof. reflexivity. Qed.

Lemma string_replace_char_app (f : ascii) (to a b : string) :
  string_replace (a +:+ b) (String f "") to =
  string_replace a (String f "") to +:+ string_replace b (String f "") to.
Proof.
  induction a as [|c a IH]; [reflexivity|].
  change (String c a +:+ b) with (String c (a +:+ b)).
  rewrite !string_replace_char_cons, IH, string_app_assoc. reflexivity.
Qed.

Lemma sanitize_nil : sanitize_query_param "" = "".
Proof. reflexivity. Qed.

Lemma string_replace_char_one (f : ascii) (to : string) (c : ascii) :
  string_replace (String c "") (String f "") to =
  if Ascii.eqb c f then to else String c "".
Proof.
  rewrite string_replace_char_cons, string_replace_char_nil.
  apply string_app_nil_r.
Qed.

Lemma sanitize_cons (c : ascii) (s : string) :
  sanitize_query_param (String c s) =
  escape_char c +:+ sanitize_query_param s.
Proof.
  unfold sanitize_query_param, escape_char, slash, percent, underscore, star.
  rewrite (string_replace_char_cons "/" "//" c s).
  rewrite !string_replace_char_app.
  destruct (Ascii.eqb_spec c "/") as [->|H1]; [reflexivity|].
  rewrite (string_replace_char_one "%" "/%" c).
  destruct (Ascii.eqb_spec c "%") as [->|H2]; [reflexivity|].
  rewrite (string_replace_char_one "_" "/_" c).
  destruct (Ascii.eqb_spec c "_") as [->|H3]; [reflexivity|].
  rewrite (string_replace_char_one "*" "%" c).
  destruct (Ascii.eqb_spec c "*") as [->|H4]; reflexivity.
Qed.

Lemma string_length_app (a b : string) :
  String.length (a +:+ b) = (String.length a + String.length b)%nat.
Proof.
  induction a as [|c a IH].
  - rewrite string_app_nil_l. reflexivity.
  - rewrite string_app_cons. cbn [String.length]. rewrite IH. reflexivity.
Qed.

Lemma string_mem_app (c : ascii) (a b : string) :
  string_mem c (a +:+ b) = string_mem c a || string_mem c b.
Proof.
  induction a as [|x a IH].
  - rewrite string_app_nil_l. reflexivity.
  - rewrite string_app_cons. cbn [string_mem]. rewrite IH.
    apply orb_assoc.
Qed.

(** *** LIKE on sanitized patterns *)

Lemma like_percent (esc : option ascii) (pat s : string) :
  like ceq esc (String percent pat) s = any_suffix (like ceq esc pat) s.
Proof.
  change (like ceq esc (String percent pat) s)
    with ((fix any (s : string) : bool :=
             like ceq esc pat s
             || match s with
                | EmptyString => false
                | String _ s' => any s'
                end) s).
  induction s as [|x s IH]; simpl; [reflexivity|].
  rewrite IH. reflexivity.
Qed.

Lemma any_suffix_ext (f g : string -> bool) (s : string) :
  (forall t, f t = g t) -> any_suffix f s = any_suffix g s.
Proof.
  intros Hfg. induction s as [|x s IH]; simpl; rewrite Hfg; congruence.
Qed.

Lemma like_escaped_literal (d : ascii) (pat s : string) :
  like ceq (Some slash) (String slash (String d pat)) s =
  match s with
  | EmptyString => false
  | String x s' => ceq d x && like ceq (Some slash) pat s'
  end.
Proof. reflexivity. Qed.

Lemma like_plain_char (esc : option ascii) (c : ascii) (pat s : string) :
  Ascii.eqb c percent = false ->
  is_escape esc c = false ->
  Ascii.eqb c underscore = false ->
  like ceq esc (String c pat) s =
  match s with
  | EmptyString => false
  | String x s' => ceq c x && like ceq esc pat s'
  end.
Proof. intros H1 H2 H3. simpl. rewrite H1, H2, H3. reflexivity. Qed.

(** With [/] as the escape character, the sanitized pattern reads as the
    input does: [*] is any run of characters, all else is literal. *)
Lemma like_sanitize (q s : string) :
  like_escaped (sanitize_query_param q) s = glob ceq q s.
Proof.
  unfold like_escaped. revert s.
  induction q as [|c q IH]; intros s; [reflexivity|].
  rewrite sanitize_cons. unfold escape_char.
  destruct (Ascii.eqb_spec c slash) as [->|H1].
  { change ("//" +:+ sanitize_query_param q)
      with (String slash (String slash (sanitize_query_param q))).
    rewrite like_escaped_literal. simpl.
    destruct s; [reflexivity|]. rewrite IH. reflexivity. }
  destruct (Ascii.eqb_spec c percent) as [->|H2].
  { change ("/%" +:+ sanitize_query_param q)
      with (String slash (String percent (sanitize_query_param q))).
    rewrite like_escaped_literal. simpl.
    destruct s; [reflexivity|]. rewrite IH. reflexivity. }
  destruct (Ascii.eqb_spec c underscore) as [->|H3].
  { change ("/_" +:+ sanitize_query_param q)
      with (String slash (String underscore (sanitize_query_param q))).
    rewrite like_escaped_literal. simpl.
    destruct s; [reflexivity|]. rewrite IH. reflexivity. }
  destruct (Ascii.eqb_spec c star) as [->|H4].
  { change ("%" +:+ sanitize_query_param q)
      with (String percent (sanitize_query_param q)).
    rewrite like_percent.
    change (glob ceq (String star q) s) with (any_suffix (glob ceq q) s).
    apply any_suffix_ext, IH. }
  change (String c "" +:+ sanitize_query_param q)
    with (String c (sanitize_query_param q)).
  rewrite like_plain_char.
  - simpl. apply Ascii.eqb_neq in H4. rewrite H4.
    destruct s; [reflexivity|]. rewrite IH. reflexivity.
  - apply Ascii.eqb_neq. exact H2.
  - simpl. apply Ascii.eqb_neq. exact H1.
  - apply Ascii.eqb_neq. exact H3.
Qed.

Lemma any_suffix_true (f : string -> bool) (s : string) :
  (forall t, f t = true) -> any_suffix f s = true.
Proof. intros H. destruct s; simpl; rewrite H; reflexivity. Qed.

Lemma any_suffix_is_empty (s : string) : any_suffix is_empty s = true.
Proof. induction s as [|x s IH]; simpl; [reflexivity|exact IH]. Qed.

(** A literal text followed by [*] matches what begins with the text. *)
Lemma glob_literal_star (lit s : string) :
  string_mem star lit = false ->
  glob ceq (lit +:+ "*") s = begins_with ceq lit s.
Proof.
  revert s. induction lit as [|c lit IH]; intros s Hlit.
  - rewrite string_app_nil_l. apply any_suffix_is_empty.
  - simpl in Hlit. apply orb_false_iff in Hlit as [Hc Hlit].
    rewrite string_app_cons. simpl. rewrite Hc.
    destruct s; [reflexivity|]. rewrite IH by exact Hlit. reflexivity.
Qed.

(** With the folding of ASCII case, what begins with a text is what
    begins with the text in some mix of upper and lower case. *)
Lemma begins_with_nocase (pre s : string) :
  begins_with nocase pre s = true <->
  exists text rest,
    s = text +:+ rest
    /\ string_map tolower text = string_map tolower pre.
Proof.
  revert s. induction pre as [|c pre IH]; intros s.
  - split; [|reflexivity].
    intros _. exists "", s. split; reflexivity.
  - destruct s as [|x s]; cbn [begins_with].
    + split; [discriminate|].
      intros (text & rest & Hs & Ht).
      destruct text; [discriminate Ht|discriminate Hs].
    + rewrite andb_true_iff, IH. unfold nocase. rewrite Ascii.eqb_eq.
      split.
      * intros (Hc & text & rest & -> & Ht).
        exists (String x text), rest. split; [reflexivity|].
        cbn [string_map]. rewrite Ht, Hc. reflexivity.
      * intros (text & rest & Hs & Ht).
        destruct text as [|y text]; [discriminate Ht|].
        rewrite string_app_cons in Hs. injection Hs as -> ->.
        cbn [string_map] in Ht. injection Ht as Hy Ht.
        split; [symmetry; exact Hy|].
        exists text, rest. split; [reflexivity|exact Ht].
Qed.

Lemma begins_with_eqb (pre s : string) :
  begins_with Ascii.eqb pre s = true <-> exists rest, s = pre +:+ rest.
Proof.
  revert s. induction pre as [|c pre IH]; intros s; simpl.
  - split; [intros _; exists s; reflexivity|reflexivity].
  - destruct s as [|x s].
    + split; [discriminate|]. intros [rest H]. discriminate.
    + rewrite andb_true_iff, IH, Ascii.eqb_eq. split.
      * intros [-> [rest ->]]. exists rest. reflexivity.
      * intros [rest H]. rewrite string_app_cons in H.
        injection H as -> ->. split; [reflexivity|]. exists rest. reflexivity.
Qed.

(* ================================================================ *)
(** ** Computations: facts *)

Lemma bind_ret_l {A B} (m : M A) (k : A -> M B) (w w1 : World) (a : A) :
  m w = (Ret a, w1) -> bind m k w = k a w1.
Proof. intros H. unfold bind. rewrite H. reflexivity. Qed.

Lemma bind_throw_l {A B} (m : M A) (k : A -> M B) (w w1 : World) (e : Exn) :
  m w = (Throw e, w1) -> bind m k w = (Throw e, w1).
Proof. intros H. unfold bind. rewrite H. reflexivity. Qed.

Lemma bind_undef_l {A B} (m : M A) (k : A -> M B) (w w1 : World) :
  m w = (Undef, w1) -> bind m k w = (Undef, w1).
Proof. intros H. unfold bind. rewrite H. reflexivity. Qed.

Lemma bind_inv {A B} (m : M A) (k : A -> M B) (w w' : World)
      (o : Outcome B) :
  bind m k w = (o, w') ->
  (exists a w1, m w = (Ret a, w1) /\ k a w1 = (o, w'))
  \/ (exists e, m w = (Throw e, w') /\ o = Throw e)
  \/ (m w = (Undef, w') /\ o = Undef).
Proof.
  unfold bind. destruct (m w) as [[a|e|] w1]; intros H.
  - left. exists a, w1. split; [reflexivity|exact H].
  - right. left. exists e. injection H as <- <-. split; reflexivity.
  - right. right. injection H as <- <-. split; reflexivity.
Qed.

Lemma defined_ret {A} (a : A) : defined (ret a).
Proof. intros w. discriminate. Qed.

Lemma defined_throw {A} (e : Exn) : defined (@throw A e).
Proof. intros w. discriminate. Qed.

Lemma defined_bind {A B} (m : M A) (k : A -> M B) :
  defined m -> (forall a, defined (k a)) -> defined (bind m k).
Proof.
  intros Hm Hk w. unfold bind. specialize (Hm w).
  destruct (m w) as [[a|e|] w1]; simpl in *.
  - apply Hk.
  - discriminate.
  - congruence.
Qed.

Lemma defined_get_world : defined get_world.
Proof. intros w. discriminate. Qed.

Lemma defined_log (ev : Event) : defined (log ev).
Proof. intros w. discriminate. Qed.

Lemma defined_write_store (f : Store -> Store) : defined (write_store f).
Proof. intros w. discriminate. Qed.

Lemma defined_exec_begin : defined exec_begin.
Proof. intros w. unfold exec_begin. destruct (w_txn w); discriminate. Qed.

Lemma defined_exec_commit : defined exec_commit.
Proof. intros w. unfold exec_commit. destruct (w_txn w); discriminate. Qed.

Lemma defined_for_each {A} (f : A -> M unit) (l : list A) :
  (forall a, defined (f a)) -> defined (for_each f l).
Proof.
  intros Hf. induction l as [|x l IH]; simpl.
  - apply defined_ret.
  - apply defined_bind; [apply Hf|intros _; exact IH].
Qed.

Ltac defined_step :=
  first
    [ apply defined_ret | apply defined_throw | apply defined_get_world
    | apply defined_log | apply defined_write_store
    | apply defined_exec_begin | apply defined_exec_commit
    | apply defined_for_each; intros ?
    | apply defined_bind; [|intros ?] ].

Ltac defined_auto :=
  repeat first
    [ defined_step
    | match goal with
      | |- defined (if ?b then _ else _) => destruct b
      | |- defined (match ?x with _ => _ end) => destruct x
      end ].

Lemma defined_setLastUpdate : defined setLastUpdate.
Proof. unfold setLastUpdate. defined_auto. Qed.

Lemma defined_sql_insert (r : Row) : defined (sql_insert r).
Proof. unfold sql_insert. defined_auto. Qed.

Lemma defined_sql_delete (p : string) : defined (sql_delete p).
Proof. unfold sql_delete. defined_auto. Qed.

Lemma defined_sql_rename (s d : string) (n : Z) : defined (sql_rename s d n).
Proof. unfold sql_rename. defined_auto. Qed.

Lemma defined_createMissingFolders : defined createMissingFolders.
Proof.
  unfold createMissingFolders, addFolder.
  apply defined_bind; [apply defined_get_world|intros w].
  apply defined_for_each. intros folder.
  apply defined_bind; [apply defined_get_world|intros w'].
  apply defined_sql_insert.
Qed.

(* ================================================================ *)
(** ** [checkUpdate] *)

Lemma checkUpdate_missing (e : Entry) (p : string) (m : Z) (h : string)
      (w : World) :
  w_fs w p = None -> checkUpdate e p m h w = (Ret (Deleted, e), w).
Proof.
  intros H. unfold checkUpdate, bind, get_world. rewrite H. reflexivity.
Qed.

Lemma checkUpdate_directory (e : Entry) (p : string) (m : Z) (h : string)
      (w : World) (dm : Z) :
  w_fs w p = Some (NDir dm) ->
  checkUpdate e p m h w = (Ret (NotModified, e), w).
Proof.
  intros H. unfold checkUpdate, bind, get_world. rewrite H. reflexivity.
Qed.

Lemma checkUpdate_same_mtime (e : Entry) (p : string) (h : string)
      (w : World) (mtime size : Z) (content : string) :
  w_fs w p = Some (NFile mtime size content) ->
  checkUpdate e p mtime h w = (Ret (NotModified, set_mtime e mtime), w).
Proof.
  intros H. unfold checkUpdate, bind, get_world. rewrite H.
  rewrite Z.eqb_refl. reflexivity.
Qed.

Lemma checkUpdate_other_mtime (e : Entry) (p : string) (m : Z) (h : string)
      (w : World) (mtime size : Z) (content : string) :
  w_fs w p = Some (NFile mtime size content) ->
  mtime <> m ->
  checkUpdate e p m h w =
  (Ret (if String.eqb h (sha256 content) then NotModified else Modified,
        set_hash (set_mtime e mtime) (sha256 content)),
   add_event (EvHash p) w).
Proof.
  intros H Hne. unfold checkUpdate, bind, get_world. rewrite H.
  apply Z.eqb_neq in Hne. rewrite Hne. simpl.
  destruct (String.eqb h (sha256 content)); reflexivity.
Qed.

(* ================================================================ *)
(** ** [moveEntry]: the checks on the endpoints *)

Lemma string_length_nonempty (s : string) :
  s <> "" -> (0 < Z.of_nat (String.length s)).
Proof. destruct s; [congruence|]. intros _. simpl. lia. Qed.

Lemma last_index_nonempty (s : string) :
  s <> "" -> 0 <= last_index s < Z.of_nat (String.length s).
Proof.
  intros H. apply string_length_nonempty in H. unfold last_index, size_t_sub.
  split.
  - apply Z.mod_pos_bound. lia.
  - assert ((Z.of_nat (String.length s) - 1) mod 2 ^ 64
            <= Z.of_nat (String.length s) - 1) by (apply Z.mod_le; lia).
    lia.
Qed.

Lemma last_index_empty : last_index "" = 2 ^ 64 - 1.
Proof. reflexivity. Qed.

Lemma string_get_in_bounds (s : string) (n : nat) :
  (n < String.length s)%nat -> exists c, String.get n s = Some c.
Proof.
  revert n. induction s as [|x s IH]; intros n Hn; simpl in Hn; [lia|].
  destruct n as [|n]; simpl.
  - exists x. reflexivity.
  - apply IH. lia.
Qed.

Lemma string_at_in_bounds (s : string) (pos : Z) :
  0 <= pos < Z.of_nat (String.length s) ->
  exists c, string_at s pos = Some c.
Proof.
  intros H. unfold string_at.
  destruct (Z.ltb_spec pos (Z.of_nat (String.length s))); [|lia].
  apply string_get_in_bounds. lia.
Qed.

Lemma trailing_separator_nonempty (s : string) :
  s <> "" -> exists b, trailing_separator s = Some b.
Proof.
  intros H. unfold trailing_separator.
  destruct (string_at_in_bounds s (last_index s)) as [c Hc].
  - apply last_index_nonempty, H.
  - rewrite Hc. eauto.
Qed.

Lemma trailing_separator_empty : trailing_separator "" = None.
Proof. reflexivity. Qed.

Lemma ends_with_separator_eq (s : string) (w : World) :
  ends_with_separator s w =
  match trailing_separator s with
  | Some b => (Ret b, w)
  | None => (Undef, w)
  end.
Proof.
  unfold ends_with_separator, trailing_separator, string_index, bind.
  destruct (string_at s (last_index s)) as [c|]; simpl; [|reflexivity].
  destruct (Ascii.eqb c slash); reflexivity.
Qed.

Lemma defined_getEntry (p : string) : defined (getEntry p).
Proof. unfold getEntry. defined_auto. Qed.

Lemma defined_listFolderPaths (p : string) : defined (listFolderPaths p).
Proof. unfold listFolderPaths. defined_auto. Qed.

Lemma defined_moved_path (source dest path : string) :
  defined (moved_path source dest path).
Proof. unfold moved_path, substr. defined_auto. Qed.

(** After the endpoint checks nothing in [moveEntry] is undefined. *)
Lemma moveEntry_defined_after_checks (source dest : string) (w : World) :
  trailing_separator source <> None ->
  trailing_separator dest <> None ->
  fst (moveEntry source dest w) <> Undef.
Proof.
  intros Hs Hd. unfold moveEntry.
  unfold bind at 1. rewrite ends_with_separator_eq.
  destruct (trailing_separator source) as [[|]|]; [discriminate| |congruence].
  destruct (hasDotNotation source); [discriminate|].
  unfold bind at 1. rewrite ends_with_separator_eq.
  destruct (trailing_separator dest) as [[|]|]; [discriminate| |congruence].
  destruct (hasDotNotation dest); [discriminate|].
  destruct (String.eqb source dest); [discriminate|].
  revert w. change (defined (move_entries source dest)).
  unfold move_entries.
  apply defined_bind; [apply defined_getEntry|intros src].
  apply defined_bind; [apply defined_getEntry|intros dst].
  destruct src as [sourceEntry|]; [|apply defined_throw].
  apply defined_bind.
  { unfold move_check. destruct dst; defined_auto. }
  intros _. apply defined_bind; [apply defined_exec_begin|intros _].
  apply defined_bind.
  { unfold move_rows. destruct (negb (is_dir_entry sourceEntry)).
    - apply defined_bind.
      + destruct dst; [apply defined_sql_delete|apply defined_ret].
      + intros _. apply defined_sql_rename.
    - apply defined_bind; [apply defined_listFolderPaths|intros paths].
      apply defined_bind.
      + apply defined_for_each. intros path. unfold move_folder_step.
        apply defined_bind; [apply defined_moved_path|intros newPath].
        apply defined_bind; [apply defined_sql_delete|intros _].
        apply defined_sql_rename.
      + intros _. apply defined_createMissingFolders. }
  intros _. apply defined_bind; [apply defined_exec_commit|intros _].
  apply defined_setLastUpdate.
Qed.

Lemma moveEntry_empty_source (dest : string) (w : World) :
  moveEntry "" dest w = (Undef, w).
Proof. reflexivity. Qed.

Lemma moveEntry_empty_dest (source : string) (w : World) :
  trailing_separator source = Some false ->
  hasDotNotation source = false ->
  moveEntry source "" w = (Undef, w).
Proof.
  intros Hs Hdot. unfold moveEntry.
  unfold bind at 1. rewrite ends_with_separator_eq, Hs, Hdot.
  reflexivity.
Qed.

(* ================================================================ *)
(** ** [moveEntry]: the consistency checks on the entries *)

Lemma is_dir_entry_of_row (r : Row) :
  is_dir_entry (entry_of_row r) = true <-> r_type r = Directory.
Proof.
  unfold is_dir_entry. simpl. destruct (r_type r); split; congruence.
Qed.

Lemma is_dir_entry_of_row_false (r : Row) :
  is_dir_entry (entry_of_row r) = false <-> r_type r <> Directory.
Proof.
  unfold is_dir_entry. simpl. destruct (r_type r); split; congruence.
Qed.

Lemma getEntry_eq (p : string) (w : World) :
  getEntry p w =
  (Ret (option_map entry_of_row (find_row p (entries (w_db w)))), w).
Proof. reflexivity. Qed.

Lemma moveEntry_after_checks (source dest : string) (w : World) :
  trailing_separator source = Some false ->
  hasDotNotation source = false ->
  trailing_separator dest = Some false ->
  hasDotNotation dest = false ->
  source <> dest ->
  moveEntry source dest w = move_entries source dest w.
Proof.
  intros Hs Hsd Hd Hdd Hne. unfold moveEntry.
  unfold bind at 1. rewrite ends_with_separator_eq, Hs, Hsd.
  unfold bind at 1. rewrite ends_with_separator_eq, Hd, Hdd.
  apply String.eqb_neq in Hne. rewrite Hne. reflexivity.
Qed.

(** Any failure of the endpoint checks is an argument error too. *)
Lemma moveEntry_checks (source dest : string) (w : World) :
  source <> "" -> dest <> "" -> source <> dest ->
  (exists msg, moveEntry source dest w = (Throw (InvalidArgsException msg), w))
  \/ (trailing_separator source = Some false
      /\ hasDotNotation source = false
      /\ trailing_separator dest = Some false
      /\ hasDotNotation dest = false
      /\ moveEntry source dest w = move_entries source dest w).
Proof.
  intros Hs Hd Hne.
  destruct (trailing_separator_nonempty source Hs) as [bs Hbs].
  destruct (trailing_separator_nonempty dest Hd) as [bd Hbd].
  destruct bs.
  { left. unfold moveEntry, bind at 1.
    rewrite ends_with_separator_eq, Hbs. eauto. }
  destruct (hasDotNotation source) eqn:Hsd.
  { left. unfold moveEntry, bind at 1.
    rewrite ends_with_separator_eq, Hbs, Hsd. eauto. }
  destruct bd.
  { left. unfold moveEntry, bind at 1.
    rewrite ends_with_separator_eq, Hbs, Hsd. unfold bind at 1.
    rewrite ends_with_separator_eq, Hbd. eauto. }
  destruct (hasDotNotation dest) eqn:Hdd.
  { left. unfold moveEntry, bind at 1.
    rewrite ends_with_separator_eq, Hbs, Hsd. unfold bind at 1.
    rewrite ends_with_separator_eq, Hbd, Hdd. eauto. }
  right. repeat split; try assumption.
  apply moveEntry_after_checks; assumption.
Qed.

Lemma move_entries_refused (source dest : string) (w : World) (rs rd : Row) :
  find_row source (entries (w_db w)) = Some rs ->
  find_row dest (entries (w_db w)) = Some rd ->
  r_type rs = Directory \/ r_type rd = Directory ->
  exists msg,
    move_entries source dest w = (Throw (InvalidArgsException msg), w).
Proof.
  intros Hrs Hrd Hty. unfold move_entries.
  rewrite (bind_ret_l _ _ _ _ _ (getEntry_eq source w)).
  rewrite (bind_ret_l _ _ _ _ _ (getEntry_eq dest w)).
  rewrite Hrs, Hrd. simpl. unfold move_check.
  destruct (is_dir_entry (entry_of_row rs)) eqn:Es.
  - destruct (is_dir_entry (entry_of_row rd)); simpl; eauto.
  - destruct Hty as [Hty|Hty].
    + apply is_dir_entry_of_row in Hty. congruence.
    + apply is_dir_entry_of_row in Hty. rewrite Hty. simpl. eauto.
Qed.

Lemma has_path_delete_path (p : string) (rows : list Row) :
  has_path p (delete_path p rows) = false.
Proof.
  unfold has_path, delete_path.
  induction rows as [|r rows IH]; simpl; [reflexivity|].
  destruct (String.eqb (r_path r) p) eqn:E; simpl; [exact IH|].
  rewrite E. exact IH.
Qed.

Lemma find_row_has_path (p : string) (rows : list Row) (r : Row) :
  find_row p rows = Some r -> has_path p rows = true.
Proof.
  unfold find_row, has_path. induction rows as [|x rows IH]; simpl.
  - discriminate.
  - destruct (String.eqb (r_path x) p); [reflexivity|exact IH].
Qed.

Lemma find_row_none_has_path (p : string) (rows : list Row) :
  find_row p rows = None -> has_path p rows = false.
Proof.
  unfold find_row, has_path. induction rows as [|x rows IH]; simpl.
  - reflexivity.
  - destruct (String.eqb (r_path x) p); [discriminate|exact IH].
Qed.

Lemma delete_path_absent (p : string) (rows : list Row) :
  has_path p rows = false -> delete_path p rows = rows.
Proof.
  unfold has_path, delete_path.
  induction rows as [|x rows IH]; simpl; [reflexivity|].
  destruct (String.eqb (r_path x) p); simpl; [discriminate|].
  intros H. rewrite IH by exact H. reflexivity.
Qed.

(** Moving a file entry: the row at [dest], if any, is deleted, then the
    row at [source] is rewritten. *)
Lemma move_entries_file (source dest : string) (w : World) (rs : Row) :
  w_txn w = false ->
  find_row source (entries (w_db w)) = Some rs ->
  r_type rs <> Directory ->
  (forall rd, find_row dest (entries (w_db w)) = Some rd ->
              r_type rd <> Directory) ->
  move_entries source dest w = (Ret tt, moved_file_world source dest w).
Proof.
  intros Htxn Hrs Hts Hrd. unfold move_entries.
  rewrite (bind_ret_l _ _ _ _ _ (getEntry_eq source w)).
  rewrite (bind_ret_l _ _ _ _ _ (getEntry_eq dest w)).
  rewrite Hrs. simpl.
  apply is_dir_entry_of_row_false in Hts.
  assert (Hchk : move_check (entry_of_row rs)
                   (option_map entry_of_row
                      (find_row dest (entries (w_db w)))) w = (Ret tt, w)).
  { unfold move_check. destruct (find_row dest (entries (w_db w))) as [rd|];
      [|reflexivity].
    simpl. rewrite Hts.
    specialize (Hrd rd eq_refl). apply is_dir_entry_of_row_false in Hrd.
    rewrite Hrd. reflexivity. }
  rewrite (bind_ret_l _ _ _ _ _ Hchk).
  unfold move_rows. rewrite Hts. simpl negb. cbv iota.
  unfold moved_file_world.
  destruct (find_row dest (entries (w_db w))) as [rd|] eqn:Ed.
  - rewrite (find_row_has_path _ _ _ Ed).
    unfold bind, exec_begin, exec_commit, setLastUpdate, deleteEntry,
      replacePath, sql_delete, sql_rename, write_store, log, get_world, ret,
      bind, with_entries. rewrite Htxn. simpl.
    rewrite has_path_delete_path, andb_false_r. simpl.
    rewrite <- !app_assoc. reflexivity.
  - rewrite (find_row_none_has_path _ _ Ed).
    unfold bind, exec_begin, exec_commit, setLastUpdate, deleteEntry,
      replacePath, sql_delete, sql_rename, write_store, log, get_world, ret,
      bind, with_entries. rewrite Htxn. simpl.
    rewrite (find_row_none_has_path _ _ Ed), andb_false_r. simpl.
    rewrite (delete_path_absent _ _ (find_row_none_has_path _ _ Ed)).
    rewrite <- !app_assoc. reflexivity.
Qed.

(* ================================================================ *)
(** ** [checkDeleteBuild] and [deleteFromIndex] *)

Lemma any_suffix_here (f : string -> bool) (s : string) :
  f s = true -> any_suffix f s = true.
Proof. intros H. destruct s; simpl; rewrite H; reflexivity. Qed.

Lemma any_suffix_cons (f : string -> bool) (x : ascii) (s : string) :
  any_suffix f (String x s) = f (String x s) || any_suffix f s.
Proof. reflexivity. Qed.

Lemma glob_refl (q : string) :
  (forall c, ceq c c = true) -> glob ceq q q = true.
Proof.
  intros Hrefl. induction q as [|c q IH]; [reflexivity|].
  change (glob ceq (String c q) (String c q))
    with (if Ascii.eqb c star then any_suffix (glob ceq q) (String c q)
          else ceq c c && glob ceq q q).
  destruct (Ascii.eqb c star).
  - rewrite any_suffix_cons, (any_suffix_here _ _ IH). apply orb_true_r.
  - rewrite Hrefl, IH. reflexivity.
Qed.

(** A path matches its own sanitized pattern. *)
Lemma like_sanitize_self (p : string) :
  (forall c, ceq c c = true) ->
  like_escaped (sanitize_query_param p) p = true.
Proof. intros H. rewrite like_sanitize. apply glob_refl, H. Qed.

Lemma checkDeleteBuild_spec (hash : string) (w : World) :
  exists w',
    checkDeleteBuild hash w = (Ret tt, w')
    /\ w_fs w' = w_fs w /\ w_db w' = w_db w /\ w_disk w' = w_disk w
    /\ w_txn w' = w_txn w /\ w_time w' = w_time w
    /\ w_builds w' =
       (if is_empty hash then w_builds w else w_builds w ∖ {[ hash ]})
    /\ exists evs, w_trace w' = (w_trace w ++ evs)%list
                   /\ Forall is_removal_event evs.
Proof.
  unfold checkDeleteBuild. destruct (is_empty hash).
  - exists w. repeat split; try reflexivity.
    exists []. rewrite app_nil_r. split; [reflexivity|constructor].
  - unfold bind, get_world. case_bool_decide as Hin; simpl.
    + eexists. repeat split; try reflexivity.
      exists [EvRemoveBuild hash]. split; [reflexivity|].
      repeat constructor.
    + exists w. repeat split; try reflexivity.
      * apply set_eq. intros x.
        rewrite elem_of_difference, elem_of_singleton. split.
        -- intros Hx. split; [exact Hx|]. intros ->. contradiction.
        -- intros [Hx _]. exact Hx.
      * exists []. rewrite app_nil_r. split; [reflexivity|constructor].
Qed.

Lemma delete_loop_spec (callback : RemoveCallback) (matched : list Row)
      (w : World) :
  exists w',
    for_each (fun r =>
                checkDeleteBuild (getText (r_hash r)) ;;
                match callback with
                | Some _ => log (EvRemoveCallback (r_path r))
                | None => ret tt
                end) matched w = (Ret tt, w')
    /\ w_fs w' = w_fs w /\ w_db w' = w_db w /\ w_disk w' = w_disk w
    /\ w_txn w' = w_txn w /\ w_time w' = w_time w
    /\ w_builds w' = w_builds w ∖ list_to_set (build_hashes matched)
    /\ exists evs, w_trace w' = (w_trace w ++ evs)%list
                   /\ Forall is_removal_event evs.
Proof.
  revert w. induction matched as [|r matched IH]; intros w.
  - exists w. repeat split; try reflexivity.
    + simpl. rewrite difference_empty_L. reflexivity.
    + exists []. rewrite app_nil_r. split; [reflexivity|constructor].
  - destruct (checkDeleteBuild_spec (getText (r_hash r)) w)
      as (w1 & E1 & Hfs1 & Hdb1 & Hdisk1 & Htxn1 & Htime1 & Hb1 & evs1 & Ht1 & Hev1).
    assert (exists w2,
      (checkDeleteBuild (getText (r_hash r)) ;;
       match callback with
       | Some _ => log (EvRemoveCallback (r_path r))
       | None => ret tt
       end) w = (Ret tt, w2)
      /\ w_fs w2 = w_fs w /\ w_db w2 = w_db w /\ w_disk w2 = w_disk w
      /\ w_txn w2 = w_txn w /\ w_time w2 = w_time w
      /\ w_builds w2 = w_builds w1
      /\ exists evs, w_trace w2 = (w_trace w ++ evs)%list
                     /\ Forall is_removal_event evs)
      as (w2 & E2 & Hfs2 & Hdb2 & Hdisk2 & Htxn2 & Htime2 & Hb2 & evs2 & Ht2 & Hev2).
    { rewrite (bind_ret_l _ _ _ _ _ E1). destruct callback.
      - eexists. split; [reflexivity|]. simpl.
        repeat split; try assumption.
        exists (evs1 ++ [EvRemoveCallback (r_path r)])%list.
        rewrite Ht1, app_assoc. split; [reflexivity|].
        apply Forall_app. split; [exact Hev1|repeat constructor].
      - exists w1. repeat split; try assumption. eauto. }
    destruct (IH w2)
      as (w3 & E3 & Hfs3 & Hdb3 & Hdisk3 & Htxn3 & Htime3 & Hb3 & evs3 & Ht3 & Hev3).
    exists w3. split.
    { change (for_each ?f (r :: matched)) with (f r ;; for_each f matched).
      rewrite (bind_ret_l _ _ _ _ _ E2). exact E3. }
    repeat split; try congruence.
    + rewrite Hb3, Hb2, Hb1. unfold build_hashes. simpl.
      destruct (is_empty (getText (r_hash r))); simpl; [reflexivity|].
      rewrite difference_difference_l_L. reflexivity.
    + exists (evs2 ++ evs3)%list. rewrite Ht3, Ht2, app_assoc.
      split; [reflexivity|]. apply Forall_app. split; assumption.
Qed.

Lemma filter_negb_none {A} (f : A -> bool) (l : list A) :
  List.filter f l = [] -> List.filter (fun x => negb (f x)) l = l.
Proof.
  induction l as [|x l IH]; simpl; [reflexivity|].
  destruct (f x); simpl; [discriminate|]. intros H. rewrite IH by exact H.
  reflexivity.
Qed.

(** [deleteFromIndex] returns the number of matched rows; it removes the
    build folders of their hashes, then deletes them. *)
Lemma deleteFromIndex_spec (query : string) (isFolder : bool)
      (callback : RemoveCallback) (w : World) :
  let matched := delete_matches query isFolder (entries (w_db w)) in
  let str := delete_pattern query isFolder in
  exists w',
    deleteFromIndex query isFolder callback w
    = (Ret (Z.of_nat (List.length matched)), w')
    /\ w_fs w' = w_fs w /\ w_txn w' = w_txn w /\ w_time w' = w_time w
    /\ entries (w_db w')
       = List.filter (fun r => negb (like_escaped str (r_path r)))
           (entries (w_db w))
    /\ last_edit (w_db w') = last_edit (w_db w)
    /\ w_builds w' = w_builds w ∖ list_to_set (build_hashes matched)
    /\ exists evs,
         Forall is_removal_event evs
         /\ w_trace w' =
            (w_trace w ++ evs
               ++ (if 0 <? Z.of_nat (List.length matched)
                   then [EvDeleteLike str] else []))%list.
Proof.
  intros matched str. unfold deleteFromIndex.
  unfold bind at 1. unfold get_world at 1.
  fold str. change (List.filter (fun r => like_escaped str (r_path r))
                      (entries (w_db w))) with matched.
  destruct (delete_loop_spec callback matched w)
    as (w1 & E1 & Hfs1 & Hdb1 & Hdisk1 & Htxn1 & Htime1 & Hb1 & evs1 & Ht1 & Hev1).
  rewrite (bind_ret_l _ _ _ _ _ E1).
  destruct (0 <? Z.of_nat (List.length matched)) eqn:Hcount.
  - eexists. split; [reflexivity|]. simpl.
    rewrite Hdb1. repeat split; try assumption.
    exists evs1. split; [exact Hev1|]. rewrite Ht1, app_assoc. reflexivity.
  - exists w1. split; [reflexivity|].
    assert (Hnil : matched = []).
    { destruct matched; [reflexivity|]. simpl in Hcount.
      apply Z.ltb_ge in Hcount. lia. }
    rewrite Hdb1. repeat split; try assumption.
    + symmetry. apply filter_negb_none. exact Hnil.
    + exists evs1. split; [exact Hev1|]. rewrite app_nil_r. exact Ht1.
Qed.

(* ================================================================ *)
(** ** [removeFromIndex] *)

Lemma for_each_app {A} (f : A -> M unit) (l1 l2 : list A) (w : World) :
  for_each f (l1 ++ l2) w = (for_each f l1 ;; for_each f l2) w.
Proof.
  revert w. induction l1 as [|x l1 IH]; intros w; simpl; [reflexivity|].
  unfold bind in *. destruct (f x w) as [[[]|e|] w1]; try reflexivity.
  apply IH.
Qed.

Lemma deleteFromIndex_returns (query : string) (isFolder : bool)
      (callback : RemoveCallback) (w : World) :
  exists cnt w',
    deleteFromIndex query isFolder callback w = (Ret cnt, w')
    /\ cnt = Z.of_nat (List.length
                         (delete_matches query isFolder (entries (w_db w))))
    /\ 0 <= cnt.
Proof.
  destruct (deleteFromIndex_spec query isFolder callback w) as (w' & E & _).
  eexists _, w'. split; [exact E|]. split; [reflexivity|lia].
Qed.

Lemma remove_matches_spec (callback : RemoveCallback) (ms : list Entry)
      (tot : Z) (w : World) :
  exists tot' w',
    remove_matches callback ms tot w = (Ret tot', w') /\ tot <= tot'.
Proof.
  revert tot w. induction ms as [|e ms IH]; intros tot w; simpl.
  - exists tot, w. split; [reflexivity|lia].
  - destruct (deleteFromIndex_returns (e_path e) false callback w)
      as (cnt & w1 & E1 & _ & Hcnt).
    rewrite (bind_ret_l _ _ _ _ _ E1).
    destruct (is_directory_type (e_type e)).
    + destruct (deleteFromIndex_returns (e_path e) true callback w1)
        as (cnt' & w2 & E2 & _ & Hcnt').
      rewrite (bind_ret_l _ _ _ _ _ E2).
      destruct (IH (tot + (cnt + cnt')) w2) as (tot' & w3 & E3 & Hle).
      exists tot', w3. split; [exact E3|lia].
    + unfold bind at 1. unfold ret at 1.
      destruct (IH (tot + (cnt + 0)) w1) as (tot' & w3 & E3 & Hle).
      exists tot', w3. split; [exact E3|lia].
Qed.

Lemma filter_in_length {A} (f : A -> bool) (l : list A) (x : A) :
  In x l -> f x = true -> (0 < List.length (List.filter f l))%nat.
Proof.
  intros Hin Hf. assert (In x (List.filter f l)) as H.
  { apply List.filter_In. split; assumption. }
  destruct (List.filter f l); [contradiction|simpl; lia].
Qed.

(** The first matched entry is still in the table and matches its own
    pattern, so something is counted. *)
Lemma remove_matches_positive (callback : RemoveCallback) (r : Row)
      (ms : list Entry) (w : World) :
  (forall c, ceq c c = true) ->
  In r (entries (w_db w)) ->
  exists tot' w',
    remove_matches callback (entry_of_row r :: ms) 0 w = (Ret tot', w')
    /\ 0 < tot'.
Proof.
  intros Hrefl Hin. simpl.
  destruct (deleteFromIndex_returns (r_path r) false callback w)
    as (cnt & w1 & E1 & Hcnt & _).
  rewrite (bind_ret_l _ _ _ _ _ E1).
  assert (Hpos : 0 < cnt).
  { rewrite Hcnt. apply Nat2Z.inj_lt with (n := 0%nat).
    apply filter_in_length with (x := r); [exact Hin|].
    apply like_sanitize_self, Hrefl. }
  destruct (is_directory_type (r_type r)).
  - destruct (deleteFromIndex_returns (r_path r) true callback w1)
      as (cnt' & w2 & E2 & _ & Hcnt').
    rewrite (bind_ret_l _ _ _ _ _ E2).
    destruct (remove_matches_spec callback ms (0 + (cnt + cnt')) w2)
      as (tot' & w3 & E3 & Hle).
    exists tot', w3. split; [exact E3|lia].
  - unfold bind at 1. unfold ret at 1.
    destruct (remove_matches_spec callback ms (0 + (cnt + 0)) w1)
      as (tot' & w3 & E3 & Hle).
    exists tot', w3. split; [exact E3|lia].
Qed.

Lemma getMatchingEntries_default (p : string) (w : World) :
  getMatchingEntries (relativeTo p) 0 false w
  = (Ret (List.map entry_of_row (remove_matches_of p (entries (w_db w)))), w).
Proof.
  unfold getMatchingEntries, remove_matches_of. simpl.
  unfold bind, get_world, ret. do 3 f_equal.
  apply List.filter_ext. intros r. apply andb_true_r.
Qed.

(** One input path: an error exactly when nothing matches it. *)
Lemma remove_path_spec (callback : RemoveCallback) (p : string) (w : World) :
  (forall c, ceq c c = true) ->
  (remove_matches_of p (entries (w_db w)) = []
   /\ remove_path callback p w
      = (Throw (FSException "No matching entries"), w))
  \/ (remove_matches_of p (entries (w_db w)) <> []
      /\ exists w', remove_path callback p w = (Ret tt, w')).
Proof.
  intros Hrefl. unfold remove_path.
  rewrite (bind_ret_l _ _ _ _ _ (getMatchingEntries_default p w)).
  destruct (remove_matches_of p (entries (w_db w))) as [|r ms] eqn:Em.
  - left. split; reflexivity.
  - right. split; [discriminate|].
    assert (Hin : In r (entries (w_db w))).
    { assert (In r (remove_matches_of p (entries (w_db w)))) as H
        by (rewrite Em; left; reflexivity).
      apply List.filter_In in H. apply H. }
    change (List.map entry_of_row (r :: ms))
      with (entry_of_row r :: List.map entry_of_row ms).
    destruct (remove_matches_positive callback r (List.map entry_of_row ms)
                w Hrefl Hin) as (tot' & w' & E & Hpos).
    rewrite (bind_ret_l _ _ _ _ _ E).
    destruct (Z.eqb_spec tot' 0); [lia|].
    exists w'. reflexivity.
Qed.

Lemma remove_loop_spec (callback : RemoveCallback) (paths : list string)
      (w : World) :
  (forall c, ceq c c = true) ->
  (unmatched_input callback paths w
   /\ exists w', for_each (remove_path callback) paths w
                 = (Throw (FSException "No matching entries"), w'))
  \/ (~ unmatched_input callback paths w
      /\ exists w', for_each (remove_path callback) paths w = (Ret tt, w')).
Proof.
  intros Hrefl. revert w. induction paths as [|p paths IH]; intros w.
  - right. split.
    + intros (pre & q & post & w1 & Hp & _). destruct pre; discriminate.
    + exists w. reflexivity.
  - destruct (remove_path_spec callback p w Hrefl)
      as [[Hnone E]|[Hsome [w1 E]]].
    + left. split.
      * exists [], p, paths, w. split; [reflexivity|].
        split; [reflexivity|exact Hnone].
      * exists w. simpl. rewrite (bind_throw_l _ _ _ _ _ E). reflexivity.
    + destruct (IH w1) as [[Hun [w' E']]|[Hun [w' E']]].
      * left. split.
        -- destruct Hun as (pre & q & post & w2 & Hp & Hpre & Hq).
           exists (p :: pre), q, post, w2. split; [|split].
           ++ rewrite Hp. reflexivity.
           ++ simpl. rewrite (bind_ret_l _ _ _ _ _ E). exact Hpre.
           ++ exact Hq.
        -- exists w'. simpl. rewrite (bind_ret_l _ _ _ _ _ E). exact E'.
      * right. split.
        -- intros (pre & q & post & w2 & Hp & Hpre & Hq).
           destruct pre as [|p0 pre].
           ++ simpl in Hp, Hpre. injection Hp as <- <-.
              injection Hpre as <-. contradiction.
           ++ simpl in Hp. injection Hp as <- ->.
              simpl in Hpre. rewrite (bind_ret_l _ _ _ _ _ E) in Hpre.
              apply Hun. exists pre, q, post, w2.
              split; [reflexivity|]. split; assumption.
        -- exists w'. simpl. rewrite (bind_ret_l _ _ _ _ _ E). exact E'.
Qed.

Lemma setLastUpdate_eq (w : World) :
  exists w', setLastUpdate w = (Ret tt, w').
Proof. eexists. reflexivity. Qed.

(* ================================================================ *)
(** ** [syncIndex] on rows that did not change on disk *)

Lemma only_trace_refl (P : Event -> Prop) (w : World) : only_trace P w w.
Proof.
  unfold only_trace. repeat split; try reflexivity.
  exists []. rewrite app_nil_r. split; [reflexivity|constructor].
Qed.

Lemma only_trace_trans (P : Event -> Prop) (w1 w2 w3 : World) :
  only_trace P w1 w2 -> only_trace P w2 w3 -> only_trace P w1 w3.
Proof.
  intros (F1 & B1 & D1 & K1 & T1 & C1 & evs1 & E1 & H1)
         (F2 & B2 & D2 & K2 & T2 & C2 & evs2 & E2 & H2).
  unfold only_trace. repeat split; try congruence.
  exists (evs1 ++ evs2)%list. rewrite E2, E1, app_assoc.
  split; [reflexivity|]. apply Forall_app. split; assumption.
Qed.

Lemma only_trace_event (P : Event -> Prop) (ev : Event) (w : World) :
  P ev -> only_trace P w (add_event ev w).
Proof.
  intros H. unfold only_trace, add_event. simpl.
  repeat split; try reflexivity.
  exists [ev]. split; [reflexivity|]. repeat constructor. exact H.
Qed.

Lemma checkUpdate_status (e : Entry) (p : string) (m : Z) (h : string)
      (w : World) :
  exists e' w',
    checkUpdate e p m h w = (Ret (file_status (w_fs w) p m h, e'), w')
    /\ only_trace is_quiet_event w w'.
Proof.
  unfold file_status.
  destruct (w_fs w p) as [[dm|mtime size content]|] eqn:Hfs.
  - exists e, w. rewrite (checkUpdate_directory _ _ _ _ _ _ Hfs).
    split; [reflexivity|apply only_trace_refl].
  - destruct (Z.eqb_spec mtime m) as [->|Hne].
    + eexists _, w. rewrite (checkUpdate_same_mtime _ _ _ _ _ _ _ Hfs).
      split; [reflexivity|apply only_trace_refl].
    + eexists _, _. rewrite (checkUpdate_other_mtime _ _ _ _ _ _ _ _ Hfs Hne).
      split; [reflexivity|]. apply only_trace_event. exact I.
  - exists e, w. rewrite (checkUpdate_missing _ _ _ _ _ Hfs).
    split; [reflexivity|apply only_trace_refl].
Qed.

Lemma sync_row_clean (r : Row) (w : World) :
  row_clean (w_fs w) r ->
  exists w', sync_row r w = (Ret false, w')
             /\ only_trace is_quiet_event w w'.
Proof.
  intros Hclean. unfold sync_row.
  destruct (checkUpdate_status new_entry (rootJoin (r_path r)) (r_mtime r)
              (getText (r_hash r)) w) as (e' & w' & E & Hw).
  rewrite (bind_ret_l _ _ _ _ _ E). simpl.
  unfold row_clean, row_status in Hclean. rewrite Hclean.
  exists w'. split; [reflexivity|exact Hw].
Qed.

Lemma sync_loop_clean (rows : list Row) (changed : bool) (w : World) :
  Forall (row_clean (w_fs w)) rows ->
  exists w', sync_loop rows changed w = (Ret changed, w')
             /\ only_trace is_quiet_event w w'.
Proof.
  revert changed w. induction rows as [|r rows IH]; intros changed w Hall.
  - exists w. split; [reflexivity|apply only_trace_refl].
  - apply Forall_cons in Hall as [Hr Hrows].
    destruct (sync_row_clean r w Hr) as (w1 & E1 & Hw1).
    simpl. rewrite (bind_ret_l _ _ _ _ _ E1).
    assert (Hfs : w_fs w1 = w_fs w) by apply Hw1.
    rewrite <- Hfs in Hrows.
    destruct (IH (false || changed) w1 Hrows) as (w2 & E2 & Hw2).
    exists w2. split; [exact E2|].
    eapply only_trace_trans; eassumption.
Qed.

(** On an index whose rows are all unchanged on disk, [syncIndex] changes
    no row and leaves the last-edit timestamp alone. *)
Lemma syncIndex_clean (w : World) :
  w_txn w = false ->
  Forall (row_clean (w_fs w)) (entries (w_db w)) ->
  exists w',
    syncIndex w = (Ret tt, w')
    /\ w_fs w' = w_fs w /\ w_db w' = w_db w /\ w_disk w' = w_db w
    /\ w_builds w' = w_builds w /\ w_txn w' = false
    /\ exists evs, w_trace w' = (w_trace w ++ evs)%list
                   /\ Forall is_quiet_event evs.
Proof.
  intros Htxn Hall. unfold syncIndex.
  unfold bind at 1. unfold get_world at 1.
  unfold bind at 1. unfold exec_begin at 1. rewrite Htxn.
  set (w0 := mkWorld _ _ _ _ true _ _).
  destruct (sync_loop_clean (entries (w_db w)) false w0 Hall)
    as (w1 & E1 & F1 & B1 & D1 & K1 & T1 & C1 & evs & Ev & Hev).
  rewrite (bind_ret_l _ _ _ _ _ E1).
  unfold bind at 1. unfold exec_commit at 1. rewrite T1. simpl.
  unfold ret. eexists. split; [reflexivity|]. simpl.
  repeat split; try assumption.
  exists ([EvBegin] ++ evs ++ [EvCommit])%list. split.
  - rewrite Ev. simpl. rewrite <- !app_assoc. reflexivity.
  - apply Forall_app. split; [repeat constructor|].
    apply Forall_app. split; [exact Hev|repeat constructor].
Qed.

(* ================================================================ *)
(** ** [parseEntry] and the loop of [addToIndex] *)

Lemma parseEntry_missing (p : string) (e : Entry) (w : World) :
  w_fs w p = None ->
  parseEntry p e w = (Throw (FSException "Path does not exist"), w).
Proof.
  intros H. unfold parseEntry, bind, get_world. rewrite H. reflexivity.
Qed.

Lemma parseEntry_found (p : string) (e : Entry) (w : World) (node : Node) :
  w_fs w p = Some node ->
  parseEntry p e w
  = (Ret (parsed_entry p node),
     match node with
     | NDir _ => w
     | NFile _ _ _ => add_event (EvHash p) w
     end).
Proof.
  intros H. unfold parseEntry, bind, get_world. rewrite H.
  destruct node; reflexivity.
Qed.

Lemma parsed_entry_path (p : string) (node : Node) :
  e_path (parsed_entry p node) = relativeTo p.
Proof. destruct node; reflexivity. Qed.

Lemma add_frame_refl (w : World) : w_txn w = true -> add_frame w w.
Proof. intros H. unfold add_frame. repeat split; try reflexivity. exact H. Qed.

Lemma add_frame_trans (w1 w2 w3 : World) :
  add_frame w1 w2 -> add_frame w2 w3 -> add_frame w1 w3.
Proof.
  unfold add_frame. intros (?&?&?&?&?&?) (?&?&?&?&?&?).
  repeat split; congruence.
Qed.

Lemma sql_insert_ok (r : Row) (w : World) :
  has_path (r_path r) (entries (w_db w)) = false ->
  sql_insert r w
  = (Ret tt,
     add_event (EvInsert (r_path r))
       (set_entries (entries (w_db w) ++ [r]) w)).
Proof.
  intros H. unfold sql_insert, bind, get_world. rewrite H. reflexivity.
Qed.

Lemma sql_insert_dup (r : Row) (w : World) :
  has_path (r_path r) (entries (w_db w)) = true ->
  sql_insert r w
  = (Throw (SQLException "UNIQUE constraint failed: entries.path"), w).
Proof.
  intros H. unfold sql_insert, bind, get_world. rewrite H. reflexivity.
Qed.

Lemma doUpdate_eq (e : Entry) (w : World) :
  doUpdate e w
  = (Ret tt,
     add_event (EvUpdate (e_path e))
       (set_entries (update_path e (entries (w_db w))) w)).
Proof. reflexivity. Qed.

Lemma sql_delete_eq (p : string) (w : World) :
  sql_delete p w
  = (Ret tt,
     add_event (EvDelete p) (set_entries (delete_path p (entries (w_db w))) w)).
Proof. reflexivity. Qed.


(** One path of [addToIndex], inside the transaction: the path is skipped,
    or its row is found unchanged, or it cannot be parsed, or its row is
    updated or inserted and the callback is asked. *)
Lemma add_path_spec (callback : AddCallback) (p : string) (w w' : World)
      (o : Outcome bool) :
  w_txn w = true ->
  add_path callback p w = (o, w') ->
  let rows := entries (w_db w) in
  let rel := relativeTo p in
  add_frame w w'
  /\ ((indexed p = false /\ o = Ret true /\ w' = w)
      \/ (indexed p = true
          /\ exists r0, find_row rel rows = Some r0
             /\ file_status (w_fs w) p (r_mtime r0) (getText (r_hash r0))
                = NotModified
             /\ o = Ret true /\ entries (w_db w') = rows)
      \/ (indexed p = true /\ w_fs w p = None
          /\ (exists e, o = Throw e) /\ entries (w_db w') = rows)
      \/ (indexed p = true
          /\ exists node, w_fs w p = Some node
             /\ ((exists r0, find_row rel rows = Some r0
                  /\ file_status (w_fs w) p (r_mtime r0) (getText (r_hash r0))
                     <> NotModified
                  /\ entries (w_db w') = update_path (parsed_entry p node) rows
                  /\ o = Ret (call_add callback (parsed_entry p node) true))
                 \/ (find_row rel rows = None
                     /\ entries (w_db w')
                        = (rows ++ [row_of_entry (parsed_entry p node)])%list
                     /\ o = Ret (call_add callback (parsed_entry p node)
                                          false))))).
Proof.
  intros Htxn Hrun rows rel. unfold add_path in Hrun. unfold indexed.
  destruct (has_filename p && string_mem backslash (filename p)).
  { injection Hrun as <- <-. split; [apply add_frame_refl, Htxn|].
    left. repeat split; reflexivity. }
  simpl negb.
  unfold bind at 1 in Hrun. unfold get_world at 1 in Hrun.
  fold rows rel in Hrun.
  destruct (find_row rel rows) as [r0|] eqn:Hfind.
  - (* the row exists *)
    destruct (checkUpdate_status new_entry p (r_mtime r0) (getText (r_hash r0))
                w) as (e1 & w1 & E1 & F1 & B1 & D1 & K1 & T1 & C1 & _).
    unfold bind at 1 in Hrun. rewrite (bind_ret_l _ _ _ _ _ E1) in Hrun.
    unfold ret at 1 in Hrun. simpl fst in Hrun. simpl snd in Hrun.
    destruct (file_status (w_fs w) p (r_mtime r0) (getText (r_hash r0)))
      eqn:Hst.
    + (* NotModified *)
      simpl in Hrun. injection Hrun as <- <-.
      split.
      { unfold add_frame. rewrite D1. repeat split; congruence. }
      right. left. split; [reflexivity|]. exists r0.
      split; [reflexivity|]. split; [exact Hst|]. split; [reflexivity|].
      rewrite D1. reflexivity.
    + (* Modified *)
      simpl in Hrun.
      destruct (w_fs w p) as [node|] eqn:Hfs.
      2:{ unfold file_status in Hst. rewrite Hfs in Hst. discriminate. }
      rewrite <- F1 in Hfs.
      rewrite (bind_ret_l _ _ _ _ _ (parseEntry_found p e1 w1 node Hfs))
        in Hrun.
      assert (Htxn1 : w_txn w1 = true) by congruence.
      set (w2 := match node with
                 | NDir _ => w1
                 | NFile _ _ _ => add_event (EvHash p) w1
                 end) in Hrun.
      assert (Hw2 : w_txn w2 = true /\ w_db w2 = w_db w /\ w_fs w2 = w_fs w
                    /\ w_builds w2 = w_builds w /\ w_disk w2 = w_disk w
                    /\ w_time w2 = w_time w).
      { subst w2. destruct node; simpl; repeat split; congruence. }
      destruct Hw2 as (T2 & D2 & F2 & B2 & K2 & C2).
      rewrite (bind_ret_l _ _ _ _ _ (doUpdate_eq _ w2)) in Hrun.
      assert (Hres : o = Ret (call_add callback (parsed_entry p node) true)
                     /\ w_fs w' = w_fs w /\ w_builds w' = w_builds w
                     /\ w_txn w' = true /\ w_disk w' = w_disk w
                     /\ w_time w' = w_time w
                     /\ w_db w' = mkStore (update_path (parsed_entry p node)
                                             (entries (w_db w)))
                                          (last_edit (w_db w))).
      { destruct callback; injection Hrun as <- <-; simpl;
          rewrite T2, D2; repeat split; assumption. }
      destruct Hres as (Ho & F3 & B3 & T3 & K3 & C3 & D3).
      split.
      { unfold add_frame. rewrite D3. repeat split; assumption. }
      right. right. right. split; [reflexivity|]. exists node.
      split; [congruence|]. left. exists r0.
      split; [reflexivity|]. split; [rewrite Hst; discriminate|].
      rewrite D3. split; [reflexivity|exact Ho].
    + (* Deleted *)
      simpl in Hrun.
      assert (Hfs : w_fs w1 p = None).
      { rewrite F1. unfold file_status in Hst.
        destruct (w_fs w p) as [[|m s c]|]; [discriminate| |reflexivity].
        destruct (m =? r_mtime r0); [discriminate|].
        destruct (String.eqb _ _); discriminate. }
      rewrite (bind_throw_l _ _ _ _ _ (parseEntry_missing p e1 w1 Hfs))
        in Hrun.
      injection Hrun as <- <-.
      split.
      { unfold add_frame. rewrite D1. repeat split; congruence. }
      right. right. left. split; [reflexivity|].
      split; [congruence|]. split; [eauto|]. rewrite D1. reflexivity.
  - (* a new path *)
    unfold bind at 1 in Hrun. unfold ret at 1 in Hrun. simpl in Hrun.
    destruct (w_fs w p) as [node|] eqn:Hfs.
    + rewrite (bind_ret_l _ _ _ _ _ (parseEntry_found p new_entry w node Hfs))
        in Hrun.
      set (w2 := match node with
                 | NDir _ => w
                 | NFile _ _ _ => add_event (EvHash p) w
                 end) in Hrun.
      assert (Hw2 : w_txn w2 = true /\ w_db w2 = w_db w /\ w_fs w2 = w_fs w
                    /\ w_builds w2 = w_builds w /\ w_disk w2 = w_disk w
                    /\ w_time w2 = w_time w).
      { subst w2. destruct node; simpl; repeat split; congruence. }
      destruct Hw2 as (T2 & D2 & F2 & B2 & K2 & C2).
      assert (Hhas : has_path (r_path (row_of_entry (parsed_entry p node)))
                       (entries (w_db w2)) = false).
      { rewrite D2. simpl r_path. rewrite parsed_entry_path.
        apply find_row_none_has_path, Hfind. }
      rewrite (bind_ret_l _ _ _ _ _ (sql_insert_ok _ w2 Hhas)) in Hrun.
      assert (Hres : o = Ret (call_add callback (parsed_entry p node) false)
                     /\ w_fs w' = w_fs w /\ w_builds w' = w_builds w
                     /\ w_txn w' = true /\ w_disk w' = w_disk w
                     /\ w_time w' = w_time w
                     /\ w_db w'
                        = mkStore (entries (w_db w)
                                     ++ [row_of_entry (parsed_entry p node)])
                                  (last_edit (w_db w))).
      { destruct callback; injection Hrun as <- <-; simpl;
          rewrite T2, D2; repeat split; assumption. }
      destruct Hres as (Ho & F3 & B3 & T3 & K3 & C3 & D3).
      split.
      { unfold add_frame. rewrite D3. repeat split; assumption. }
      right. right. right. split; [reflexivity|]. exists node.
      split; [reflexivity|]. right. split; [reflexivity|].
      rewrite D3. split; [reflexivity|exact Ho].
    + rewrite (bind_throw_l _ _ _ _ _ (parseEntry_missing p new_entry w Hfs))
        in Hrun.
      injection Hrun as <- <-.
      split; [apply add_frame_refl, Htxn|].
      right. right. left. repeat split; eauto.
Qed.

(* ================================================================ *)
(** ** [addToIndex] followed by [syncIndex] *)

Lemma find_row_some (p : string) (rows : list Row) (r : Row) :
  find_row p rows = Some r -> In r rows /\ r_path r = p.
Proof.
  unfold find_row. intros H. apply List.find_some in H as [Hin Heq].
  split; [exact Hin|]. apply String.eqb_eq, Heq.
Qed.

Lemma has_path_in (p : string) (rows : list Row) :
  has_path p rows = true <-> In p (List.map r_path rows).
Proof.
  unfold has_path. rewrite List.existsb_exists, List.in_map_iff. split.
  - intros [r [Hin Heq]]. exists r. split; [|exact Hin].
    apply String.eqb_eq, Heq.
  - intros [r [Heq Hin]]. exists r. split; [exact Hin|].
    apply String.eqb_eq, Heq.
Qed.

Lemma has_path_not_in (p : string) (rows : list Row) :
  has_path p rows = false <-> ~ In p (List.map r_path rows).
Proof.
  rewrite <- has_path_in. destruct (has_path p rows); split; congruence.
Qed.

(** The path is the key: two rows with the same path are the same row. *)
Lemma nodup_paths_unique (rows : list Row) (r r' : Row) :
  List.NoDup (List.map r_path rows) ->
  In r rows -> In r' rows -> r_path r = r_path r' -> r = r'.
Proof.
  induction rows as [|x rows IH]; simpl; [contradiction|].
  intros Hnd Hr Hr' Heq. apply List.NoDup_cons_iff in Hnd as [Hx Hnd].
  destruct Hr as [->|Hr], Hr' as [->|Hr'].
  - reflexivity.
  - exfalso. apply Hx. rewrite Heq. apply List.in_map, Hr'.
  - exfalso. apply Hx. rewrite <- Heq. apply List.in_map, Hr.
  - apply IH; assumption.
Qed.

Lemma file_status_same_node (fs : FS) (p q : string) (m : Z) (h : string) :
  fs q = fs p -> file_status fs q m h = file_status fs p m h.
Proof. intros H. unfold file_status. rewrite H. reflexivity. Qed.

(** A row written from a fresh parse is unchanged on disk. *)
Lemma row_clean_parsed (fs : FS) (p : string) (node : Node) :
  fs (rootJoin (relativeTo p)) = fs p ->
  fs p = Some node ->
  row_clean fs (row_of_entry (parsed_entry p node)).
Proof.
  intros Hjoin Hfs. unfold row_clean, row_status.
  simpl r_path. rewrite parsed_entry_path.
  rewrite (file_status_same_node _ _ _ _ _ Hjoin).
  unfold file_status. rewrite Hfs.
  destruct node as [m|m s c]; [reflexivity|].
  simpl. rewrite Z.eqb_refl. reflexivity.
Qed.

Lemma update_path_paths (e : Entry) (rows : list Row) :
  List.map r_path (update_path e rows) = List.map r_path rows.
Proof.
  unfold update_path. induction rows as [|r rows IH]; simpl; [reflexivity|].
  rewrite IH. f_equal.
  destruct (String.eqb_spec (r_path r) (e_path e)) as [->|]; reflexivity.
Qed.

Lemma update_path_in (e : Entry) (rows : list Row) (r' : Row) :
  In r' (update_path e rows) ->
  r' = row_of_entry e \/ (In r' rows /\ r_path r' <> e_path e).
Proof.
  unfold update_path. rewrite List.in_map_iff. intros [r [Heq Hin]].
  destruct (String.eqb_spec (r_path r) (e_path e)) as [E|E].
  - left. congruence.
  - right. subst r'. split; assumption.
Qed.

Lemma examined_paths_cons (p : string) (rest : list string) :
  examined_paths (p :: rest)
  = if indexed p then relativeTo p :: examined_paths rest
    else examined_paths rest.
Proof. unfold examined_paths. simpl. destruct (indexed p); reflexivity. Qed.

Lemma call_add_never_cancels (callback : AddCallback) (e : Entry) (b : bool) :
  never_cancels callback -> call_add callback e b = true.
Proof. destruct callback; simpl; auto. Qed.

Lemma add_path_keeps_inv (callback : AddCallback) (fs0 : FS) (p : string)
      (rest : list string) (w w' : World) (b : bool) :
  fs0 (rootJoin (relativeTo p)) = fs0 p ->
  never_cancels callback ->
  add_inv fs0 (p :: rest) w ->
  add_path callback p w = (Ret b, w') ->
  b = true /\ add_inv fs0 rest w'.
Proof.
  clear hasDotNotation getIndexPathList.
  intros Hjoin Hnc (Hfs & Htxn & Hnd & Hrows) Hrun.
  destruct (add_path_spec callback p w w' (Ret b) Htxn Hrun)
    as [(F & B & T & K & C & L) Hcase].
  rewrite examined_paths_cons in Hrows.
  assert (Hfs' : w_fs w' = fs0) by congruence.
  destruct Hcase as [(Hidx & Ho & ->)
                    |[(Hidx & r0 & Hfind & Hst & Ho & Hent)
                    |[(Hidx & Hnone & [e He] & Hent)
                    |(Hidx & node & Hnode & Hcase)]]].
  - (* skipped *)
    rewrite Hidx in Hrows. split; [congruence|].
    repeat split; assumption.
  - (* found unchanged *)
    rewrite Hidx in Hrows. split; [congruence|].
    unfold add_inv. rewrite Hent. repeat split; try assumption.
    intros r Hr. destruct (Hrows r Hr) as [Hc|[Hp|Hp]]; auto.
    left. apply find_row_some in Hfind as [Hin0 Hp0].
    assert (r = r0) as ->.
    { apply (nodup_paths_unique _ _ _ Hnd Hr Hin0). congruence. }
    unfold row_clean, row_status. rewrite Hp0.
    rewrite (file_status_same_node _ _ _ _ _ Hjoin). congruence.
  - discriminate.
  - rewrite Hidx in Hrows. rewrite Hfs in Hnode.
    destruct Hcase as [(r0 & Hfind & Hst & Hent & Ho)
                      |(Hfind & Hent & Ho)].
    + (* updated *)
      split.
      { injection Ho as ->. apply call_add_never_cancels, Hnc. }
      unfold add_inv. rewrite Hent, update_path_paths.
      repeat split; try assumption.
      intros r Hr. apply update_path_in in Hr as [->|[Hr Hne]].
      * left. apply row_clean_parsed; assumption.
      * rewrite parsed_entry_path in Hne.
        destruct (Hrows r Hr) as [Hc|[Hp|Hp]]; auto. congruence.
    + (* inserted *)
      split.
      { injection Ho as ->. apply call_add_never_cancels, Hnc. }
      unfold add_inv. rewrite Hent. repeat split; try assumption.
      * rewrite List.map_app. simpl.
        apply List.NoDup_app; [exact Hnd| |].
        { apply List.NoDup_cons; [simpl; tauto|apply List.NoDup_nil]. }
        intros q Hq [<-|[]]. rewrite parsed_entry_path in Hq.
        apply find_row_none_has_path, has_path_not_in in Hfind.
        contradiction.
      * intros r Hr. apply List.in_app_iff in Hr as [Hr|[<-|[]]].
        -- destruct (Hrows r Hr) as [Hc|[Hp|Hp]]; auto.
           exfalso.
           apply find_row_none_has_path, has_path_not_in in Hfind.
           apply Hfind. rewrite Hp. apply List.in_map, Hr.
        -- left. apply row_clean_parsed; assumption.
Qed.

Lemma add_loop_keeps_inv (callback : AddCallback) (fs0 : FS)
      (pathList : list string) (w w' : World) (b : bool) :
  (forall p, In p pathList -> fs0 (rootJoin (relativeTo p)) = fs0 p) ->
  never_cancels callback ->
  add_inv fs0 pathList w ->
  add_loop callback pathList w = (Ret b, w') ->
  b = true /\ add_inv fs0 [] w'.
Proof.
  intros Hjoin Hnc. revert w.
  induction pathList as [|p rest IH]; intros w Hinv Hrun.
  - injection Hrun as <- <-. split; [reflexivity|exact Hinv].
  - simpl in Hrun. apply bind_inv in Hrun
      as [(c & w1 & E1 & Hrun)|[(e & _ & He)|[_ He]]]; try discriminate.
    destruct (add_path_keeps_inv callback fs0 p rest w w1 c) as [-> Hinv1];
      try assumption.
    { apply Hjoin. left. reflexivity. }
    apply (IH (fun q Hq => Hjoin q (or_intror Hq)) w1 Hinv1 Hrun).
Qed.

(** After an [addToIndex] that ran to its end, every row is unchanged on
    disk, provided the rows it did not examine were so before. *)
Lemma addToIndex_leaves_clean (paths : list string) (callback : AddCallback)
      (w w1 : World) :
  w_txn w = false ->
  List.NoDup (List.map r_path (entries (w_db w))) ->
  never_cancels callback ->
  (forall p, In p (listed (w_fs w) paths) ->
             w_fs w (rootJoin (relativeTo p)) = w_fs w p) ->
  (forall r, In r (entries (w_db w)) ->
             row_clean (w_fs w) r
             \/ In (r_path r) (examined_paths (listed (w_fs w) paths))) ->
  addToIndex paths callback w = (Ret tt, w1) ->
  w_fs w1 = w_fs w /\ w_txn w1 = false
  /\ Forall (row_clean (w_fs w1)) (entries (w_db w1)).
Proof.
  intros Htxn Hnd Hnc Hjoin Hrows Hrun. unfold addToIndex in Hrun.
  destruct paths as [|p0 paths].
  { injection Hrun as <-. split; [reflexivity|]. split; [exact Htxn|].
    apply List.Forall_forall. intros r Hr.
    destruct (Hrows r Hr) as [Hc|[]]. exact Hc. }
  unfold bind at 1 in Hrun. unfold get_world at 1 in Hrun.
  unfold listed in Hjoin, Hrows.
  destruct (getIndexPathList (w_fs w) (p0 :: paths)) as [ex|pathList];
    [discriminate|].
  unfold bind at 1 in Hrun. unfold exec_begin at 1 in Hrun.
  rewrite Htxn in Hrun.
  set (w0 := mkWorld _ _ _ _ true _ _) in Hrun.
  apply bind_inv in Hrun
    as [(b & w2 & E2 & Hrun)|[(e & _ & He)|[_ He]]]; try discriminate.
  assert (Hinv0 : add_inv (w_fs w) pathList w0).
  { unfold add_inv. simpl. repeat split; try reflexivity; assumption. }
  destruct (add_loop_keeps_inv callback (w_fs w) pathList w0 w2 b
              Hjoin Hnc Hinv0 E2) as [-> (F2 & T2 & N2 & R2)].
  unfold bind at 1 in Hrun. unfold exec_commit at 1 in Hrun.
  rewrite T2 in Hrun. injection Hrun as <-. simpl.
  split; [exact F2|]. split; [reflexivity|].
  apply List.Forall_forall. intros r Hr. rewrite F2.
  destruct (R2 r Hr) as [Hc|[]]. exact Hc.
Qed.

(* ================================================================ *)
(** ** Directory rows: an invariant of every operation *)

Lemma keeps_ret (I : World -> Prop) {A} (a : A) (R : A -> Prop) :
  R a -> keeps I (ret a) R.
Proof. intros Ha w Hw. split; [exact Hw|]. intros b [= <-]. exact Ha. Qed.

Lemma keeps_throw (I : World -> Prop) {A} (e : Exn) (R : A -> Prop) :
  keeps I (@throw A e) R.
Proof. intros w Hw. split; [exact Hw|]. intros b [=]. Qed.

Lemma keeps_undefined (I : World -> Prop) {A} (R : A -> Prop) :
  keeps I (@undefined A) R.
Proof. intros w Hw. split; [exact Hw|]. intros b [=]. Qed.

Lemma keeps_bind (I : World -> Prop) {A B} (m : M A) (k : A -> M B)
      (R : A -> Prop) (R' : B -> Prop) :
  keeps I m R -> (forall a, R a -> keeps I (k a) R') ->
  keeps I (bind m k) R'.
Proof.
  intros Hm Hk w Hw. unfold bind. destruct (Hm w Hw) as [Hi Hr].
  destruct (m w) as [[a|e|] w1]; simpl in *.
  - apply (Hk a (Hr a eq_refl) w1 Hi).
  - split; [exact Hi|]. intros b [=].
  - split; [exact Hi|]. intros b [=].
Qed.

Lemma keeps_weaken (I : World -> Prop) {A} (m : M A) (R R' : A -> Prop) :
  keeps I m R -> (forall a, R a -> R' a) -> keeps I m R'.
Proof.
  intros Hm HR w Hw. destruct (Hm w Hw) as [Hi Hr].
  split; [exact Hi|]. intros a Ha. apply HR, Hr, Ha.
Qed.

Lemma keeps_get_world (I : World -> Prop) : keeps I get_world I.
Proof. intros w Hw. split; [exact Hw|]. intros a [= <-]. exact Hw. Qed.

Lemma keeps_moved_path (I : World -> Prop) (source dest path : string) :
  keeps I (moved_path source dest path) whatever.
Proof.
  unfold moved_path, substr.
  apply keeps_bind with (R := whatever).
  - destruct (_ <? _)%nat; [apply keeps_throw|apply keeps_ret; exact Logic.I].
  - intros rest _. apply keeps_ret. exact Logic.I.
Qed.

Lemma keeps_for_each (I : World -> Prop) {A} (f : A -> M unit)
      (l : list A) :
  (forall a, In a l -> keeps I (f a) whatever) ->
  keeps I (for_each f l) whatever.
Proof.
  induction l as [|x l IH]; intros Hf; simpl.
  - apply keeps_ret. exact Logic.I.
  - apply keeps_bind with (R := whatever).
    + apply Hf. left. reflexivity.
    + intros _ _. apply IH. intros a Ha. apply Hf. right. exact Ha.
Qed.

Lemma ok_log (ev : Event) : keeps world_ok (log ev) whatever.
Proof. intros w Hw. split; [exact Hw|]. intros; exact Logic.I. Qed.

Lemma ok_write_store (f : Store -> Store) :
  (forall s, store_ok s -> store_ok (f s)) ->
  keeps world_ok (write_store f) whatever.
Proof.
  intros Hf w [Hdb Hdisk]. split; [|intros; exact Logic.I].
  unfold write_store, world_ok. simpl. split; [apply Hf, Hdb|].
  destruct (w_txn w); [exact Hdisk|apply Hf, Hdb].
Qed.

Lemma ok_exec_begin : keeps world_ok exec_begin whatever.
Proof.
  intros w Hw. split; [|intros; exact Logic.I].
  unfold exec_begin. destruct (w_txn w); exact Hw.
Qed.

Lemma ok_exec_commit : keeps world_ok exec_commit whatever.
Proof.
  intros w [Hdb Hdisk]. split; [|intros; exact Logic.I].
  unfold exec_commit. destruct (w_txn w); split; assumption.
Qed.

Lemma ok_setLastUpdate : keeps world_ok setLastUpdate whatever.
Proof.
  unfold setLastUpdate.
  apply keeps_bind with (R := world_ok); [apply keeps_get_world|].
  intros w _. apply keeps_bind with (R := whatever); [|intros; apply ok_log].
  apply ok_write_store. intros s Hs. exact Hs.
Qed.

Lemma ok_sql_insert (r : Row) :
  dir_shape r -> keeps world_ok (sql_insert r) whatever.
Proof.
  intros Hr. unfold sql_insert.
  apply keeps_bind with (R := world_ok); [apply keeps_get_world|].
  intros w _. destruct (has_path _ _); [apply keeps_throw|].
  apply keeps_bind with (R := whatever); [|intros; apply ok_log].
  apply ok_write_store. intros s Hs. unfold store_ok, with_entries. simpl.
  apply Forall_app. split; [exact Hs|].
  apply List.Forall_cons; [exact Hr|apply List.Forall_nil].
Qed.

Lemma ok_doUpdate (e : Entry) :
  dir_shape (row_of_entry e) -> keeps world_ok (doUpdate e) whatever.
Proof.
  intros He. unfold doUpdate.
  apply keeps_bind with (R := whatever); [|intros; apply ok_log].
  apply ok_write_store. intros s Hs. unfold store_ok, with_entries. simpl.
  unfold update_path. apply List.Forall_forall. intros r Hr.
  apply List.in_map_iff in Hr as [r0 [<- Hr0]].
  destruct (String.eqb (r_path r0) (e_path e)); [exact He|].
  apply (proj1 (List.Forall_forall _ _) Hs), Hr0.
Qed.

Lemma ok_filter (f : Row -> bool) :
  keeps world_ok (write_store (with_entries (List.filter f))) whatever.
Proof.
  apply ok_write_store. intros s Hs. unfold store_ok, with_entries. simpl.
  apply List.Forall_forall. intros r Hr. apply List.filter_In in Hr as [Hr _].
  apply (proj1 (List.Forall_forall _ _) Hs), Hr.
Qed.

Lemma ok_sql_delete (p : string) : keeps world_ok (sql_delete p) whatever.
Proof.
  unfold sql_delete.
  apply keeps_bind with (R := whatever); [|intros; apply ok_log].
  apply ok_filter.
Qed.

(** A rewrite of path and depth leaves the other columns as they are. *)
Lemma ok_sql_rename (source dest : string) (d : Z) :
  keeps world_ok (sql_rename source dest d) whatever.
Proof.
  unfold sql_rename.
  apply keeps_bind with (R := world_ok); [apply keeps_get_world|].
  intros w _. destruct (_ && _); [apply keeps_throw|].
  apply keeps_bind with (R := whatever); [|intros; apply ok_log].
  apply ok_write_store. intros s Hs. unfold store_ok, with_entries. simpl.
  unfold rename_path. apply List.Forall_forall. intros r Hr.
  apply List.in_map_iff in Hr as [r0 [<- Hr0]].
  pose proof (proj1 (List.Forall_forall _ _) Hs r0 Hr0) as H0.
  destruct (String.eqb (r_path r0) source); [|exact H0].
  exact H0.
Qed.

Lemma ok_checkDeleteBuild (hash : string) :
  keeps world_ok (checkDeleteBuild hash) whatever.
Proof.
  intros w Hw. split; [|intros; exact Logic.I].
  destruct (checkDeleteBuild_spec hash w)
    as (w' & E & _ & Hdb & Hdisk & _).
  rewrite E. simpl. unfold world_ok. rewrite Hdb, Hdisk. exact Hw.
Qed.

Lemma ok_checkUpdate (e : Entry) (p : string) (m : Z) (h : string) :
  keeps world_ok (checkUpdate e p m h) whatever.
Proof.
  intros w Hw. split; [|intros; exact Logic.I].
  destruct (checkUpdate_status e p m h w)
    as (e' & w' & E & _ & _ & Hdb & Hdisk & _).
  rewrite E. simpl. unfold world_ok. rewrite Hdb, Hdisk. exact Hw.
Qed.

Lemma dir_shape_parsed (p : string) (node : Node) :
  dir_shape (row_of_entry (parsed_entry p node)).
Proof.
  destruct node as [m|m s c]; intros Hty; simpl in *.
  - repeat split; reflexivity.
  - destruct (classify p c); discriminate.
Qed.

Lemma ok_parseEntry (p : string) (e : Entry) :
  keeps world_ok (parseEntry p e) (fun e' => dir_shape (row_of_entry e')).
Proof.
  intros w Hw. destruct (w_fs w p) as [node|] eqn:Hfs.
  - rewrite (parseEntry_found p e w node Hfs). simpl. split.
    + destruct node; exact Hw.
    + intros a [= <-]. apply dir_shape_parsed.
  - rewrite (parseEntry_missing p e w Hfs). simpl.
    split; [exact Hw|]. intros a [=].
Qed.

Lemma ok_add_path (callback : AddCallback) (p : string) :
  keeps world_ok (add_path callback p) whatever.
Proof.
  unfold add_path. destruct (_ && _); [apply keeps_ret; exact Logic.I|].
  apply keeps_bind with (R := world_ok); [apply keeps_get_world|].
  intros w _. apply keeps_bind with (R := whatever).
  { destruct (find_row _ _).
    - apply keeps_bind with (R := whatever); [apply ok_checkUpdate|].
      intros; apply keeps_ret; exact Logic.I.
    - apply keeps_ret; exact Logic.I. }
  intros st _. destruct (_ || _); [|apply keeps_ret; exact Logic.I].
  apply keeps_bind with (R := fun e' => dir_shape (row_of_entry e'));
    [apply ok_parseEntry|].
  intros e He. apply keeps_bind with (R := whatever).
  { destruct (snd (fst st)); [apply ok_sql_insert|apply ok_doUpdate];
      exact He. }
  intros _ _. destruct callback; [|apply keeps_ret; exact Logic.I].
  apply keeps_bind with (R := whatever); [apply ok_log|].
  intros; apply keeps_ret; exact Logic.I.
Qed.

Lemma ok_add_loop (callback : AddCallback) (pathList : list string) :
  keeps world_ok (add_loop callback pathList) whatever.
Proof.
  induction pathList as [|p rest IH]; simpl.
  - apply keeps_ret; exact Logic.I.
  - apply keeps_bind with (R := whatever); [apply ok_add_path|].
    intros [|] _; [exact IH|apply keeps_ret; exact Logic.I].
Qed.

Lemma ok_addToIndex (paths : list string) (callback : AddCallback) :
  keeps world_ok (addToIndex paths callback) whatever.
Proof.
  unfold addToIndex. destruct paths; [apply keeps_ret; exact Logic.I|].
  apply keeps_bind with (R := world_ok); [apply keeps_get_world|].
  intros w _. destruct (getIndexPathList _ _); [apply keeps_throw|].
  apply keeps_bind with (R := whatever); [apply ok_exec_begin|]. intros _ _.
  apply keeps_bind with (R := whatever); [apply ok_add_loop|]. intros b _.
  destruct b; [|apply keeps_ret; exact Logic.I].
  apply keeps_bind with (R := whatever); [apply ok_exec_commit|]. intros _ _.
  apply ok_setLastUpdate.
Qed.

Lemma ok_deleteFromIndex (query : string) (isFolder : bool)
      (callback : RemoveCallback) :
  keeps world_ok (deleteFromIndex query isFolder callback) whatever.
Proof.
  unfold deleteFromIndex.
  apply keeps_bind with (R := world_ok); [apply keeps_get_world|].
  intros w _. apply keeps_bind with (R := whatever).
  { apply keeps_for_each. intros r _.
    apply keeps_bind with (R := whatever); [apply ok_checkDeleteBuild|].
    intros _ _. destruct callback; [apply ok_log|].
    apply keeps_ret; exact Logic.I. }
  intros _ _. apply keeps_bind with (R := whatever).
  { destruct (0 <? _); [|apply keeps_ret; exact Logic.I].
    apply keeps_bind with (R := whatever); [apply ok_filter|].
    intros; apply ok_log. }
  intros; apply keeps_ret; exact Logic.I.
Qed.

Lemma ok_remove_matches (callback : RemoveCallback) (ms : list Entry)
      (tot : Z) :
  keeps world_ok (remove_matches callback ms tot) whatever.
Proof.
  revert tot. induction ms as [|e ms IH]; intros tot; simpl.
  - apply keeps_ret; exact Logic.I.
  - apply keeps_bind with (R := whatever); [apply ok_deleteFromIndex|].
    intros cnt _. apply keeps_bind with (R := whatever).
    { destruct (is_directory_type _); [apply ok_deleteFromIndex|].
      apply keeps_ret; exact Logic.I. }
    intros cnt' _. apply IH.
Qed.

Lemma ok_getMatchingEntries (p : string) (d : Z) (isFolder : bool) :
  keeps world_ok (getMatchingEntries p d isFolder) whatever.
Proof.
  unfold getMatchingEntries. destruct (d <? 0); [apply keeps_throw|].
  apply keeps_bind with (R := world_ok); [apply keeps_get_world|].
  intros; apply keeps_ret; exact Logic.I.
Qed.

Lemma ok_removeFromIndex (paths : list string) (callback : RemoveCallback) :
  keeps world_ok (removeFromIndex paths callback) whatever.
Proof.
  unfold removeFromIndex. destruct paths; [apply keeps_ret; exact Logic.I|].
  apply keeps_bind with (R := whatever); [|intros; apply ok_setLastUpdate].
  apply keeps_for_each. intros p _. unfold remove_path.
  apply keeps_bind with (R := whatever); [apply ok_getMatchingEntries|].
  intros ms _. apply keeps_bind with (R := whatever); [apply ok_remove_matches|].
  intros tot _. destruct (tot =? 0); [apply keeps_throw|].
  apply keeps_ret; exact Logic.I.
Qed.

Lemma ok_sync_row (r : Row) : keeps world_ok (sync_row r) whatever.
Proof.
  unfold sync_row.
  apply keeps_bind with (R := whatever); [apply ok_checkUpdate|].
  intros se _. destruct (fst se).
  - apply keeps_ret; exact Logic.I.
  - apply keeps_bind with (R := fun e' => dir_shape (row_of_entry e'));
      [apply ok_parseEntry|].
    intros e He. apply keeps_bind with (R := whatever); [apply ok_doUpdate, He|].
    intros _ _. apply keeps_bind with (R := whatever); [apply ok_log|].
    intros; apply keeps_ret; exact Logic.I.
  - apply keeps_bind with (R := whatever); [apply ok_sql_delete|]. intros _ _.
    apply keeps_bind with (R := whatever); [apply ok_checkDeleteBuild|].
    intros _ _. apply keeps_bind with (R := whatever); [apply ok_log|].
    intros; apply keeps_ret; exact Logic.I.
Qed.

Lemma ok_sync_loop (rows : list Row) (changed : bool) :
  keeps world_ok (sync_loop rows changed) whatever.
Proof.
  revert changed. induction rows as [|r rows IH]; intros changed; simpl.
  - apply keeps_ret; exact Logic.I.
  - apply keeps_bind with (R := whatever); [apply ok_sync_row|].
    intros c _. apply IH.
Qed.

Lemma ok_syncIndex : keeps world_ok syncIndex whatever.
Proof.
  unfold syncIndex.
  apply keeps_bind with (R := world_ok); [apply keeps_get_world|].
  intros w _. apply keeps_bind with (R := whatever); [apply ok_exec_begin|].
  intros _ _. apply keeps_bind with (R := whatever); [apply ok_sync_loop|].
  intros changed _.
  apply keeps_bind with (R := whatever); [apply ok_exec_commit|]. intros _ _.
  destruct changed; [apply ok_setLastUpdate|apply keeps_ret; exact Logic.I].
Qed.

(** The row written by [addFolder] has the columns of a directory. *)
Lemma addFolder_row_shape (path : string) (mtime : Z) :
  directory_columns
    (mkRow path None Directory "null" mtime 0 (path_depth path) None None).
Proof. repeat split; reflexivity. Qed.

Lemma ok_addFolder (path : string) (mtime : Z) :
  keeps world_ok (addFolder path mtime) whatever.
Proof.
  unfold addFolder. apply ok_sql_insert. intros _. apply addFolder_row_shape.
Qed.

Lemma ok_createMissingFolders : keeps world_ok createMissingFolders whatever.
Proof.
  unfold createMissingFolders.
  apply keeps_bind with (R := world_ok); [apply keeps_get_world|].
  intros w _. apply keeps_for_each. intros folder _.
  apply keeps_bind with (R := world_ok); [apply keeps_get_world|].
  intros w' _. apply ok_addFolder.
Qed.

Lemma ok_ends_with_separator (s : string) :
  keeps world_ok (ends_with_separator s) whatever.
Proof.
  intros w Hw. rewrite ends_with_separator_eq.
  destruct (trailing_separator s); simpl; (split; [exact Hw|]);
    intros; exact Logic.I.
Qed.

Lemma ok_getEntry (p : string) : keeps world_ok (getEntry p) whatever.
Proof.
  unfold getEntry.
  apply keeps_bind with (R := world_ok); [apply keeps_get_world|].
  intros; apply keeps_ret; exact Logic.I.
Qed.

Lemma ok_moveEntry (source dest : string) :
  keeps world_ok (moveEntry source dest) whatever.
Proof.
  unfold moveEntry.
  apply keeps_bind with (R := whatever); [apply ok_ends_with_separator|].
  intros sep _. destruct sep; [apply keeps_throw|].
  destruct (hasDotNotation source); [apply keeps_throw|].
  apply keeps_bind with (R := whatever); [apply ok_ends_with_separator|].
  intros sep' _. destruct sep'; [apply keeps_throw|].
  destruct (hasDotNotation dest); [apply keeps_throw|].
  destruct (String.eqb source dest); [apply keeps_ret; exact Logic.I|].
  unfold move_entries.
  apply keeps_bind with (R := whatever); [apply ok_getEntry|]. intros src _.
  apply keeps_bind with (R := whatever); [apply ok_getEntry|]. intros dst _.
  destruct src as [sourceEntry|]; [|apply keeps_throw].
  apply keeps_bind with (R := whatever).
  { unfold move_check. destruct dst; [|apply keeps_ret; exact Logic.I].
    destruct (is_dir_entry sourceEntry).
    - destruct (negb _); apply keeps_throw.
    - destruct (is_dir_entry _); [apply keeps_throw|].
      apply keeps_ret; exact Logic.I. }
  intros _ _. apply keeps_bind with (R := whatever); [apply ok_exec_begin|].
  intros _ _. apply keeps_bind with (R := whatever).
  { unfold move_rows. destruct (negb _).
    - apply keeps_bind with (R := whatever).
      + destruct dst; [apply ok_sql_delete|apply keeps_ret; exact Logic.I].
      + intros _ _. apply ok_sql_rename.
    - unfold listFolderPaths.
      apply keeps_bind with (R := whatever).
      { apply keeps_bind with (R := world_ok); [apply keeps_get_world|].
        intros; apply keeps_ret; exact Logic.I. }
      intros paths _. apply keeps_bind with (R := whatever).
      + apply keeps_for_each. intros path _. unfold move_folder_step.
        apply keeps_bind with (R := whatever); [apply keeps_moved_path|].
        intros newPath _.
        apply keeps_bind with (R := whatever); [apply ok_sql_delete|].
        intros _ _. apply ok_sql_rename.
      + intros _ _. apply ok_createMissingFolders. }
  intros _ _. apply keeps_bind with (R := whatever); [apply ok_exec_commit|].
  intros _ _. apply ok_setLastUpdate.
Qed.

(** Every reachable world has directory rows of the right shape, in the
    store as the connection sees it and in the committed store. *)
Lemma reachable_ok (w : World) : reachable w -> world_ok w.
Proof.
  induction 1 as [fs builds time|w paths cb _ IH|w paths cb _ IH|w _ IH
                 |w source dest _ IH|w fs builds time _ IH|w _ IH].
  - split; constructor.
  - apply ok_addToIndex, IH.
  - apply ok_removeFromIndex, IH.
  - apply ok_syncIndex, IH.
  - apply ok_moveEntry, IH.
  - exact IH.
  - destruct IH as [_ Hdisk]. split; exact Hdisk.
Qed.

(* ================================================================ *)
(** ** Build folders *)

Lemma build_hashes_in (rows : list Row) (r : Row) :
  In r rows -> getText (r_hash r) <> "" ->
  In (getText (r_hash r)) (build_hashes rows).
Proof.
  intros Hin Hne. unfold build_hashes. apply List.filter_In. split.
  - apply List.in_map_iff. exists r. split; [reflexivity|exact Hin].
  - destruct (getText (r_hash r)); [congruence|reflexivity].
Qed.

(** [deleteFromIndex]: the matched rows are gone, the build folders of
    their hashes are gone, and the folders were removed before the DELETE
    ran. *)
Lemma deleteFromIndex_builds (query : string) (isFolder : bool)
      (callback : RemoveCallback) (w : World) :
  exists count w' evs,
    deleteFromIndex query isFolder callback w = (Ret count, w')
    /\ (forall r, In r (delete_matches query isFolder (entries (w_db w))) ->
                  ~ In r (entries (w_db w'))
                  /\ (getText (r_hash r) <> "" ->
                      getText (r_hash r) ∉ w_builds w'))
    /\ Forall is_removal_event evs
    /\ w_trace w' =
       (w_trace w ++ evs
          ++ (if 0 <? count
              then [EvDeleteLike (delete_pattern query isFolder)]
              else []))%list.
Proof.
  clear sha256 rootJoin relativeTo hasDotNotation extract_polygon extract_point extract_meta classify.
  destruct (deleteFromIndex_spec query isFolder callback w)
    as (w' & E & _ & _ & _ & Hent & _ & Hb & evs & Hev & Ht).
  eexists _, w', evs. split; [exact E|]. split; [|split; assumption].
  intros r Hr. split.
  - rewrite Hent. intros Hin. apply List.filter_In in Hin as [_ Hno].
    apply List.filter_In in Hr as [_ Hyes]. rewrite Hyes in Hno.
    discriminate.
  - intros Hne. rewrite Hb.
    assert (In (getText (r_hash r))
               (build_hashes (delete_matches query isFolder
                                (entries (w_db w))))) as Hin
        by (apply build_hashes_in; assumption).
    apply list_elem_of_In in Hin.
    rewrite elem_of_difference, elem_of_list_to_set. tauto.
Qed.

Lemma row_status_deleted (r : Row) (w : World) :
  row_status (w_fs w) r = Deleted -> w_fs w (rootJoin (r_path r)) = None.
Proof.
  unfold row_status, file_status.
  destruct (w_fs w (rootJoin (r_path r))) as [[|m s c]|];
    [discriminate| |reflexivity].
  destruct (m =? r_mtime r); [discriminate|].
  destruct (String.eqb _ _); discriminate.
Qed.

Lemma not_in_delete_path (p : string) (rows : list Row) (r : Row) :
  r_path r = p -> ~ In r (delete_path p rows).
Proof.
  intros Hp Hin. apply List.filter_In in Hin as [_ H].
  rewrite Hp, String.eqb_refl in H. discriminate.
Qed.

(** The Deleted branch of [syncIndex]: the row is deleted and the build
    folder of its hash removed. *)
Lemma sync_row_deleted (r : Row) (w : World) :
  row_status (w_fs w) r = Deleted ->
  exists w',
    sync_row r w = (Ret true, w')
    /\ entries (w_db w') = delete_path (r_path r) (entries (w_db w))
    /\ (getText (r_hash r) <> "" -> getText (r_hash r) ∉ w_builds w').
Proof.
  clear hasDotNotation ceq.
  intros Hst. pose proof (row_status_deleted r w Hst) as Hfs.
  unfold sync_row.
  rewrite (bind_ret_l _ _ _ _ _ (checkUpdate_missing _ _ _ _ _ Hfs)).
  cbv beta zeta. cbn [fst snd]. cbv iota.
  rewrite (bind_ret_l _ _ _ _ _ (sql_delete_eq _ w)).
  set (w1 := add_event _ _).
  destruct (checkDeleteBuild_spec (getText (r_hash r)) w1)
    as (w2 & E2 & _ & D2 & _ & _ & _ & B2 & _).
  rewrite (bind_ret_l _ _ _ _ _ E2). eexists. split; [reflexivity|].
  simpl. rewrite D2. split; [reflexivity|].
  intros Hne. rewrite B2.
  destruct (getText (r_hash r)); [congruence|]. simpl.
  rewrite elem_of_difference, elem_of_singleton. tauto.
Qed.

Lemma row_status_modified (r : Row) (w : World) :
  row_status (w_fs w) r = Modified ->
  exists m s c, w_fs w (rootJoin (r_path r)) = Some (NFile m s c)
                /\ m <> r_mtime r
                /\ String.eqb (getText (r_hash r)) (sha256 c) = false.
Proof.
  unfold row_status, file_status.
  destruct (w_fs w (rootJoin (r_path r))) as [[|m s c]|];
    [discriminate| |discriminate].
  destruct (Z.eqb_spec m (r_mtime r)); [discriminate|].
  destruct (String.eqb _ _) eqn:E; [discriminate|].
  intros _. exists m, s, c. repeat split; assumption.
Qed.

(** The Modified branch of [syncIndex]: the row is rewritten from a fresh
    parse; no build folder is touched. *)
Lemma sync_row_modified (r : Row) (w : World) :
  row_status (w_fs w) r = Modified ->
  exists node w',
    w_fs w (rootJoin (r_path r)) = Some node
    /\ sync_row r w = (Ret true, w')
    /\ entries (w_db w')
       = update_path (parsed_entry (rootJoin (r_path r)) node)
           (entries (w_db w))
    /\ w_builds w' = w_builds w.
Proof.
  intros Hst.
  destruct (row_status_modified r w Hst) as (m & s & c & Hfs & Hm & Hh).
  exists (NFile m s c). unfold sync_row.
  rewrite (bind_ret_l _ _ _ _ _
             (checkUpdate_other_mtime _ _ _ _ _ _ _ _ Hfs Hm)).
  cbv beta zeta. rewrite Hh. cbn [fst snd]. cbv iota.
  assert (Hfs' : w_fs (add_event (EvHash (rootJoin (r_path r))) w)
                   (rootJoin (r_path r)) = Some (NFile m s c)) by exact Hfs.
  rewrite (bind_ret_l _ _ _ _ _ (parseEntry_found _ _ _ _ Hfs')).
  eexists. split; [exact Hfs|]. split; [reflexivity|].
  split; reflexivity.
Qed.

Lemma add_path_builds (callback : AddCallback) (p : string) (w : World) :
  w_txn w = true -> w_builds (snd (add_path callback p w)) = w_builds w.
Proof.
  intros Htxn. destruct (add_path callback p w) as [o w'] eqn:E.
  destruct (add_path_spec callback p w w' o Htxn E) as [(_ & B & _) _].
  exact B.
Qed.

(* ================================================================ *)
(** ** [moveEntry] on a folder *)

Lemma listFolderPaths_eq (path : string) (w : World) :
  listFolderPaths path w = (Ret (folder_paths path (entries (w_db w))), w).
Proof. reflexivity. Qed.

(** Without an escape character a pattern made of a text and a final [%]
    matches, among others, whatever begins with the text. *)
Lemma like_plain_prefix (pre rest : string) :
  (forall c, ceq c c = true) ->
  like_plain (pre +:+ "%") (pre +:+ rest) = true.
Proof.
  intros Hrefl. unfold like_plain. induction pre as [|c pre IH].
  - rewrite !string_app_nil_l.
    change "%" with (String percent "").
    rewrite like_percent.
    change (like ceq None "") with is_empty. apply any_suffix_is_empty.
  - rewrite !string_app_cons.
    destruct (Ascii.eqb c percent) eqn:E1.
    + apply Ascii.eqb_eq in E1 as ->.
      rewrite like_percent, any_suffix_cons, (any_suffix_here _ _ IH).
      apply orb_true_r.
    + destruct (Ascii.eqb c underscore) eqn:E2.
      * simpl. rewrite E1, E2. exact IH.
      * rewrite like_plain_char by (assumption || reflexivity).
        rewrite Hrefl, IH. reflexivity.
Qed.

(** [sort_paths] keeps the paths and puts them in ascending order. *)
Lemma in_insert_path (x p : string) (l : list string) :
  In x (insert_path p l) <-> x = p \/ In x l.
Proof.
  induction l as [|q l IH]; cbn [insert_path].
  - split.
    + intros [<-|[]]. left. reflexivity.
    + intros [->|[]]. left. reflexivity.
  - destruct (String.leb p q).
    + split.
      * intros [<-|H]; [left; reflexivity|right; exact H].
      * intros [->|H]; [left; reflexivity|right; exact H].
    + split.
      * intros [<-|H]; [right; left; reflexivity|].
        apply IH in H as [->|H]; [left; reflexivity|right; right; exact H].
      * intros [->|[<-|H]].
        -- right. apply IH. left. reflexivity.
        -- left. reflexivity.
        -- right. apply IH. right. exact H.
Qed.

Lemma in_sort_paths (x : string) (l : list string) :
  In x (sort_paths l) <-> In x l.
Proof.
  induction l as [|p l IH]; cbn [sort_paths].
  - reflexivity.
  - rewrite in_insert_path, IH. split.
    + intros [->|H]; [left; reflexivity|right; exact H].
    + intros [<-|H]; [left; reflexivity|right; exact H].
Qed.

Lemma ascending_insert (p : string) (l : list string) :
  ascending l = true -> ascending (insert_path p l) = true.
Proof.
  induction l as [|q l IH]; [reflexivity|].
  intros Hl. cbn [insert_path].
  destruct (String.leb p q) eqn:E.
  - cbn [ascending]. cbn [ascending] in Hl. rewrite E, Hl. reflexivity.
  - assert (Hqp : String.leb q p = true).
    { destruct (String.leb_total p q) as [H|H]; [congruence|exact H]. }
    assert (Hl' : ascending l = true).
    { cbn [ascending] in Hl. destruct l as [|q' l']; [reflexivity|].
      apply andb_true_iff in Hl as [_ Hl]. exact Hl. }
    specialize (IH Hl').
    destruct l as [|q' l'].
    + cbn [insert_path ascending]. rewrite Hqp. reflexivity.
    + cbn [ascending] in Hl. apply andb_true_iff in Hl as [Hqq' _].
      cbn [insert_path] in IH |- *.
      destruct (String.leb p q').
      * change (String.leb q p && ascending (p :: q' :: l') = true).
        rewrite Hqp, IH. reflexivity.
      * change (String.leb q q' && ascending (q' :: insert_path p l') = true).
        rewrite Hqq', IH. reflexivity.
Qed.

Lemma ascending_sort (l : list string) : ascending (sort_paths l) = true.
Proof.
  induction l as [|p l IH]; [reflexivity|].
  cbn [sort_paths]. apply ascending_insert, IH.
Qed.

Lemma folder_paths_in (source p : string) (rows : list Row) :
  In p (folder_paths source rows) <->
  exists r, In r rows /\ r_path r = p
            /\ like_plain (source +:+ "/%") p || String.eqb p source = true.
Proof.
  unfold folder_paths. rewrite in_sort_paths, List.in_map_iff. split.
  - intros (r & <- & Hr). apply List.filter_In in Hr as [Hr Hm].
    exists r. split; [exact Hr|]. split; [reflexivity|exact Hm].
  - intros (r & Hr & <- & Hm). exists r. split; [reflexivity|].
    apply List.filter_In. split; [exact Hr|exact Hm].
Qed.




Lemma string_drop_app (a b : string) :
  string_drop (String.length a) (a +:+ b) = b.
Proof.
  induction a as [|c a IH]; [reflexivity|].
  rewrite string_app_cons. simpl. exact IH.
Qed.

Lemma rewritten_prefix (source dest rest : string) :
  rewritten source dest (source +:+ rest) = dest +:+ rest.
Proof. unfold rewritten. rewrite string_drop_app. reflexivity. Qed.

Lemma moved_path_long (source dest path : string) (w : World) :
  (String.length source <= String.length path)%nat ->
  moved_path source dest path w = (Ret (rewritten source dest path), w).
Proof.
  intros H. unfold moved_path, substr.
  destruct (Nat.ltb_spec (String.length path) (String.length source));
    [lia|reflexivity].
Qed.


Lemma moved_path_prefix (source dest rest : string) (w : World) :
  moved_path source dest (source +:+ rest) w = (Ret (dest +:+ rest), w).
Proof.
  rewrite moved_path_long by (rewrite string_length_app; lia).
  rewrite rewritten_prefix. reflexivity.
Qed.

Lemma rows_frame_refl (w : World) : rows_frame w w.
Proof. unfold rows_frame. repeat split; reflexivity. Qed.

Lemma rows_frame_trans (w1 w2 w3 : World) :
  rows_frame w1 w2 -> rows_frame w2 w3 -> rows_frame w1 w3.
Proof.
  unfold rows_frame. intros (F1 & B1 & T1 & C1 & L1 & K1)
                            (F2 & B2 & T2 & C2 & L2 & K2).
  repeat split; try congruence.
  intros Ht. rewrite K2, K1; congruence.
Qed.

Lemma rows_frame_set_entries (rows : list Row) (ev : Event) (w : World) :
  rows_frame w (add_event ev (set_entries rows w)).
Proof.
  unfold rows_frame, add_event, set_entries. simpl.
  repeat split; try reflexivity. intros ->. reflexivity.
Qed.





Lemma add_folders_some (mtime : Z) (folders : list string)
      (rows final : list Row) :
  add_folders mtime folders rows = Some final ->
  final = (rows ++ List.map (folder_row mtime) folders)%list.
Proof.
  revert rows. induction folders as [|f folders IH]; intros rows; simpl.
  - intros [= <-]. rewrite app_nil_r. reflexivity.
  - destruct (has_path f rows); [discriminate|].
    intros H. apply IH in H. rewrite H, <- app_assoc. reflexivity.
Qed.

Lemma folder_loop_eq (folders : list string) (w : World) :
  match add_folders (w_time w) folders (entries (w_db w)) with
  | Some final =>
      exists w',
        for_each (fun folder => w' <- get_world ;; addFolder folder (w_time w'))
                 folders w = (Ret tt, w')
        /\ entries (w_db w') = final /\ rows_frame w w'
  | None =>
      exists w',
        for_each (fun folder => w' <- get_world ;; addFolder folder (w_time w'))
                 folders w
        = (Throw (SQLException "UNIQUE constraint failed: entries.path"), w')
        /\ rows_frame w w'
  end.
Proof.
  revert w. induction folders as [|f folders IH]; intros w.
  - simpl. exists w. split; [reflexivity|]. split; [reflexivity|].
    apply rows_frame_refl.
  - simpl add_folders. destruct (has_path f (entries (w_db w))) eqn:Hhas.
    + exists w. split; [|apply rows_frame_refl].
      simpl. unfold bind at 1. unfold bind at 1. unfold get_world at 1.
      unfold addFolder. rewrite sql_insert_dup by exact Hhas. reflexivity.
    + assert (E1 : (w' <- get_world ;; addFolder f (w_time w')) w
                   = (Ret tt,
                      add_event (EvInsert f)
                        (set_entries (entries (w_db w)
                                        ++ [folder_row (w_time w) f]) w))).
      { unfold bind, get_world, addFolder.
        rewrite sql_insert_ok by exact Hhas. reflexivity. }
      set (w1 := add_event _ _) in E1.
      specialize (IH w1).
      change (w_time w1) with (w_time w) in IH.
      change (entries (w_db w1))
        with (entries (w_db w) ++ [folder_row (w_time w) f])%list in IH.
      destruct (add_folders (w_time w) folders
                  (entries (w_db w) ++ [folder_row (w_time w) f])).
      * destruct IH as (w2 & E2 & R2 & F2). exists w2. split.
        { simpl. rewrite (bind_ret_l _ _ _ _ _ E1). exact E2. }
        split; [exact R2|].
        eapply rows_frame_trans; [apply rows_frame_set_entries|exact F2].
      * destruct IH as (w2 & E2 & F2). exists w2. split.
        { simpl. rewrite (bind_ret_l _ _ _ _ _ E1). exact E2. }
        eapply rows_frame_trans; [apply rows_frame_set_entries|exact F2].
Qed.

Lemma createMissingFolders_eq (w : World) :
  match add_folders (w_time w)
          (folder_consistency_query (entries (w_db w))) (entries (w_db w)) with
  | Some final =>
      exists w', createMissingFolders w = (Ret tt, w')
                 /\ entries (w_db w') = final /\ rows_frame w w'
  | None =>
      exists w',
        createMissingFolders w
        = (Throw (SQLException "UNIQUE constraint failed: entries.path"), w')
        /\ rows_frame w w'
  end.
Proof.
  unfold createMissingFolders. unfold bind at 1. unfold get_world at 1.
  apply folder_loop_eq.
Qed.


Lemma exec_begin_ok (w : World) :
  w_txn w = false -> exec_begin w = (Ret tt, begun w).
Proof. intros H. unfold exec_begin. rewrite H. reflexivity. Qed.

Lemma exec_begin_refused (w : World) :
  w_txn w = true ->
  exec_begin w
  = (Throw (SQLException "cannot start a transaction within a transaction"),
     w).
Proof. intros H. unfold exec_begin. rewrite H. reflexivity. Qed.

Lemma exec_commit_ok (w : World) :
  w_txn w = true -> exec_commit w = (Ret tt, committed w).
Proof. intros H. unfold exec_commit. rewrite H. reflexivity. Qed.


(* ================================================================ *)
(** ** The folder-consistency query on a path [folder/name] *)

Lemma rev_onto_app (s acc : string) :
  string_rev_onto s acc = string_rev s +:+ acc.
Proof.
  unfold string_rev. revert acc. induction s as [|c s IH]; intros acc.
  - rewrite string_app_nil_l. reflexivity.
  - cbn [string_rev_onto]. rewrite (IH (String c acc)), (IH (String c "")).
    rewrite string_app_assoc, string_app_cons, string_app_nil_l.
    reflexivity.
Qed.

Lemma rev_cons (c : ascii) (s : string) :
  string_rev (String c s) = string_rev s +:+ String c "".
Proof. unfold string_rev at 1. cbn [string_rev_onto]. apply rev_onto_app. Qed.

Lemma rev_app (a b : string) :
  string_rev (a +:+ b) = string_rev b +:+ string_rev a.
Proof.
  induction a as [|c a IH].
  - rewrite string_app_nil_l. symmetry. apply string_app_nil_r.
  - rewrite string_app_cons, !rev_cons, IH, string_app_assoc. reflexivity.
Qed.

Lemma rev_involutive (s : string) : string_rev (string_rev s) = s.
Proof.
  induction s as [|c s IH]; [reflexivity|].
  rewrite rev_cons, rev_app, IH. reflexivity.
Qed.

Lemma string_mem_rev (c : ascii) (s : string) :
  string_mem c (string_rev s) = string_mem c s.
Proof.
  induction s as [|x s IH]; [reflexivity|].
  rewrite rev_cons, string_mem_app, IH. cbn [string_mem].
  rewrite orb_false_r. apply orb_comm.
Qed.

Lemma ltrim_app (a b chars : string) :
  (forall c, string_mem c a = true -> string_mem c chars = true) ->
  sql_ltrim (a +:+ b) chars = sql_ltrim b chars.
Proof.
  induction a as [|x a IH]; intros Hall.
  - rewrite string_app_nil_l. reflexivity.
  - rewrite string_app_cons. cbn [sql_ltrim].
    rewrite (Hall x) by (cbn [string_mem]; rewrite Ascii.eqb_refl;
                         reflexivity).
    apply IH. intros c Hc. apply Hall. cbn [string_mem]. rewrite Hc.
    apply orb_true_r.
Qed.

Lemma ltrim_stop (c : ascii) (s chars : string) :
  string_mem c chars = false -> sql_ltrim (String c s) chars = String c s.
Proof. intros H. cbn [sql_ltrim]. rewrite H. reflexivity. Qed.

Lemma strip_mem_slash (s : string) :
  string_mem slash (sql_replace s "/" "") = false.
Proof.
  unfold sql_replace. induction s as [|c s IH]; [reflexivity|].
  rewrite string_replace_char_cons.
  destruct (Ascii.eqb c "/") eqn:E.
  - rewrite string_app_nil_l. exact IH.
  - rewrite string_app_cons, string_app_nil_l. cbn [string_mem].
    unfold slash. rewrite E. exact IH.
Qed.

Lemma strip_mem_other (c : ascii) (s : string) :
  Ascii.eqb c slash = false ->
  string_mem c (sql_replace s "/" "") = string_mem c s.
Proof.
  intros Hc. unfold sql_replace. induction s as [|x s IH]; [reflexivity|].
  rewrite string_replace_char_cons.
  destruct (Ascii.eqb x "/") eqn:E.
  - rewrite string_app_nil_l, IH. cbn [string_mem].
    apply Ascii.eqb_eq in E. subst x.
    rewrite Ascii.eqb_sym. unfold slash in Hc. rewrite Hc. reflexivity.
  - rewrite string_app_cons, string_app_nil_l. cbn [string_mem].
    rewrite IH. reflexivity.
Qed.

Lemma string_mem_eqb (c : ascii) (s : string) :
  string_mem c s = true -> string_mem slash s = false ->
  Ascii.eqb c slash = false.
Proof.
  induction s as [|x s IH]; [discriminate|].
  cbn [string_mem]. intros Hc Hs.
  apply orb_false_iff in Hs as [Hx Hs].
  apply orb_true_iff in Hc as [Hc|Hc]; [|exact (IH Hc Hs)].
  apply Ascii.eqb_eq in Hc. subst x. exact Hx.
Qed.

(** [rtrim(path, replace(path, '/', ''))] cuts a path after its last
    separator. *)
Lemma rtrim_file_name (d n : string) :
  string_mem slash n = false ->
  sql_rtrim (d +:+ "/" +:+ n) (sql_replace (d +:+ "/" +:+ n) "/" "")
  = d +:+ "/".
Proof.
  intros Hn. unfold sql_rtrim.
  rewrite !rev_app, string_app_assoc.
  rewrite ltrim_app.
  - change (string_rev "/") with (String slash "").
    rewrite string_app_cons, string_app_nil_l.
    rewrite (ltrim_stop slash _ _ (strip_mem_slash _)).
    rewrite rev_cons, rev_involutive. reflexivity.
  - intros c Hc. rewrite string_mem_rev in Hc.
    rewrite (strip_mem_other c _ (string_mem_eqb c n Hc Hn)).
    rewrite !string_mem_app, Hc, !orb_true_r. reflexivity.
Qed.

Lemma prefix_app_iff (a b : string) :
  String.prefix a b = true <-> exists rest, b = a +:+ rest.
Proof.
  revert b. induction a as [|x a IH]; intros b.
  - split; [intros _; exists b; rewrite string_app_nil_l; reflexivity|].
    intros _. apply prefix_nil.
  - destruct b as [|y b]; cbn [String.prefix].
    + split; [discriminate|]. intros [rest H].
      rewrite string_app_cons in H. discriminate.
    + destruct (ascii_dec x y) as [->|Hne].
      * rewrite IH. split; intros [rest H]; exists rest.
        -- rewrite string_app_cons, H. reflexivity.
        -- rewrite string_app_cons in H. injection H as H. exact H.
      * split; [discriminate|]. intros [rest H].
        rewrite string_app_cons in H. injection H as H _. congruence.
Qed.

Lemma prefix_refl (s : string) : String.prefix s s = true.
Proof. apply prefix_app_iff. exists "". symmetry. apply string_app_nil_r. Qed.

Lemma prefix_app (a rest : string) : String.prefix a (a +:+ rest) = true.
Proof. apply prefix_app_iff. exists rest. reflexivity. Qed.

Lemma aux_skip (from to a s : string) :
  string_replace_aux from to (String.length a) (a +:+ s)
  = string_replace_aux from to 0 s.
Proof.
  induction a as [|x a IH].
  - rewrite string_app_nil_l. destruct s; reflexivity.
  - rewrite string_app_cons. cbn [String.length string_replace_aux].
    exact IH.
Qed.

Lemma aux_copy (from to pre post : string) :
  (forall a b, pre = a +:+ b -> b <> "" ->
               String.prefix from (b +:+ post) = false) ->
  string_replace_aux from to 0 (pre +:+ post)
  = pre +:+ string_replace_aux from to 0 post.
Proof.
  induction pre as [|x pre IH]; intros Hno.
  - rewrite !string_app_nil_l. reflexivity.
  - rewrite !string_app_cons. cbn [string_replace_aux].
    rewrite <- string_app_cons.
    rewrite (Hno "" (String x pre))
      by (try discriminate; rewrite string_app_nil_l; reflexivity).
    rewrite IH; [reflexivity|].
    intros a b Hab Hb. apply (Hno (String x a) b); [|exact Hb].
    rewrite string_app_cons, Hab. reflexivity.
Qed.

(** A text is replaced by nothing where it stands at the very end. *)
Lemma aux_self (from : string) :
  from <> "" -> string_replace_aux from "" 0 from = "".
Proof.
  destruct from as [|c from]; [congruence|]. intros _.
  cbn [string_replace_aux]. rewrite prefix_refl.
  cbn [String.length Nat.sub]. rewrite Nat.sub_0_r, string_app_nil_l.
  pose proof (aux_skip (String c from) "" from "") as H.
  rewrite string_app_nil_r in H. exact H.
Qed.

Lemma prefix_slash_free (n x y : string) :
  string_mem slash n = false ->
  String.prefix n (x +:+ "/" +:+ y) = true ->
  String.prefix n x = true.
Proof.
  revert x. induction n as [|c n IH]; intros x Hn H; [apply prefix_nil|].
  cbn [string_mem] in Hn. apply orb_false_iff in Hn as [Hc Hn].
  destruct x as [|c' x].
  - rewrite string_app_nil_l in H.
    change ("/" +:+ y) with (String "/" y) in H. cbn [String.prefix] in H.
    destruct (ascii_dec c "/") as [->|Hne]; [|discriminate].
    discriminate.
  - rewrite string_app_cons in H. cbn [String.prefix] in *.
    destruct (ascii_dec c c'); [|discriminate]. exact (IH x Hn H).
Qed.

Lemma occurs_suffix (n a b : string) :
  occurs n (a +:+ b) = false -> String.prefix n b = false.
Proof.
  induction a as [|x a IH]; intros H.
  - rewrite string_app_nil_l in H. destruct b; cbn [occurs] in H;
      apply orb_false_iff in H; apply H.
  - rewrite string_app_cons in H. cbn [occurs] in H.
    apply orb_false_iff in H as [_ H]. exact (IH H).
Qed.

Lemma no_slash_no_prefix (from s : string) :
  string_mem slash from = true -> string_mem slash s = false ->
  String.prefix from s = false.
Proof.
  intros Hf Hs. destruct (String.prefix from s) eqn:E; [|reflexivity].
  apply prefix_app_iff in E as [rest ->].
  rewrite string_mem_app, Hf in Hs. discriminate.
Qed.

(** The column [A.folder] of the query, for a file [d/n] whose name does
    not occur in the folder path [d]: the folder path and its separator. *)
Lemma folder_column_file (d n : string) :
  n <> "" -> string_mem slash n = false -> occurs n d = false ->
  folder_column (d +:+ "/" +:+ n) = d +:+ "/".
Proof.
  intros Hne Hn Hocc. unfold folder_column.
  rewrite (rtrim_file_name d n Hn).
  assert (Hname : sql_replace (d +:+ "/" +:+ n) (d +:+ "/") "" = n).
  { unfold sql_replace, string_replace.
    destruct (d +:+ "/") as [|f0 from] eqn:Ef.
    { destruct d; rewrite ?string_app_cons, ?string_app_nil_l in Ef;
        discriminate. }
    rewrite <- string_app_assoc, Ef, string_app_cons.
    cbn [string_replace_aux]. rewrite <- string_app_cons, prefix_app.
    cbn [String.length Nat.sub].
    rewrite Nat.sub_0_r, string_app_nil_l, aux_skip.
    assert (Hcopy : string_replace_aux (String f0 from) "" 0 (n +:+ "")
                    = n +:+ string_replace_aux (String f0 from) "" 0 "");
      [|rewrite !string_app_nil_r in Hcopy; exact Hcopy].
    apply aux_copy.
    intros a b Hab _. rewrite string_app_nil_r.
    apply no_slash_no_prefix.
    - rewrite <- Ef, string_mem_app. apply orb_true_r.
    - rewrite Hab, string_mem_app in Hn.
      apply orb_false_iff in Hn. apply Hn. }
  rewrite Hname.
  assert (Hgoal : string_replace_aux n "" 0 (d +:+ "/" +:+ n) = d +:+ "/").
  { rewrite <- string_app_assoc.
    rewrite aux_copy.
    - rewrite (aux_self n Hne). apply string_app_nil_r.
    - intros a b Hab Hb.
      destruct (String.prefix n (b +:+ n)) eqn:E; [|reflexivity]. exfalso.
      assert (Hb' : exists b', b = b' +:+ "/" /\ d = a +:+ b').
      { clear E. revert a Hab. induction b as [|y b IHb]; [congruence|].
        clear Hb. intros a Hab. destruct b as [|z b].
        - rewrite <- (string_app_nil_r d) in Hab at 1.
          exists "". rewrite string_app_nil_l.
          assert (Hrev : string_rev (d +:+ "/") = string_rev (a +:+ String y ""))
            by (rewrite <- Hab, string_app_nil_r; reflexivity).
          rewrite !rev_app in Hrev.
          change (string_rev "/") with "/" in Hrev.
          change (string_rev (String y "")) with (String y "") in Hrev.
          rewrite !string_app_cons, !string_app_nil_l in Hrev.
          injection Hrev as Hy Hd.
          split; [rewrite Hy; reflexivity|].
          rewrite string_app_nil_r.
          rewrite <- (rev_involutive d), <- (rev_involutive a), Hd.
          reflexivity.
        - destruct (IHb ltac:(discriminate) (a +:+ String y "")) as (b' & Hb1 & Hb2).
          + rewrite string_app_assoc, string_app_cons, string_app_nil_l.
            exact Hab.
          + exists (String y b'). rewrite string_app_cons, <- Hb1.
            split; [reflexivity|].
            rewrite Hb2, string_app_assoc, string_app_cons,
              string_app_nil_l. reflexivity. }
      destruct Hb' as (b' & -> & ->).
      rewrite string_app_assoc in E.
      apply (prefix_slash_free n b' n Hn) in E.
      rewrite (occurs_suffix n a b' Hocc) in E. discriminate. }
  unfold sql_replace, string_replace.
  destruct n as [|c n]; [congruence|exact Hgoal].
Qed.

Lemma prefix_slash_cons (c : ascii) (s : string) :
  String.prefix "/" (String c s) = false -> Ascii.eqb "/"%char c = false.
Proof.
  cbn [String.prefix]. destruct (ascii_dec "/" c) as [<-|Hne].
  - rewrite prefix_nil. discriminate.
  - intros _. apply Ascii.eqb_neq. exact Hne.
Qed.

Lemma trim_folder (d : string) :
  slash_ended d = false -> sql_trim (d +:+ "/") "/" = d.
Proof.
  unfold slash_ended. intros H. apply orb_false_iff in H as [Hl Hr].
  destruct d as [|c d]; [reflexivity|].
  unfold sql_trim. rewrite string_app_cons.
  rewrite ltrim_stop
    by (cbn [string_mem]; rewrite (prefix_slash_cons _ _ Hl); reflexivity).
  rewrite <- string_app_cons. unfold sql_rtrim.
  rewrite rev_app. change (string_rev "/") with (String slash "").
  rewrite string_app_cons, string_app_nil_l.
  cbn [sql_ltrim string_mem]. rewrite Ascii.eqb_refl. cbn [orb].
  destruct (string_rev (String c d)) as [|c2 t] eqn:Erev.
  { rewrite rev_cons in Erev. destruct (string_rev d);
      rewrite ?string_app_cons, ?string_app_nil_l in Erev; discriminate. }
  rewrite ltrim_stop
    by (cbn [string_mem]; rewrite (prefix_slash_cons _ _ Hr); reflexivity).
  rewrite <- Erev. apply rev_involutive.
Qed.

Lemma has_folder_app (d : string) (rows rows' : list Row) :
  has_folder d (rows ++ rows') = has_folder d rows || has_folder d rows'.
Proof. unfold has_folder. apply existsb_app. Qed.

Lemma has_folder_dirs (d : string) (rows : list Row) :
  existsb (String.eqb d)
    (List.map r_path (List.filter (fun r => type_code (r_type r) =? 1) rows))
  = has_folder d rows.
Proof.
  unfold has_folder. induction rows as [|r rows IH]; [reflexivity|].
  cbn [List.filter existsb].
  destruct (type_code (r_type r) =? 1); cbn [List.map existsb].
  - rewrite IH, andb_true_r, String.eqb_sym. reflexivity.
  - rewrite IH, andb_false_r. reflexivity.
Qed.

Lemma has_folder_new (mtime : Z) (d : string) (folders : list string) :
  In d folders ->
  has_folder d (List.map (folder_row mtime) folders) = true.
Proof.
  intros Hin. unfold has_folder. apply List.existsb_exists.
  exists (folder_row mtime d). split; [apply List.in_map; exact Hin|].
  cbn [folder_row r_path r_type type_code]. rewrite String.eqb_refl.
  reflexivity.
Qed.

(** The query reports the folder of a file [d/n] when the folder has no
    row of its own. *)
Lemma folder_query_reports (rows : list Row) (r : Row) (d n : string) :
  In r rows -> r_type r <> Directory -> r_path r = d +:+ "/" +:+ n ->
  n <> "" -> string_mem slash n = false -> occurs n d = false ->
  slash_ended d = false ->
  has_folder d rows = false ->
  In d (folder_consistency_query rows).
Proof.
  intros Hin Htype Hpath Hne Hn Hocc Hd Hnone.
  unfold folder_consistency_query.
  apply List.in_map_iff. exists (r_path r, d). split; [reflexivity|].
  apply List.filter_In. split.
  - apply List.in_map_iff. exists (r_path r, d +:+ "/").
    split; [cbn [fst snd]; rewrite (trim_folder d Hd); reflexivity|].
    apply List.filter_In. split.
    + apply List.in_map_iff. exists r. split.
      * rewrite Hpath at 2. rewrite (folder_column_file d n Hne Hn Hocc).
        reflexivity.
      * apply List.filter_In. split; [exact Hin|].
        destruct (r_type r); try reflexivity. congruence.
    + cbn [snd]. rewrite string_length_app. cbn [String.length].
      apply Z.ltb_lt. lia.
  - cbn [snd]. rewrite has_folder_dirs, Hnone. reflexivity.
Qed.



(* ================================================================ *)
(** ** A cancelled [addToIndex] *)

Lemma add_loop_frame (callback : AddCallback) (pathList : list string)
      (w w' : World) (o : Outcome bool) :
  w_txn w = true ->
  add_loop callback pathList w = (o, w') ->
  add_frame w w'.
Proof.
  revert w. induction pathList as [|p rest IH]; intros w Htxn Hrun.
  - injection Hrun as <- <-. apply add_frame_refl, Htxn.
  - simpl in Hrun. unfold bind in Hrun.
    destruct (add_path callback p w) as [o1 w1] eqn:E1.
    destruct (add_path_spec callback p w w1 o1 Htxn E1) as [F1 _].
    destruct o1 as [[|]|e|].
    + eapply add_frame_trans; [exact F1|].
      apply IH; [apply F1|exact Hrun].
    + injection Hrun as <- <-. exact F1.
    + injection Hrun as <- <-. exact F1.
    + injection Hrun as <- <-. exact F1.
Qed.

(** When the callback cancels, [addToIndex] returns with its transaction
    still open: nothing is committed and nothing is rolled back. *)
Lemma addToIndex_cancelled (p0 : string) (paths pathList : list string)
      (callback : AddCallback) (w w' : World) :
  w_txn w = false ->
  getIndexPathList (w_fs w) (p0 :: paths) = inr pathList ->
  add_loop callback pathList (begun w) = (Ret false, w') ->
  addToIndex (p0 :: paths) callback w = (Ret tt, w')
  /\ w_txn w' = true /\ w_disk w' = w_disk w
  /\ last_edit (w_db w') = last_edit (w_db w).
Proof.
  intros Htxn Hlist Hloop. unfold addToIndex.
  unfold bind at 1. unfold get_world at 1. rewrite Hlist.
  rewrite (bind_ret_l _ _ _ _ _ (exec_begin_ok w Htxn)).
  rewrite (bind_ret_l _ _ _ _ _ Hloop). split; [reflexivity|].
  destruct (add_loop_frame callback pathList (begun w) w' _ eq_refl Hloop)
    as (_ & _ & T & K & _ & L).
  repeat split; assumption.
Qed.

(** Inside an open transaction [syncIndex], like every operation that
    begins one, is refused by the store. *)
Lemma syncIndex_in_transaction (w : World) :
  w_txn w = true ->
  syncIndex w
  = (Throw (SQLException "cannot start a transaction within a transaction"),
     w).
Proof.
  intros H. unfold syncIndex. unfold bind at 1. unfold get_world at 1.
  rewrite (bind_throw_l _ _ _ _ _ (exec_begin_refused w H)). reflexivity.
Qed.

(* ================================================================ *)
(** * The properties of the specification *)

(** C2, amended.  A mutation that removes an entry removes the build
    folder keyed by the hash of the entry: [deleteFromIndex] removes the
    build folders of all matched rows and only then deletes the rows, and
    the Deleted branch of [syncIndex] deletes the row and removes the build
    folder of its hash.  A mutation that only changes the stored hash (the
    Modified branch of [syncIndex], the update branch of [addToIndex])
    rewrites the row and leaves every build folder in place. *)
Theorem build_folder_invalidation :
  (forall query isFolder callback w,
      exists count w' evs,
        deleteFromIndex query isFolder callback w = (Ret count, w')
        /\ (forall r,
               In r (delete_matches query isFolder (entries (w_db w))) ->
               ~ In r (entries (w_db w'))
               /\ (getText (r_hash r) <> "" ->
                   getText (r_hash r) ∉ w_builds w'))
        /\ Forall is_removal_event evs
        /\ w_trace w' =
           (w_trace w ++ evs
              ++ (if 0 <? count
                  then [EvDeleteLike (delete_pattern query isFolder)]
                  else []))%list)
  /\ (forall r w,
         row_status (w_fs w) r = Deleted ->
         exists w',
           sync_row r w = (Ret true, w')
           /\ entries (w_db w') = delete_path (r_path r) (entries (w_db w))
           /\ (getText (r_hash r) <> "" ->
               getText (r_hash r) ∉ w_builds w'))
  /\ (forall r w,
         row_status (w_fs w) r = Modified ->
         exists node w',
           w_fs w (rootJoin (r_path r)) = Some node
           /\ sync_row r w = (Ret true, w')
           /\ entries (w_db w')
              = update_path (parsed_entry (rootJoin (r_path r)) node)
                  (entries (w_db w))
           /\ w_builds w' = w_builds w)
  /\ (forall callback p w,
         w_txn w = true ->
         w_builds (snd (add_path callback p w)) = w_builds w).
Proof.
  split; [exact deleteFromIndex_builds|].
  split; [exact sync_row_deleted|].
  split; [exact sync_row_modified|exact add_path_builds].
Qed.

(** C3.  [checkUpdate] on an entry with stored mtime and hash: Deleted
    when the file is missing; NotModified for a directory; NotModified,
    with no hash computed, when the mtime of the file is the stored one,
    whatever the content; when the mtime differs the SHA-256 of the file
    is computed and the status is NotModified if it is the stored hash and
    Modified otherwise.  A row found NotModified is not updated by
    [syncIndex]. *)
Theorem checkUpdate_cases (e : Entry) (p : string) (dbMtime : Z)
        (dbHash : string) (w : World) :
  (w_fs w p = None ->
   checkUpdate e p dbMtime dbHash w = (Ret (Deleted, e), w))
  /\ (forall dm, w_fs w p = Some (NDir dm) ->
                 checkUpdate e p dbMtime dbHash w = (Ret (NotModified, e), w))
  /\ (forall size content,
         w_fs w p = Some (NFile dbMtime size content) ->
         checkUpdate e p dbMtime dbHash w
         = (Ret (NotModified, set_mtime e dbMtime), w))
  /\ (forall mtime size content,
         w_fs w p = Some (NFile mtime size content) ->
         mtime <> dbMtime ->
         sha256 content = dbHash ->
         checkUpdate e p dbMtime dbHash w
         = (Ret (NotModified, set_hash (set_mtime e mtime) (sha256 content)),
            add_event (EvHash p) w))
  /\ (forall mtime size content,
         w_fs w p = Some (NFile mtime size content) ->
         mtime <> dbMtime ->
         sha256 content <> dbHash ->
         checkUpdate e p dbMtime dbHash w
         = (Ret (Modified, set_hash (set_mtime e mtime) (sha256 content)),
            add_event (EvHash p) w))
  /\ (forall r,
         row_status (w_fs w) r = NotModified ->
         exists w', sync_row r w = (Ret false, w') /\ w_db w' = w_db w).
Proof.
  split; [apply checkUpdate_missing|].
  split; [intros dm; apply checkUpdate_directory|].
  split; [intros size content; apply checkUpdate_same_mtime|].
  split.
  { intros mtime size content Hfs Hne Hh.
    rewrite (checkUpdate_other_mtime _ _ _ _ _ _ _ _ Hfs Hne).
    rewrite Hh, String.eqb_refl. reflexivity. }
  split.
  { intros mtime size content Hfs Hne Hh.
    rewrite (checkUpdate_other_mtime _ _ _ _ _ _ _ _ Hfs Hne).
    assert (String.eqb dbHash (sha256 content) = false) as ->
        by (apply String.eqb_neq; congruence).
    reflexivity. }
  intros r Hst. destruct (sync_row_clean r w Hst) as (w' & E & Hw).
  exists w'. split; [exact E|apply Hw].
Qed.

(** C4.  In every committed state of the index a row of type Directory
    has an empty hash, a null meta, size 0 and neither a point nor a
    polygon geometry; the row that [addFolder] inserts for
    [createMissingFolders] is such a row. *)
Theorem directory_rows_invariant (w : World) :
  reachable w ->
  (forall r, In r (entries (w_disk w)) ->
             r_type r = Directory -> directory_columns r)
  /\ (forall path mtime w0,
         has_path path (entries (w_db w0)) = false ->
         exists w1 r,
           addFolder path mtime w0 = (Ret tt, w1)
           /\ entries (w_db w1) = (entries (w_db w0) ++ [r])%list
           /\ r_path r = path /\ r_type r = Directory
           /\ directory_columns r).
Proof.
  intros Hreach. split.
  - intros r Hr Hty. destruct (reachable_ok w Hreach) as [_ Hdisk].
    apply (proj1 (List.Forall_forall _ _) Hdisk r Hr Hty).
  - intros path mtime w0 Hhas. unfold addFolder.
    rewrite sql_insert_ok by exact Hhas.
    eexists _, _. split; [reflexivity|]. split; [reflexivity|].
    split; [reflexivity|]. split; [reflexivity|].
    apply addFolder_row_shape.
Qed.

(** C6, amended.  [removeFromIndex] fails, with the error "No matching
    entries", if and only if its list of paths is not empty and some input
    path matches no entry when its turn comes (after the removals of the
    paths before it); it succeeds if and only if every input path matches
    at least one entry at its turn. *)
Theorem removeFromIndex_fails_iff (paths : list string)
        (callback : RemoveCallback) (w : World) :
  (forall c, ceq c c = true) ->
  ((exists w', removeFromIndex paths callback w
               = (Throw (FSException "No matching entries"), w'))
   <-> unmatched_input callback paths w)
  /\ ((exists w', removeFromIndex paths callback w = (Ret tt, w'))
      <-> ~ unmatched_input callback paths w).
Proof.
  intros Hrefl.
  assert (Hcases :
    (unmatched_input callback paths w
     /\ exists w', removeFromIndex paths callback w
                   = (Throw (FSException "No matching entries"), w'))
    \/ (~ unmatched_input callback paths w
        /\ exists w', removeFromIndex paths callback w = (Ret tt, w'))).
  { unfold removeFromIndex. destruct paths as [|p0 paths].
    - right. split.
      + intros (pre & q & post & w1 & Hp & _). destruct pre; discriminate.
      + exists w. reflexivity.
    - destruct (remove_loop_spec callback (p0 :: paths) w Hrefl)
        as [[Hun [w' E]]|[Hun [w' E]]].
      + left. split; [exact Hun|]. exists w'.
        rewrite (bind_throw_l _ _ _ _ _ E). reflexivity.
      + right. split; [exact Hun|].
        rewrite (bind_ret_l _ _ _ _ _ E). apply setLastUpdate_eq. }
  destruct Hcases as [[Hun [w' E]]|[Hun [w' E]]].
  - split; split.
    + intros _. exact Hun.
    + intros _. exists w'. exact E.
    + intros [w'' E']. rewrite E in E'. discriminate.
    + intros Hno. contradiction.
  - split; split.
    + intros [w'' E']. rewrite E in E'. discriminate.
    + intros Hyes. contradiction.
    + intros _. exact Hun.
    + intros _. exists w'. exact E.
Qed.

(** C7, amended.  On an index whose rows are each either unchanged on disk
    or among the rows the add examines, an [addToIndex] that runs to its
    end followed by [syncIndex], with no change of the file system in
    between, leaves the index as the add left it: the sync updates and
    deletes no row, removes no build folder and does not touch the
    last-edit timestamp. *)
Theorem add_then_sync_noop (paths : list string) (callback : AddCallback)
        (w w1 : World) :
  w_txn w = false ->
  List.NoDup (List.map r_path (entries (w_db w))) ->
  never_cancels callback ->
  (forall p, In p (listed (w_fs w) paths) ->
             w_fs w (rootJoin (relativeTo p)) = w_fs w p) ->
  (forall r, In r (entries (w_db w)) ->
             row_clean (w_fs w) r
             \/ In (r_path r) (examined_paths (listed (w_fs w) paths))) ->
  addToIndex paths callback w = (Ret tt, w1) ->
  exists w2,
    syncIndex w1 = (Ret tt, w2)
    /\ w_db w2 = w_db w1 /\ w_disk w2 = w_db w1
    /\ w_builds w2 = w_builds w1
    /\ exists evs, w_trace w2 = (w_trace w1 ++ evs)%list
                   /\ Forall is_quiet_event evs.
Proof.
  intros Htxn Hnd Hnc Hjoin Hrows Hadd.
  destruct (addToIndex_leaves_clean paths callback w w1
              Htxn Hnd Hnc Hjoin Hrows Hadd) as (_ & Htxn1 & Hclean).
  destruct (syncIndex_clean w1 Htxn1 Hclean)
    as (w2 & E & _ & Hdb & Hdisk & Hb & _ & Hev).
  exists w2. repeat split; assumption.
Qed.


(** C9.  After the checks of the endpoints that come first in
    [moveEntry], for two different, non-empty endpoints: [moveEntry]
    fails with an argument error when the source is a Directory entry and
    any entry exists at [dest], and when the source is a file entry and the
    entry at [dest] is a Directory; when both are file entries and the
    endpoints pass the checks for trailing separators and dot segments, the
    row at [dest] is deleted first, then the row at [source] is rewritten
    to [dest], and the move is committed. *)
Theorem moveEntry_onto_existing (source dest : string) (w : World)
        (rs rd : Row) :
  source <> "" -> dest <> "" -> source <> dest ->
  find_row source (entries (w_db w)) = Some rs ->
  find_row dest (entries (w_db w)) = Some rd ->
  (r_type rs = Directory ->
   exists msg,
     moveEntry source dest w = (Throw (InvalidArgsException msg), w))
  /\ (r_type rs <> Directory -> r_type rd = Directory ->
      exists msg,
        moveEntry source dest w = (Throw (InvalidArgsException msg), w))
  /\ (r_type rs <> Directory -> r_type rd <> Directory ->
      trailing_separator source = Some false ->
      hasDotNotation source = false ->
      trailing_separator dest = Some false ->
      hasDotNotation dest = false ->
      w_txn w = false ->
      moveEntry source dest w = (Ret tt, moved_file_world source dest w)
      /\ w_trace (moved_file_world source dest w)
         = (w_trace w ++ [EvBegin; EvDelete dest; EvRename source dest;
                          EvCommit; EvSetLastUpdate])%list
      /\ entries (w_db (moved_file_world source dest w))
         = rename_path source dest (path_depth dest)
             (delete_path dest (entries (w_db w)))).
Proof.
  intros Hs Hd Hne Hrs Hrd.
  assert (Hrefuse :
    r_type rs = Directory \/ r_type rd = Directory ->
    exists msg,
      moveEntry source dest w = (Throw (InvalidArgsException msg), w)).
  { intros Hty.
    destruct (moveEntry_checks source dest w Hs Hd Hne)
      as [Hthrow|(_ & _ & _ & _ & E)]; [exact Hthrow|].
    rewrite E. apply (move_entries_refused source dest w rs rd Hrs Hrd Hty). }
  split; [intros Hty; apply Hrefuse; left; exact Hty|].
  split; [intros _ Hty; apply Hrefuse; right; exact Hty|].
  intros Hts Htd Hss Hsd Hds Hdd Htxn.
  rewrite (moveEntry_after_checks source dest w Hss Hsd Hds Hdd Hne).
  split.
  - apply (move_entries_file source dest w rs Htxn Hrs Hts).
    intros rd' Hrd'. congruence.
  - unfold moved_file_world. simpl.
    rewrite (find_row_has_path _ _ _ Hrd). split; reflexivity.
Qed.

(** C10.  [moveEntry] reads [source[source.length() - 1]] and
    [dest[dest.length() - 1]] without a test for an empty string.  For a
    non-empty string the index is at most the index of the last character,
    and the read is in bounds; for the empty string it is [2^64 - 1] and
    the read is out of bounds, so [moveEntry] with an empty [source], or
    with an empty [dest] once the checks on [source] are passed, is
    undefined; with both endpoints non-empty nothing in [moveEntry] is. *)
Theorem moveEntry_nonempty_endpoints :
  (forall s, s <> "" ->
             0 <= last_index s < Z.of_nat (String.length s)
             /\ exists c, string_at s (last_index s) = Some c)
  /\ (last_index "" = 2 ^ 64 - 1 /\ string_at "" (last_index "") = None)
  /\ (forall dest w, moveEntry "" dest w = (Undef, w))
  /\ (forall source w,
         trailing_separator source = Some false ->
         hasDotNotation source = false ->
         moveEntry source "" w = (Undef, w))
  /\ (forall source dest w,
         source <> "" -> dest <> "" ->
         fst (moveEntry source dest w) <> Undef).
Proof.
  split.
  { intros s Hs. split; [apply last_index_nonempty, Hs|].
    apply string_at_in_bounds, last_index_nonempty, Hs. }
  split; [split; reflexivity|].
  split; [exact moveEntry_empty_source|].
  split; [exact moveEntry_empty_dest|].
  intros source dest w Hs Hd. apply moveEntry_defined_after_checks.
  - destruct (trailing_separator_nonempty source Hs) as [b ->]. discriminate.
  - destruct (trailing_separator_nonempty dest Hd) as [b ->]. discriminate.
Qed.

(* ================================================================== *)
(** ** Further properties of the operations *)

(* ------------------------------------------------------------------ *)
(** *** The patterns of [deleteFromIndex] and [getMatchingEntries] *)

Lemma sanitize_app (a b : string) :
  sanitize_query_param (a +:+ b)
  = sanitize_query_param a +:+ sanitize_query_param b.
Proof.
  induction a as [|c a IH].
  - rewrite sanitize_nil, !string_app_nil_l. reflexivity.
  - rewrite string_app_cons, !sanitize_cons, IH, string_app_assoc.
    reflexivity.
Qed.

Lemma sanitize_is_empty (q : string) :
  is_empty (sanitize_query_param q) = is_empty q.
Proof.
  destruct q as [|c q]; [reflexivity|].
  rewrite sanitize_cons. unfold escape_char.
  destruct (Ascii.eqb c slash); [reflexivity|].
  destruct (Ascii.eqb c percent); [reflexivity|].
  destruct (Ascii.eqb c underscore); [reflexivity|].
  destruct (Ascii.eqb c star); reflexivity.
Qed.

Lemma delete_pattern_eq (query : string) (isFolder : bool) :
  delete_pattern query isFolder
  = sanitize_query_param (query +:+ (if isFolder then "/*" else "")).
Proof.
  unfold delete_pattern. destruct isFolder.
  - rewrite sanitize_app. reflexivity.
  - rewrite string_app_nil_r. reflexivity.
Qed.

Lemma match_pattern_eq (query : string) (isFolder : bool) :
  match_pattern query isFolder
  = sanitize_query_param
      ((if is_empty query then "*" else query)
         +:+ (if isFolder then "/*" else "")).
Proof.
  unfold match_pattern.
  assert (He : (if Nat.eqb (String.length (sanitize_query_param query)) 0
                then "%" else sanitize_query_param query)
               = sanitize_query_param
                   (if is_empty query then "*" else query)).
  { rewrite <- (sanitize_is_empty query).
    destruct (sanitize_query_param query) eqn:E; [reflexivity|].
    cbn [String.length Nat.eqb is_empty]. symmetry. exact E. }
  rewrite He. destruct isFolder.
  - rewrite sanitize_app. reflexivity.
  - rewrite string_app_nil_r. reflexivity.
Qed.

(** X3.  The LIKE patterns that [deleteFromIndex] and [getMatchingEntries]
    build from a query match as the query read with [*] for any run of
    characters and every other character for itself; for a folder the
    query is followed by [/*], so the paths below the folder match and the
    folder itself does not need to; [getMatchingEntries] reads an empty
    query as [*]. *)
Theorem query_patterns_read_as_globs (query : string) (isFolder : bool)
        (p : string) :
  like_escaped (delete_pattern query isFolder) p
  = glob ceq (query +:+ (if isFolder then "/*" else "")) p
  /\ like_escaped (match_pattern query isFolder) p
     = glob ceq ((if is_empty query then "*" else query)
                   +:+ (if isFolder then "/*" else "")) p.
Proof.
  rewrite delete_pattern_eq, match_pattern_eq, !like_sanitize.
  split; reflexivity.
Qed.

(* ------------------------------------------------------------------ *)
(** *** [deleteFromIndex] *)

Lemma deleteFromIndex_no_match (query : string) (isFolder : bool)
      (callback : RemoveCallback) (w : World) :
  delete_matches query isFolder (entries (w_db w)) = [] ->
  deleteFromIndex query isFolder callback w = (Ret 0, w).
Proof.
  unfold delete_matches, deleteFromIndex. intros H.
  unfold bind at 1. unfold get_world at 1. cbv beta iota zeta.
  rewrite H. reflexivity.
Qed.

Lemma filter_filter_negb_none {A} (f : A -> bool) (l : list A) :
  List.filter f (List.filter (fun x => negb (f x)) l) = [].
Proof.
  induction l as [|x l IH]; [reflexivity|].
  cbn [List.filter]. destruct (f x) eqn:E; cbn [negb]; [exact IH|].
  cbn [List.filter]. rewrite E. exact IH.
Qed.

(** X4.  [deleteFromIndex] returns the number of rows whose path matches
    the pattern and leaves the other rows as they were, in their order; a
    second call with the same query finds nothing: it returns zero and
    changes nothing, whatever the callback. *)
Theorem deleteFromIndex_idempotent (query : string) (isFolder : bool)
        (callback callback' : RemoveCallback) (w : World) :
  exists w1,
    deleteFromIndex query isFolder callback w
    = (Ret (Z.of_nat
              (List.length
                 (List.filter
                    (fun r => like_escaped (delete_pattern query isFolder)
                                (r_path r))
                    (entries (w_db w))))), w1)
    /\ entries (w_db w1)
       = List.filter
           (fun r => negb (like_escaped (delete_pattern query isFolder)
                             (r_path r)))
           (entries (w_db w))
    /\ deleteFromIndex query isFolder callback' w1 = (Ret 0, w1).
Proof.
  destruct (deleteFromIndex_spec query isFolder callback w)
    as (w1 & Hrun & _ & _ & _ & Hrows & _).
  exists w1. split; [exact Hrun|]. split; [exact Hrows|].
  apply deleteFromIndex_no_match. unfold delete_matches. rewrite Hrows.
  apply (filter_filter_negb_none
           (fun r => like_escaped (delete_pattern query isFolder)
                       (r_path r))).
Qed.

(** X5.  [deleteFromIndex] leaves the file system, the clock and the
    last-edit timestamp alone and creates no build folder; a build folder
    is there afterwards exactly when it was there before and its hash is
    not the hash of a removed row.  So the build folder of a row that
    stays is removed all the same when a removed row has the same hash. *)
Theorem deleteFromIndex_build_folders (query : string) (isFolder : bool)
        (callback : RemoveCallback) (w : World) :
  exists count w1,
    deleteFromIndex query isFolder callback w = (Ret count, w1)
    /\ w_fs w1 = w_fs w /\ w_time w1 = w_time w /\ w_txn w1 = w_txn w
    /\ last_edit (w_db w1) = last_edit (w_db w)
    /\ forall h,
         h ∈ w_builds w1
         <-> h ∈ w_builds w
             /\ (h = ""
                 \/ forall r,
                      In r (delete_matches query isFolder
                              (entries (w_db w))) ->
                      getText (r_hash r) <> h).
Proof.
  clear sha256 classify extract_meta extract_point extract_polygon
        relativeTo rootJoin hasDotNotation getIndexPathList.
  destruct (deleteFromIndex_spec query isFolder callback w)
    as (w1 & Hrun & Hfs & Htxn & Htime & _ & Hedit & Hb & _).
  eexists. exists w1. split; [exact Hrun|].
  split; [exact Hfs|]. split; [exact Htime|]. split; [exact Htxn|].
  split; [exact Hedit|].
  intros h. rewrite Hb, elem_of_difference, elem_of_list_to_set.
  unfold build_hashes.
  rewrite list_elem_of_In, List.filter_In, List.in_map_iff.
  split.
  - intros [Hin Hnot]. split; [exact Hin|].
    destruct (String.eqb h "") eqn:Eh.
    + left. apply String.eqb_eq. exact Eh.
    + right. intros r Hr Heq. apply Hnot. split.
      * exists r. split; [exact Heq|exact Hr].
      * destruct h; [discriminate|reflexivity].
  - intros [Hin Hcase]. split; [exact Hin|].
    intros [(r & Heq & Hr) Hne].
    destruct Hcase as [He|Hall].
    + subst h. discriminate.
    + exact (Hall r Hr Heq).
Qed.

(* ------------------------------------------------------------------ *)
(** *** [getMatchingEntries] *)

(** X6.  [getMatchingEntries] reads the table and changes nothing.  A
    negative depth is refused; otherwise the result holds, in table order,
    the entries whose path matches the query, read with [*] for any run
    of characters, and, for a positive [maxRecursionDepth], whose depth
    is below it; a depth of zero sets no limit. *)
Theorem getMatchingEntries_result (path : string) (maxRecursionDepth : Z)
        (isFolder : bool) (w : World) :
  (maxRecursionDepth < 0 ->
   getMatchingEntries path maxRecursionDepth isFolder w
   = (Throw (FSException "Max recursion depth cannot be negative"), w))
  /\ (0 <= maxRecursionDepth ->
      getMatchingEntries path maxRecursionDepth isFolder w
      = (Ret (List.map entry_of_row
                (List.filter
                   (fun r =>
                      glob ceq ((if is_empty path then "*" else path)
                                  +:+ (if isFolder then "/*" else ""))
                           (r_path r)
                      && ((maxRecursionDepth =? 0)
                          || (r_depth r <? maxRecursionDepth)))
                   (entries (w_db w)))), w)).
Proof.
  unfold getMatchingEntries. split; intros Hd.
  - apply Z.ltb_lt in Hd. rewrite Hd. reflexivity.
  - destruct (maxRecursionDepth <? 0) eqn:E; [apply Z.ltb_lt in E; lia|].
    unfold bind, get_world, ret. f_equal. f_equal. f_equal.
    apply List.filter_ext. intros r.
    rewrite match_pattern_eq, like_sanitize.
    f_equal.
    destruct (0 <? maxRecursionDepth) eqn:E1.
    + apply Z.ltb_lt in E1.
      replace (maxRecursionDepth =? 0) with false
        by (symmetry; apply Z.eqb_neq; lia).
      cbn [orb].
      destruct (r_depth r <=? maxRecursionDepth - 1) eqn:E2;
        destruct (r_depth r <? maxRecursionDepth) eqn:E3;
        try reflexivity;
        [apply Z.leb_le in E2; apply Z.ltb_ge in E3; lia
        |apply Z.leb_gt in E2; apply Z.ltb_lt in E3; lia].
    + apply Z.ltb_ge in E1.
      replace (maxRecursionDepth =? 0) with true
        by (symmetry; apply Z.eqb_eq; lia).
      reflexivity.
Qed.

(* ------------------------------------------------------------------ *)
(** *** [syncIndex] *)

Lemma in_transaction_refl (w : World) : w_txn w = true -> in_transaction w w.
Proof. intros H. unfold in_transaction. repeat split; assumption. Qed.

Lemma in_transaction_trans (w1 w2 w3 : World) :
  in_transaction w1 w2 -> in_transaction w2 w3 -> in_transaction w1 w3.
Proof.
  intros (T1 & F1 & C1 & L1 & D1) (T2 & F2 & C2 & L2 & D2).
  unfold in_transaction. repeat split; congruence.
Qed.

Lemma row_status_on_disk (fs : FS) (r : Row) :
  on_disk fs r = negb (status_eqb (row_status fs r) Deleted).
Proof.
  unfold on_disk, row_status, file_status.
  destruct (fs (rootJoin (r_path r))) as [[dm|m s c]|];
    [reflexivity| |reflexivity].
  destruct (m =? r_mtime r); [reflexivity|].
  destruct (String.eqb _ _); reflexivity.
Qed.

Lemma delete_path_paths (p : string) (rows : list Row) :
  List.map r_path (delete_path p rows)
  = List.filter (fun q => negb (String.eqb q p)) (List.map r_path rows).
Proof.
  unfold delete_path. induction rows as [|r rows IH]; [reflexivity|].
  cbn [List.filter List.map].
  destruct (String.eqb (r_path r) p); cbn [negb List.map];
    rewrite IH; reflexivity.
Qed.

Lemma hash_of_removed_false (keep : Row -> bool) (rows : list Row)
      (h : string) :
  hash_of_removed keep rows h = false <->
  (h = ""
   \/ forall r, In r rows -> keep r = false -> getText (r_hash r) <> h).
Proof.
  unfold hash_of_removed. split.
  - intros H. destruct h as [|c h]; [left; reflexivity|right].
    cbn [is_empty negb andb] in H.
    intros r Hr Hk Hh.
    assert (Hex : existsb (fun r => negb (keep r)
                                    && String.eqb (getText (r_hash r))
                                         (String c h)) rows = true).
    { apply List.existsb_exists. exists r. split; [exact Hr|].
      rewrite Hk, Hh, String.eqb_refl. reflexivity. }
    rewrite Hex in H. discriminate.
  - intros [->|Hall]; [reflexivity|].
    destruct (existsb _ rows) eqn:Hex; [|apply andb_false_r].
    apply List.existsb_exists in Hex as (r & Hr & Hm).
    apply andb_true_iff in Hm as [Hk Hh].
    apply negb_true_iff in Hk. apply String.eqb_eq in Hh.
    exfalso. exact (Hall r Hr Hk Hh).
Qed.

(** One turn of the loop of [syncIndex], inside the transaction. *)
Lemma sync_row_run (r : Row) (w : World) :
  w_txn w = true ->
  exists w',
    sync_row r w = (Ret (row_changed (w_fs w) r), w')
    /\ List.map r_path (entries (w_db w'))
       = (if on_disk (w_fs w) r then List.map r_path (entries (w_db w))
          else List.filter (fun q => negb (String.eqb q (r_path r)))
                 (List.map r_path (entries (w_db w))))
    /\ w_builds w'
       = (if on_disk (w_fs w) r || is_empty (getText (r_hash r))
          then w_builds w
          else w_builds w ∖ {[ getText (r_hash r) ]})
    /\ in_transaction w w'.
Proof.
  clear hasDotNotation ceq.
  intros Htxn. rewrite row_status_on_disk. unfold row_changed.
  destruct (row_status (w_fs w) r) eqn:Hst.
  - destruct (sync_row_clean r w Hst)
      as (w' & E & F & B & D & K & T & C & _).
    exists w'. split; [exact E|]. cbn [status_eqb negb orb]. rewrite D.
    split; [reflexivity|]. split; [exact B|]. unfold in_transaction.
    rewrite T, F, C, D, K. repeat split. exact Htxn.
  - destruct (row_status_modified r w Hst) as (m & s & c & Hfs & Hm & Hh).
    unfold sync_row.
    rewrite (bind_ret_l _ _ _ _ _
               (checkUpdate_other_mtime _ _ _ _ _ _ _ _ Hfs Hm)).
    cbv beta zeta. rewrite Hh. cbn [fst snd]. cbv iota.
    assert (Hfs' : w_fs (add_event (EvHash (rootJoin (r_path r))) w)
                     (rootJoin (r_path r)) = Some (NFile m s c))
      by exact Hfs.
    rewrite (bind_ret_l _ _ _ _ _ (parseEntry_found _ _ _ _ Hfs')).
    eexists. split; [reflexivity|]. cbn [status_eqb negb orb].
    split; [|split].
    + cbn. rewrite update_path_paths. reflexivity.
    + reflexivity.
    + unfold in_transaction. cbn. rewrite Htxn. repeat split.
  - pose proof (row_status_deleted r w Hst) as Hfs.
    unfold sync_row.
    rewrite (bind_ret_l _ _ _ _ _ (checkUpdate_missing _ _ _ _ _ Hfs)).
    cbv beta zeta. cbn [fst snd]. cbv iota.
    rewrite (bind_ret_l _ _ _ _ _ (sql_delete_eq _ w)).
    set (w1 := add_event _ _).
    destruct (checkDeleteBuild_spec (getText (r_hash r)) w1)
      as (w2 & E2 & F2 & D2 & K2 & T2 & C2 & B2 & _).
    rewrite (bind_ret_l _ _ _ _ _ E2).
    eexists. split; [reflexivity|]. cbn [status_eqb negb orb].
    split; [|split].
    + cbn. rewrite D2. subst w1. cbn. apply delete_path_paths.
    + cbn. rewrite B2. reflexivity.
    + unfold in_transaction. cbn. rewrite T2, F2, C2, D2, K2.
      subst w1. cbn. rewrite Htxn. repeat split.
Qed.

Lemma filter_filter {A} (f g : A -> bool) (l : list A) :
  List.filter f (List.filter g l)
  = List.filter (fun x => g x && f x) l.
Proof.
  induction l as [|x l IH]; [reflexivity|].
  cbn [List.filter]. destruct (g x); cbn [andb List.filter].
  - destruct (f x); rewrite IH; reflexivity.
  - exact IH.
Qed.

(** The loop of [syncIndex] over the fetched rows: a path stays unless the
    file of a fetched row with this path is gone, and a build folder
    stays unless it is the folder of the hash of such a row. *)
Lemma sync_loop_run (rows : list Row) (changed : bool) (w : World) :
  w_txn w = true ->
  exists w',
    sync_loop rows changed w
    = (Ret (changed || existsb (row_changed (w_fs w)) rows), w')
    /\ List.map r_path (entries (w_db w'))
       = List.filter
           (fun q =>
              negb (existsb (fun r => String.eqb q (r_path r)
                                      && negb (on_disk (w_fs w) r)) rows))
           (List.map r_path (entries (w_db w)))
    /\ (forall h, h ∈ w_builds w' <->
                  h ∈ w_builds w /\ hash_of_removed (on_disk (w_fs w)) rows h = false)
    /\ in_transaction w w'.
Proof.
  clear hasDotNotation ceq.
  revert changed w. induction rows as [|r rows IH]; intros changed w Htxn.
  - exists w. cbn [sync_loop existsb]. rewrite orb_false_r.
    split; [reflexivity|]. split; [|split].
    + cbn [negb]. induction (List.map r_path (entries (w_db w)))
        as [|q l IHl]; [reflexivity|].
      cbn [List.filter]. rewrite <- IHl. reflexivity.
    + intros h. unfold hash_of_removed. cbn [existsb].
      rewrite andb_false_r. split; [intros H; split; [exact H|reflexivity]|].
      intros [H _]. exact H.
    + apply in_transaction_refl. exact Htxn.
  - destruct (sync_row_run r w Htxn) as (w1 & E1 & P1 & B1 & F1).
    cbn [sync_loop]. rewrite (bind_ret_l _ _ _ _ _ E1).
    assert (Htxn1 : w_txn w1 = true) by apply F1.
    assert (Hfs1 : w_fs w1 = w_fs w) by apply F1.
    destruct (IH (row_changed (w_fs w) r || changed) w1 Htxn1)
      as (w2 & E2 & P2 & B2 & F2).
    rewrite Hfs1 in E2, P2, B2.
    exists w2. split.
    { rewrite E2. cbn [existsb]. f_equal. f_equal.
      destruct (row_changed (w_fs w) r), changed; reflexivity. }
    split; [|split; [|eapply in_transaction_trans; eassumption]].
    + rewrite P2, P1. cbn [existsb].
      destruct (on_disk (w_fs w) r) eqn:Hd.
      * apply List.filter_ext. intros q. cbn [negb].
        rewrite andb_false_r. reflexivity.
      * rewrite filter_filter. apply List.filter_ext. intros q.
        cbn [negb]. rewrite andb_true_r, negb_orb. reflexivity.
    + intros h. rewrite B2, B1. unfold hash_of_removed. cbn [existsb].
      destruct (on_disk (w_fs w) r) eqn:Hd; cbn [negb orb andb];
        [reflexivity|].
      destruct (is_empty (getText (r_hash r))) eqn:He.
      * destruct (String.eqb_spec (getText (r_hash r)) h) as [Hh|Hh];
          [|reflexivity].
        rewrite <- Hh, He. cbn [negb andb]. reflexivity.
      * rewrite elem_of_difference, elem_of_singleton.
        destruct (String.eqb_spec (getText (r_hash r)) h) as [Hh|Hh].
        -- rewrite <- Hh, He. cbn [negb andb orb]. split.
           ++ intros [[_ Hn] _]. exfalso. apply Hn. reflexivity.
           ++ intros [_ Hf]. discriminate.
        -- cbn [orb]. split.
           ++ intros [[Hin _] Hf]. split; assumption.
           ++ intros [Hin Hf]. split; [split|]; [exact Hin| |exact Hf].
              intros Heq. apply Hh. symmetry. exact Heq.
Qed.

Lemma on_disk_same_path (fs : FS) (r r' : Row) :
  r_path r = r_path r' -> on_disk fs r = on_disk fs r'.
Proof. unfold on_disk. intros ->. reflexivity. Qed.

Lemma sync_paths_of_table (fs : FS) (rows : list Row) :
  List.filter
    (fun q => negb (existsb (fun r => String.eqb q (r_path r)
                                      && negb (on_disk fs r)) rows))
    (List.map r_path rows)
  = List.map r_path (List.filter (on_disk fs) rows).
Proof.
  assert (H : forall l,
             (forall r, In r l -> In r rows) ->
             List.filter
               (fun q => negb (existsb (fun r => String.eqb q (r_path r)
                                                 && negb (on_disk fs r))
                                 rows))
               (List.map r_path l)
             = List.map r_path (List.filter (on_disk fs) l)).
  { induction l as [|r0 l IH]; intros Hsub; [reflexivity|].
    cbn [List.map List.filter].
    rewrite IH by (intros r Hr; apply Hsub; right; exact Hr).
    destruct (on_disk fs r0) eqn:Hd.
    - replace (existsb _ rows) with false; [reflexivity|].
      symmetry. apply not_true_is_false. intros Hex.
      apply List.existsb_exists in Hex as (r & _ & Hr).
      apply andb_true_iff in Hr as [Hp Hn].
      apply String.eqb_eq in Hp.
      rewrite <- (on_disk_same_path fs r0 r Hp), Hd in Hn. discriminate.
    - replace (existsb _ rows) with true; [reflexivity|].
      symmetry. apply List.existsb_exists. exists r0.
      split; [apply Hsub; left; reflexivity|].
      rewrite String.eqb_refl, Hd. reflexivity. }
  apply H. intros r Hr. exact Hr.
Qed.

(** X7.  Outside a transaction [syncIndex] returns and commits.  The paths
    of the table are afterwards the paths whose file is still in the
    working tree, in their order.  Apart from the build folders the file
    system is not written.  Of the build folders those are removed, and
    no others, that are kept under the hash, when it is not empty, of a
    row whose file is gone.
    The last-edit timestamp is set to the current time when some row was
    found deleted or modified and is left alone otherwise. *)
Theorem syncIndex_keeps_paths_on_disk (w : World) :
  w_txn w = false ->
  exists w',
    syncIndex w = (Ret tt, w')
    /\ List.map r_path (entries (w_db w'))
       = List.map r_path (List.filter (on_disk (w_fs w)) (entries (w_db w)))
    /\ last_edit (w_db w')
       = (if existsb (row_changed (w_fs w)) (entries (w_db w))
          then w_time w else last_edit (w_db w))
    /\ w_disk w' = w_db w' /\ w_txn w' = false /\ w_fs w' = w_fs w
    /\ (forall h,
           h ∈ w_builds w' <->
           h ∈ w_builds w
           /\ (h = ""
               \/ forall r, In r (entries (w_db w)) ->
                            on_disk (w_fs w) r = false ->
                            getText (r_hash r) <> h)).
Proof.
  intros Htxn. unfold syncIndex.
  unfold bind at 1. unfold get_world at 1. cbv beta iota zeta.
  rewrite (bind_ret_l _ _ _ _ _ (exec_begin_ok w Htxn)).
  destruct (sync_loop_run (entries (w_db w)) false (begun w) eq_refl)
    as (w1 & E1 & P1 & B1 & T1 & F1 & C1 & L1 & D1).
  rewrite (bind_ret_l _ _ _ _ _ E1).
  rewrite (bind_ret_l _ _ _ _ _ (exec_commit_ok w1 T1)).
  cbn [orb begun w_fs w_db w_builds] in *.
  rewrite sync_paths_of_table in P1.
  destruct (existsb (row_changed (w_fs w)) (entries (w_db w))).
  - eexists. split; [reflexivity|]. cbn.
    do 5 (split; [first [assumption|reflexivity]|]).
    intros h. rewrite <- hash_of_removed_false. apply B1.
  - eexists. split; [reflexivity|]. cbn.
    do 5 (split; [first [assumption|reflexivity]|]).
    intros h. rewrite <- hash_of_removed_false. apply B1.
Qed.

(* ------------------------------------------------------------------ *)
(** *** [removeFromIndex] *)

Lemma filter_all {A} (l : list A) : List.filter (fun _ => true) l = l.
Proof.
  induction l as [|x l IH]; [reflexivity|].
  cbn [List.filter]. rewrite IH. reflexivity.
Qed.

Lemma hash_of_removed_all (rows : list Row) (h : string) :
  hash_of_removed (fun _ => true) rows h = false.
Proof.
  apply hash_of_removed_false. right. intros r _ Hk. discriminate.
Qed.

Lemma hash_of_removed_and (f g : Row -> bool) (rows : list Row)
      (h : string) :
  hash_of_removed (fun r => f r && g r) rows h
  = hash_of_removed f rows h || hash_of_removed g (List.filter f rows) h.
Proof.
  unfold hash_of_removed. destruct (negb (is_empty h)); [|reflexivity].
  cbn [andb]. induction rows as [|r rows IH]; [reflexivity|].
  cbn [existsb List.filter]. rewrite IH.
  destruct (f r); cbn [andb negb orb existsb].
  - destruct (g r); cbn [negb andb orb].
    + reflexivity.
    + destruct (String.eqb (getText (r_hash r)) h); cbn [orb].
      * apply eq_sym, orb_true_r.
      * reflexivity.
  - destruct (String.eqb (getText (r_hash r)) h); reflexivity.
Qed.

Lemma shrinks_refl (w : World) : shrinks w w.
Proof.
  unfold shrinks. split; [|repeat split].
  exists (fun _ => true). split; [symmetry; apply filter_all|].
  intros h. rewrite hash_of_removed_all. split.
  - intros H. split; [exact H|reflexivity].
  - intros [H _]. exact H.
Qed.

Lemma shrinks_trans (w1 w2 w3 : World) :
  shrinks w1 w2 -> shrinks w2 w3 -> shrinks w1 w3.
Proof.
  intros ((f & E1 & B1) & F1 & C1 & T1 & L1)
         ((g & E2 & B2) & F2 & C2 & T2 & L2).
  unfold shrinks. split.
  - exists (fun r => f r && g r). split.
    + rewrite E2, E1. apply filter_filter.
    + intros h. rewrite B2, B1, E1, hash_of_removed_and. split.
      * intros [[H Hf] Hg]. split; [exact H|]. rewrite Hf, Hg. reflexivity.
      * intros [H Hfg]. apply orb_false_iff in Hfg as [Hf Hg].
        split; [split|]; assumption.
  - split; [rewrite F2; exact F1|]. split; [rewrite C2; exact C1|].
    split; [rewrite T2; exact T1|]. rewrite L2. exact L1.
Qed.

Lemma shrinks_in (w w' : World) (r : Row) :
  shrinks w w' -> In r (entries (w_db w')) -> In r (entries (w_db w)).
Proof.
  intros ((f & E & _) & _) Hin. rewrite E in Hin.
  apply List.filter_In in Hin. apply Hin.
Qed.

Lemma build_hashes_removed (m : Row -> bool) (rows : list Row) (h : string) :
  In h (build_hashes (List.filter m rows)) <->
  hash_of_removed (fun r => negb (m r)) rows h = true.
Proof.
  unfold build_hashes, hash_of_removed.
  rewrite List.filter_In, List.in_map_iff, andb_true_iff,
    List.existsb_exists.
  split.
  - intros [(r & Hh & Hr) Hne]. split; [exact Hne|].
    apply List.filter_In in Hr as [Hr Hm].
    exists r. split; [exact Hr|].
    rewrite Hm, Hh, String.eqb_refl. reflexivity.
  - intros [Hne (r & Hr & Hc)].
    apply andb_true_iff in Hc as [Hm Hh].
    apply negb_true_iff, negb_false_iff in Hm.
    apply String.eqb_eq in Hh.
    split; [|exact Hne]. exists r. split; [exact Hh|].
    apply List.filter_In. split; assumption.
Qed.

Lemma deleteFromIndex_shrinks (query : string) (isFolder : bool)
      (callback : RemoveCallback) (w : World) :
  exists cnt w',
    deleteFromIndex query isFolder callback w = (Ret cnt, w')
    /\ cnt = Z.of_nat (List.length
                         (delete_matches query isFolder (entries (w_db w))))
    /\ shrinks w w'
    /\ forall r, In r (entries (w_db w')) ->
                 like_escaped (delete_pattern query isFolder) (r_path r)
                 = false.
Proof.
  clear sha256 classify extract_meta extract_point extract_polygon
        relativeTo rootJoin hasDotNotation getIndexPathList.
  destruct (deleteFromIndex_spec query isFolder callback w)
    as (w' & Hrun & Hfs & Htxn & Htime & Hrows & Hedit & Hb & _).
  eexists. exists w'. split; [exact Hrun|]. split; [reflexivity|].
  split.
  - unfold shrinks. split; [|repeat split; assumption].
    eexists. split; [exact Hrows|].
    intros h. rewrite Hb, elem_of_difference, elem_of_list_to_set.
    rewrite list_elem_of_In. unfold delete_matches.
    rewrite build_hashes_removed. split.
    + intros [H Hn]. split; [exact H|].
      apply not_true_is_false. exact Hn.
    + intros [H Hn]. split; [exact H|]. rewrite Hn. discriminate.
  - intros r Hin. rewrite Hrows in Hin.
    apply List.filter_In in Hin as [_ Hn].
    apply negb_true_iff in Hn. exact Hn.
Qed.

Lemma remove_matches_run (callback : RemoveCallback) (ms : list Entry)
      (tot : Z) (w : World) :
  exists tot' w',
    remove_matches callback ms tot w = (Ret tot', w')
    /\ tot <= tot'
    /\ shrinks w w'
    /\ forall e r, In e ms -> In r (entries (w_db w')) ->
                   like_escaped (delete_pattern (e_path e) false) (r_path r)
                   = false.
Proof.
  revert tot w. induction ms as [|e ms IH]; intros tot w.
  - exists tot, w. split; [reflexivity|]. split; [lia|].
    split; [apply shrinks_refl|]. intros e r [].
  - cbn [remove_matches].
    destruct (deleteFromIndex_shrinks (e_path e) false callback w)
      as (cnt & w1 & E1 & Hc1 & S1 & G1).
    rewrite (bind_ret_l _ _ _ _ _ E1).
    assert (Hsecond : exists cnt' w2,
               (if is_directory_type (e_type e)
                then deleteFromIndex (e_path e) true callback
                else ret 0) w1 = (Ret cnt', w2)
               /\ 0 <= cnt' /\ shrinks w1 w2).
    { destruct (is_directory_type (e_type e)).
      - destruct (deleteFromIndex_shrinks (e_path e) true callback w1)
          as (cnt' & w2 & E2 & Hc2 & S2 & _).
        exists cnt', w2. split; [exact E2|]. split; [lia|exact S2].
      - exists 0, w1. split; [reflexivity|]. split; [lia|].
        apply shrinks_refl. }
    destruct Hsecond as (cnt' & w2 & E2 & Hc2 & S2).
    rewrite (bind_ret_l _ _ _ _ _ E2).
    destruct (IH (tot + (cnt + cnt')) w2) as (tot' & w3 & E3 & Ht & S3 & G3).
    exists tot', w3. split; [exact E3|]. split; [lia|].
    split; [eapply shrinks_trans; [exact S1|];
            eapply shrinks_trans; eassumption|].
    intros e' r [<-|Hin] Hr.
    + apply G1. eapply shrinks_in; [exact S2|].
      eapply shrinks_in; [exact S3|]. exact Hr.
    + exact (G3 e' r Hin Hr).
Qed.

Lemma remove_path_run (callback : RemoveCallback) (p : string)
      (w w' : World) :
  (forall c, ceq c c = true) ->
  remove_path callback p w = (Ret tt, w') ->
  shrinks w w'
  /\ forall r, In r (entries (w_db w')) ->
               like_escaped (match_pattern (relativeTo p) false) (r_path r)
               = false.
Proof.
  intros Hrefl. unfold remove_path.
  rewrite (bind_ret_l _ _ _ _ _ (getMatchingEntries_default p w)).
  destruct (remove_matches_run callback
              (List.map entry_of_row (remove_matches_of p (entries (w_db w))))
              0 w) as (tot & w1 & E1 & _ & S1 & G1).
  rewrite (bind_ret_l _ _ _ _ _ E1).
  destruct (tot =? 0); [discriminate|].
  intros H. injection H as <-. split; [exact S1|].
  intros r Hr.
  destruct (like_escaped (match_pattern (relativeTo p) false) (r_path r))
    eqn:Hm; [|reflexivity].
  assert (Hin : In (entry_of_row r)
                   (List.map entry_of_row
                      (remove_matches_of p (entries (w_db w))))).
  { apply List.in_map. unfold remove_matches_of. apply List.filter_In.
    split; [exact (shrinks_in _ _ _ S1 Hr)|exact Hm]. }
  pose proof (G1 _ _ Hin Hr) as Hgone.
  unfold delete_pattern in Hgone. cbn [entry_of_row e_path] in Hgone.
  rewrite (like_sanitize_self _ Hrefl) in Hgone. discriminate.
Qed.

Lemma remove_loop_run (callback : RemoveCallback) (paths : list string)
      (w w' : World) :
  (forall c, ceq c c = true) ->
  for_each (remove_path callback) paths w = (Ret tt, w') ->
  shrinks w w'
  /\ forall p r, In p paths -> In r (entries (w_db w')) ->
                 like_escaped (match_pattern (relativeTo p) false) (r_path r)
                 = false.
Proof.
  intros Hrefl. revert w. induction paths as [|p paths IH]; intros w Hrun.
  - injection Hrun as <-. split; [apply shrinks_refl|]. intros p r [].
  - cbn [for_each] in Hrun.
    apply bind_inv in Hrun
      as [(a & w1 & E1 & E2)|[(e & _ & He)|(_ & He)]];
      [|discriminate|discriminate].
    destruct a.
    destruct (remove_path_run callback p w w1 Hrefl E1) as (S1 & G1).
    destruct (IH w1 E2) as (S2 & G2).
    split; [eapply shrinks_trans; eassumption|].
    intros p' r [<-|Hin] Hr.
    + apply G1. exact (shrinks_in _ _ _ S2 Hr).
    + exact (G2 p' r Hin Hr).
Qed.

(** X8.  When [removeFromIndex] returns, the table holds some of the rows
    it held, in their order, and none of them matches one of the input
    paths (made relative, read with [*] for any run of characters, the
    empty path for all).  Apart from the build folders the file system
    is as it was.  Of the build folders those are removed, and no
    others, that are kept under the hash, when it is not empty, of a
    removed row.  For a non-empty list the last-edit timestamp is the
    current time. *)
Theorem removeFromIndex_removes_matches (paths : list string)
        (callback : RemoveCallback) (w w' : World) :
  (forall c, ceq c c = true) ->
  removeFromIndex paths callback w = (Ret tt, w') ->
  (exists f,
      entries (w_db w') = List.filter f (entries (w_db w))
      /\ forall h,
           h ∈ w_builds w' <->
           h ∈ w_builds w
           /\ (h = ""
               \/ forall r, In r (entries (w_db w)) -> f r = false ->
                            getText (r_hash r) <> h))
  /\ (forall p r, In p paths -> In r (entries (w_db w')) ->
                  glob ceq (removal_query p) (r_path r) = false)
  /\ w_fs w' = w_fs w
  /\ (paths <> [] -> last_edit (w_db w') = w_time w).
Proof.
  intros Hrefl. unfold removeFromIndex.
  destruct paths as [|p0 paths].
  - intros H. injection H as <-.
    split.
    { exists (fun _ => true). split; [symmetry; apply filter_all|].
      intros h. rewrite <- hash_of_removed_false, hash_of_removed_all.
      split; [intros H; split; [exact H|reflexivity]|intros [H _]; exact H]. }
    split; [intros p r []|]. split; [reflexivity|]. intros H. congruence.
  - intros Hrun.
    apply bind_inv in Hrun
      as [(a & w1 & E1 & E2)|[(e & _ & He)|(_ & He)]];
      [|discriminate|discriminate].
    destruct a.
    destruct (remove_loop_run callback (p0 :: paths) w w1 Hrefl E1)
      as (((f & Hf & Hb) & Hfs & Htime & _ & _) & Hgone).
    assert (Hw' : entries (w_db w') = entries (w_db w1)
                  /\ w_fs w' = w_fs w1
                  /\ last_edit (w_db w') = w_time w1
                  /\ w_builds w' = w_builds w1).
    { unfold setLastUpdate, bind, get_world, write_store, log in E2.
      injection E2 as <-. repeat split. }
    destruct Hw' as (Hrows & Hfs' & Hedit & Hbuilds).
    split.
    { exists f. split; [rewrite Hrows; exact Hf|].
      intros h. rewrite <- hash_of_removed_false, Hbuilds. apply Hb. }
    split.
    + intros p r Hp Hr. rewrite Hrows in Hr.
      pose proof (Hgone p r Hp Hr) as Hm.
      rewrite match_pattern_eq, like_sanitize, string_app_nil_r in Hm.
      exact Hm.
    + split; [congruence|]. intros _. congruence.
Qed.

Lemma glob_no_star (q s : string) :
  string_mem star q = false ->
  glob ceq q s = same_text q s.
Proof.
  revert s. induction q as [|c q IH]; intros s Hq.
  - destruct s; reflexivity.
  - cbn [string_mem] in Hq. apply orb_false_iff in Hq as [Hc Hq].
    cbn [glob]. rewrite Hc. destruct s as [|x s]; [reflexivity|].
    cbn [same_text]. rewrite (IH s Hq). reflexivity.
Qed.

Lemma ceq_left (a b x : ascii) :
  collation_ok -> ceq a b = true -> ceq b x = ceq a x.
Proof.
  intros (_ & Hsym & Htrans & _) Hab.
  destruct (ceq a x) eqn:Hax.
  - exact (Htrans b a x (Hsym a b Hab) Hax).
  - destruct (ceq b x) eqn:Hbx; [|reflexivity].
    rewrite (Htrans a b x Hab Hbx) in Hax. discriminate.
Qed.

Lemma same_text_left (q e s : string) :
  collation_ok -> same_text q e = true -> same_text e s = same_text q s.
Proof.
  intros Hok. revert e s. induction q as [|c q IH]; intros e s He.
  - destruct e; [reflexivity|discriminate].
  - destruct e as [|y e]; [discriminate|].
    cbn [same_text] in He. apply andb_true_iff in He as [Hc He].
    destruct s as [|x s]; [reflexivity|].
    cbn [same_text]. rewrite (ceq_left c y x Hok Hc), (IH e s He).
    reflexivity.
Qed.

Lemma begins_with_left (q e t s : string) :
  collation_ok -> same_text q e = true ->
  begins_with ceq (e +:+ t) s = begins_with ceq (q +:+ t) s.
Proof.
  intros Hok. revert e s. induction q as [|c q IH]; intros e s He.
  - destruct e; [reflexivity|discriminate].
  - destruct e as [|y e]; [discriminate|].
    cbn [same_text] in He. apply andb_true_iff in He as [Hc He].
    rewrite !string_app_cons. cbn [begins_with].
    destruct s as [|x s]; [reflexivity|].
    rewrite (ceq_left c y x Hok Hc), (IH e s He). reflexivity.
Qed.

Lemma same_text_no_star (q e : string) :
  collation_ok -> same_text q e = true ->
  string_mem star q = false -> string_mem star e = false.
Proof.
  intros Hok. revert e. induction q as [|c q IH]; intros e He Hq.
  - destruct e; [reflexivity|discriminate].
  - destruct e as [|y e]; [discriminate|].
    cbn [same_text] in He. apply andb_true_iff in He as [Hc He].
    cbn [string_mem] in Hq |- *.
    apply orb_false_iff in Hq as [Hcs Hq].
    rewrite (IH e He Hq), orb_false_r.
    destruct (Ascii.eqb y star) eqn:Hy; [|reflexivity].
    apply Ascii.eqb_eq in Hy. subst y.
    destruct Hok as (_ & _ & _ & Hstar).
    rewrite (Hstar c Hc), Ascii.eqb_refl in Hcs. discriminate.
Qed.

Lemma in_length_pos {A} (x : A) (l : list A) :
  In x l -> (0 < List.length l)%nat.
Proof. destruct l; [intros []|intros _; cbn [List.length]; lia]. Qed.

Lemma existsb_filter {A} (f g : A -> bool) (l : list A) :
  existsb f (List.filter g l) = existsb (fun x => g x && f x) l.
Proof.
  induction l as [|x l IH]; [reflexivity|].
  cbn [List.filter existsb]. destruct (g x); cbn [existsb andb orb].
  - rewrite IH. reflexivity.
  - exact IH.
Qed.

(** The loop of [removeFromIndex] over matches whose paths the collation
    takes for the path [q]: the rows at [q] go at the first match, the
    rows below [q] at the first match that is a directory. *)
Lemma remove_same_run (callback : RemoveCallback) (q : string)
      (ms : list Row) (tot : Z) (w : World) :
  collation_ok ->
  string_mem star q = false ->
  (forall m, In m ms -> same_text q (r_path m) = true) ->
  exists tot' w',
    remove_matches callback (List.map entry_of_row ms) tot w
    = (Ret tot', w')
    /\ tot <= tot'
    /\ (ms <> [] ->
        (exists r, In r (entries (w_db w))
                   /\ same_text q (r_path r) = true) ->
        tot < tot')
    /\ entries (w_db w')
       = List.filter
           (fun r =>
              negb (negb (is_empty_list ms) && same_text q (r_path r)
                    || existsb (fun m => is_directory_type (r_type m)) ms
                       && begins_with ceq (q +:+ "/") (r_path r)))
           (entries (w_db w))
    /\ w_time w' = w_time w.
Proof.
  intros Hok Hstar. revert tot w.
  induction ms as [|m ms IH]; intros tot w Hms.
  - exists tot, w. split; [reflexivity|]. split; [lia|].
    split; [intros H; congruence|].
    split; [symmetry; apply filter_all|reflexivity].
  - assert (Hm : same_text q (r_path m) = true)
      by (apply Hms; left; reflexivity).
    assert (Hexact : forall s,
               like_escaped (delete_pattern (r_path m) false) s
               = same_text q s).
    { intros s. unfold delete_pattern. rewrite like_sanitize.
      rewrite glob_no_star
        by exact (same_text_no_star q (r_path m) Hok Hm Hstar).
      apply same_text_left; assumption. }
    assert (Hbelow : forall s,
               like_escaped (delete_pattern (r_path m) true) s
               = begins_with ceq (q +:+ "/") s).
    { intros s. rewrite delete_pattern_eq, like_sanitize.
      change "/*" with ("/" +:+ "*"). rewrite <- string_app_assoc.
      rewrite glob_literal_star.
      - apply begins_with_left; assumption.
      - rewrite string_mem_app,
          (same_text_no_star q (r_path m) Hok Hm Hstar).
        reflexivity. }
    cbn [List.map remove_matches entry_of_row e_path e_type].
    destruct (deleteFromIndex_spec (r_path m) false callback w)
      as (w1 & E1 & _ & _ & Ht1 & Hr1 & _).
    rewrite (bind_ret_l _ _ _ _ _ E1).
    set (cnt := Z.of_nat
                  (List.length
                     (delete_matches (r_path m) false (entries (w_db w))))).
    assert (Hsecond : exists cnt' w2,
               (if is_directory_type (r_type m)
                then deleteFromIndex (r_path m) true callback
                else ret 0) w1 = (Ret cnt', w2)
               /\ 0 <= cnt'
               /\ entries (w_db w2)
                  = List.filter
                      (fun r => negb (is_directory_type (r_type m)
                                      && begins_with ceq (q +:+ "/")
                                           (r_path r)))
                      (entries (w_db w1))
               /\ w_time w2 = w_time w1).
    { destruct (is_directory_type (r_type m)).
      - destruct (deleteFromIndex_spec (r_path m) true callback w1)
          as (w2 & E2 & _ & _ & Ht2 & Hr2 & _).
        eexists _, w2. split; [exact E2|]. split; [lia|].
        split; [|exact Ht2].
        rewrite Hr2. apply List.filter_ext. intros r.
        rewrite Hbelow. reflexivity.
      - exists 0, w1. split; [reflexivity|]. split; [lia|].
        split; [symmetry; apply filter_all|reflexivity]. }
    destruct Hsecond as (cnt' & w2 & E2 & Hc2 & Hr2 & Ht2).
    rewrite (bind_ret_l _ _ _ _ _ E2).
    destruct (IH (tot + (cnt + cnt')) w2) as (tot' & w3 & E3 & Ht & _ & Hr3 & Ht3).
    { intros m' Hm'. apply Hms. right. exact Hm'. }
    exists tot', w3. split; [exact E3|].
    assert (Hcnt : 0 <= cnt) by (unfold cnt; lia).
    split; [lia|]. split.
    + intros _ (r & Hr & Hsame).
      assert (0 < cnt); [|lia].
      unfold cnt, delete_matches.
      assert (Hin : In r (List.filter
                            (fun r => like_escaped
                                        (delete_pattern (r_path m) false)
                                        (r_path r))
                            (entries (w_db w)))).
      { apply List.filter_In. split; [exact Hr|].
        rewrite Hexact. exact Hsame. }
      apply in_length_pos in Hin. lia.
    + split; [|congruence].
      rewrite Hr3, Hr2, Hr1, !filter_filter.
      apply List.filter_ext. intros r. rewrite Hexact.
      cbn [is_empty_list negb existsb andb].
      destruct (same_text q (r_path r)),
               (is_directory_type (r_type m)),
               (begins_with ceq (q +:+ "/") (r_path r)),
               (is_empty_list ms),
               (existsb (fun m0 => is_directory_type (r_type m0)) ms);
        reflexivity.
Qed.

(** X9.  For a collation that is an equivalence on the characters and
    sets [*] apart, as the folding of the case of ASCII letters of the
    LIKE of SQLite is: [removeFromIndex] of one path without [*] that the
    collation takes for the path of some entry returns; it removes every
    entry whose path the collation takes for this path and, when one of
    them is a directory, every entry whose path begins with this path
    and a separator, in this collation; the other rows stay, in their
    order, and the last-edit timestamp is the current time. *)
Theorem removeFromIndex_directory_cascade (p : string)
        (callback : RemoveCallback) (w : World) (rd : Row) :
  collation_ok ->
  relativeTo p <> "" ->
  string_mem star (relativeTo p) = false ->
  In rd (entries (w_db w)) ->
  same_text (relativeTo p) (r_path rd) = true ->
  exists w',
    removeFromIndex [p] callback w = (Ret tt, w')
    /\ entries (w_db w')
       = List.filter
           (fun r =>
              negb (same_text (relativeTo p) (r_path r)
                    || (existsb
                          (fun m => same_text (relativeTo p) (r_path m)
                                    && is_directory_type (r_type m))
                          (entries (w_db w))
                        && begins_with ceq (relativeTo p +:+ "/")
                             (r_path r))))
           (entries (w_db w))
    /\ last_edit (w_db w') = w_time w.
Proof.
  intros Hok Hne Hstar Hin Hsame.
  set (q := relativeTo p) in *.
  assert (Hmatch : forall s,
             like_escaped (match_pattern q false) s = same_text q s).
  { intros s. rewrite match_pattern_eq, string_app_nil_r, like_sanitize.
    destruct q; [congruence|]. cbn [is_empty].
    apply glob_no_star. exact Hstar. }
  assert (Hms : remove_matches_of p (entries (w_db w))
                = List.filter (fun r => same_text q (r_path r))
                    (entries (w_db w))).
  { unfold remove_matches_of. fold q. apply List.filter_ext.
    intros r. apply Hmatch. }
  destruct (remove_same_run callback q
              (List.filter (fun r => same_text q (r_path r))
                 (entries (w_db w))) 0 w Hok Hstar)
    as (tot & w1 & Erm & _ & Hpos & Hrows & Htime).
  { intros m Hm. apply List.filter_In in Hm. apply Hm. }
  assert (Hfound : In rd (List.filter (fun r => same_text q (r_path r))
                            (entries (w_db w)))).
  { apply List.filter_In. split; assumption. }
  assert (Htot : 0 < tot).
  { apply Hpos.
    - intros Hnil. rewrite Hnil in Hfound. destruct Hfound.
    - exists rd. split; assumption. }
  assert (Hone : remove_path callback p w = (Ret tt, w1)).
  { unfold remove_path.
    rewrite (bind_ret_l _ _ _ _ _ (getMatchingEntries_default p w)).
    cbv beta. rewrite Hms.
    rewrite (bind_ret_l _ _ _ _ _ Erm).
    replace (tot =? 0) with false by (symmetry; apply Z.eqb_neq; lia).
    reflexivity. }
  unfold removeFromIndex. cbn [for_each].
  assert (Hloop : (remove_path callback p ;; ret tt)%io w = (Ret tt, w1)).
  { rewrite (bind_ret_l _ _ _ _ _ Hone). reflexivity. }
  rewrite (bind_ret_l _ _ _ _ _ Hloop).
  unfold setLastUpdate, bind, get_world, write_store, log.
  eexists. split; [reflexivity|]. cbn. split; [|exact Htime].
  rewrite Hrows. apply List.filter_ext. intros r.
  rewrite existsb_filter.
  assert (Hne' : is_empty_list
                   (List.filter (fun r => same_text q (r_path r))
                      (entries (w_db w))) = false).
  { destruct (List.filter _ (entries (w_db w))); [destruct Hfound|].
    reflexivity. }
  rewrite Hne'. reflexivity.
Qed.

(* ------------------------------------------------------------------ *)
(** *** [moveEntry] on a file, there and back *)

Lemma rename_path_absent (source dest : string) (d : Z) (rows : list Row) :
  has_path source rows = false -> rename_path source dest d rows = rows.
Proof.
  unfold rename_path, has_path. induction rows as [|r rows IH];
    [reflexivity|].
  cbn [existsb List.map]. intros H. apply orb_false_iff in H as [Hr Hrows].
  rewrite Hr, (IH Hrows). reflexivity.
Qed.

Lemma has_path_rename_source (source dest : string) (d : Z)
      (rows : list Row) :
  source <> dest -> has_path source (rename_path source dest d rows) = false.
Proof.
  intros Hne. unfold rename_path, has_path.
  induction rows as [|r rows IH]; [reflexivity|].
  cbn [List.map existsb]. rewrite IH, orb_false_r.
  destruct (String.eqb_spec (r_path r) source) as [E|E].
  - cbn [r_path]. apply String.eqb_neq. congruence.
  - apply String.eqb_neq. exact E.
Qed.

Lemma find_row_rename (source dest : string) (d : Z) (rows : list Row) :
  has_path dest rows = false ->
  find_row dest (rename_path source dest d rows)
  = option_map (fun r => mkRow dest (r_hash r) (r_type r) (r_meta r)
                               (r_mtime r) (r_size r) d (r_point_geom r)
                               (r_polygon_geom r))
      (find_row source rows).
Proof.
  unfold rename_path, has_path, find_row.
  induction rows as [|r rows IH]; [reflexivity|].
  cbn [existsb List.map List.find]. intros H.
  apply orb_false_iff in H as [Hr Hrows].
  destruct (String.eqb (r_path r) source) eqn:Es.
  - cbn [r_path]. rewrite String.eqb_refl. reflexivity.
  - rewrite Hr. apply IH. exact Hrows.
Qed.

Lemma rename_there_and_back (source dest : string) (d : Z)
      (rows : list Row) :
  has_path dest rows = false ->
  (forall r, In r rows -> r_path r = source ->
             r_depth r = path_depth source) ->
  rename_path dest source (path_depth source)
    (rename_path source dest d rows) = rows.
Proof.
  unfold rename_path, has_path. induction rows as [|r rows IH];
    [reflexivity|].
  cbn [existsb List.map]. intros H Hdepth.
  apply orb_false_iff in H as [Hr Hrows].
  rewrite IH; [|exact Hrows|intros r' Hr'; apply Hdepth; right; exact Hr'].
  f_equal. destruct (String.eqb_spec (r_path r) source) as [E|E].
  - cbn [r_path]. rewrite String.eqb_refl.
    cbn [r_hash r_type r_meta r_mtime r_size r_point_geom r_polygon_geom].
    rewrite <- (Hdepth r (or_introl eq_refl) E), <- E.
    destruct r; reflexivity.
  - rewrite Hr. reflexivity.
Qed.

(** X10.  A file entry moved to a free path and moved back: both calls
    return, after the first the table has a row at the new path and none
    at the old one, and after the second the table is the table before
    the two moves, provided the depth of the row was the depth of its
    path. *)
Theorem moveEntry_file_round_trip (source dest : string) (w : World)
        (rs : Row) :
  trailing_separator source = Some false ->
  hasDotNotation source = false ->
  trailing_separator dest = Some false ->
  hasDotNotation dest = false ->
  source <> dest ->
  w_txn w = false ->
  find_row source (entries (w_db w)) = Some rs ->
  r_type rs <> Directory ->
  find_row dest (entries (w_db w)) = None ->
  (forall r, In r (entries (w_db w)) -> r_path r = source ->
             r_depth r = path_depth source) ->
  exists w1 w2,
    moveEntry source dest w = (Ret tt, w1)
    /\ has_path source (entries (w_db w1)) = false
    /\ has_path dest (entries (w_db w1)) = true
    /\ moveEntry dest source w1 = (Ret tt, w2)
    /\ entries (w_db w2) = entries (w_db w)
    /\ w_disk w2 = w_db w2.
Proof.
  intros Hs1 Hs2 Hd1 Hd2 Hne Htxn Hsrc Htype Hdst Hdepth.
  pose proof (find_row_none_has_path _ _ Hdst) as Hfree.
  assert (Hrows1 : entries (w_db (moved_file_world source dest w))
                   = rename_path source dest (path_depth dest)
                       (entries (w_db w))).
  { unfold moved_file_world. cbn [w_db entries].
    rewrite (delete_path_absent _ _ Hfree). reflexivity. }
  assert (Hgone : has_path source
                    (entries (w_db (moved_file_world source dest w)))
                  = false).
  { rewrite Hrows1. apply has_path_rename_source. exact Hne. }
  assert (Hthere : find_row dest
                     (entries (w_db (moved_file_world source dest w)))
                   = Some (mkRow dest (r_hash rs) (r_type rs) (r_meta rs)
                                 (r_mtime rs) (r_size rs) (path_depth dest)
                                 (r_point_geom rs) (r_polygon_geom rs))).
  { rewrite Hrows1, (find_row_rename _ _ _ _ Hfree), Hsrc. reflexivity. }
  exists (moved_file_world source dest w).
  exists (moved_file_world dest source (moved_file_world source dest w)).
  split.
  { rewrite (moveEntry_after_checks _ _ _ Hs1 Hs2 Hd1 Hd2 Hne).
    apply (move_entries_file source dest w rs Htxn Hsrc Htype).
    intros rd Hrd. rewrite Hdst in Hrd. discriminate. }
  split; [exact Hgone|].
  split; [exact (find_row_has_path _ _ _ Hthere)|].
  split.
  { rewrite (moveEntry_after_checks _ _ _ Hd1 Hd2 Hs1 Hs2
               (fun E => Hne (eq_sym E))).
    apply (move_entries_file dest source (moved_file_world source dest w) _
             eq_refl Hthere Htype).
    intros rd Hrd. apply find_row_has_path in Hrd.
    rewrite Hgone in Hrd. discriminate. }
  split; [|reflexivity].
  unfold moved_file_world at 1. cbn [w_db entries].
  rewrite (delete_path_absent _ _ Hgone), Hrows1.
  apply rename_there_and_back; assumption.
Qed.

(* ------------------------------------------------------------------ *)
(** *** [moveEntry] and the depth column *)

Lemma all_log (P : Row -> Prop) (ev : Event) :
  keeps (rows_all P) (log ev) whatever.
Proof. intros w Hw. split; [exact Hw|]. intros; exact Logic.I. Qed.

Lemma all_write_store (P : Row -> Prop) (f : Store -> Store) :
  (forall s, Forall P (entries s) -> Forall P (entries (f s))) ->
  keeps (rows_all P) (write_store f) whatever.
Proof.
  intros Hf w [Hdb Hdisk]. split; [|intros; exact Logic.I].
  unfold write_store, rows_all. simpl. split; [apply Hf, Hdb|].
  destruct (w_txn w); [exact Hdisk|apply Hf, Hdb].
Qed.

Lemma all_exec_begin (P : Row -> Prop) :
  keeps (rows_all P) exec_begin whatever.
Proof.
  intros w Hw. split; [|intros; exact Logic.I].
  unfold exec_begin. destruct (w_txn w); exact Hw.
Qed.

Lemma all_exec_commit (P : Row -> Prop) :
  keeps (rows_all P) exec_commit whatever.
Proof.
  intros w [Hdb Hdisk]. split; [|intros; exact Logic.I].
  unfold exec_commit. destruct (w_txn w); split; assumption.
Qed.

Lemma all_setLastUpdate (P : Row -> Prop) :
  keeps (rows_all P) setLastUpdate whatever.
Proof.
  unfold setLastUpdate.
  apply keeps_bind with (R := rows_all P); [apply keeps_get_world|].
  intros w _. apply keeps_bind with (R := whatever); [|intros; apply all_log].
  apply all_write_store. intros s Hs. exact Hs.
Qed.

Lemma all_sql_insert (P : Row -> Prop) (r : Row) :
  P r -> keeps (rows_all P) (sql_insert r) whatever.
Proof.
  intros Hr. unfold sql_insert.
  apply keeps_bind with (R := rows_all P); [apply keeps_get_world|].
  intros w _. destruct (has_path _ _); [apply keeps_throw|].
  apply keeps_bind with (R := whatever); [|intros; apply all_log].
  apply all_write_store. intros s Hs. unfold with_entries. simpl.
  apply Forall_app. split; [exact Hs|].
  apply List.Forall_cons; [exact Hr|apply List.Forall_nil].
Qed.

Lemma all_sql_delete (P : Row -> Prop) (p : string) :
  keeps (rows_all P) (sql_delete p) whatever.
Proof.
  unfold sql_delete.
  apply keeps_bind with (R := whatever); [|intros; apply all_log].
  apply all_write_store. intros s Hs. unfold with_entries, delete_path.
  simpl. apply List.Forall_forall. intros r Hr.
  apply List.filter_In in Hr as [Hr _].
  apply (proj1 (List.Forall_forall _ _) Hs), Hr.
Qed.

Lemma all_sql_rename (P : Row -> Prop) (source dest : string) (d : Z) :
  (forall r, P r ->
             P (mkRow dest (r_hash r) (r_type r) (r_meta r) (r_mtime r)
                      (r_size r) d (r_point_geom r) (r_polygon_geom r))) ->
  keeps (rows_all P) (sql_rename source dest d) whatever.
Proof.
  intros HP. unfold sql_rename.
  apply keeps_bind with (R := rows_all P); [apply keeps_get_world|].
  intros w _. destruct (_ && _); [apply keeps_throw|].
  apply keeps_bind with (R := whatever); [|intros; apply all_log].
  apply all_write_store. intros s Hs. unfold with_entries. simpl.
  unfold rename_path. apply List.Forall_forall. intros r Hr.
  apply List.in_map_iff in Hr as [r0 [<- Hr0]].
  pose proof (proj1 (List.Forall_forall _ _) Hs r0 Hr0) as H0.
  destruct (String.eqb (r_path r0) source); [apply HP|]; exact H0.
Qed.

Lemma all_read (P : Row -> Prop) {A} (f : World -> A) :
  keeps (rows_all P) (w <- get_world ;; ret (f w)) whatever.
Proof.
  apply keeps_bind with (R := rows_all P); [apply keeps_get_world|].
  intros; apply keeps_ret; exact Logic.I.
Qed.

Lemma all_ends_with_separator (P : Row -> Prop) (s : string) :
  keeps (rows_all P) (ends_with_separator s) whatever.
Proof.
  intros w Hw. rewrite ends_with_separator_eq.
  destruct (trailing_separator s); simpl; (split; [exact Hw|]);
    intros; exact Logic.I.
Qed.

Lemma depth_replacePath (source dest : string) :
  keeps (rows_all depth_ok) (replacePath source dest) whatever.
Proof.
  unfold replacePath. apply all_sql_rename. intros r _. reflexivity.
Qed.

Lemma depth_createMissingFolders :
  keeps (rows_all depth_ok) createMissingFolders whatever.
Proof.
  unfold createMissingFolders.
  apply keeps_bind with (R := rows_all depth_ok); [apply keeps_get_world|].
  intros w _. apply keeps_for_each. intros folder _.
  apply keeps_bind with (R := rows_all depth_ok); [apply keeps_get_world|].
  intros w' _. unfold addFolder. apply all_sql_insert. reflexivity.
Qed.

Lemma depth_moveEntry (source dest : string) :
  keeps (rows_all depth_ok) (moveEntry source dest) whatever.
Proof.
  unfold moveEntry.
  apply keeps_bind with (R := whatever); [apply all_ends_with_separator|].
  intros sep _. destruct sep; [apply keeps_throw|].
  destruct (hasDotNotation source); [apply keeps_throw|].
  apply keeps_bind with (R := whatever); [apply all_ends_with_separator|].
  intros sep' _. destruct sep'; [apply keeps_throw|].
  destruct (hasDotNotation dest); [apply keeps_throw|].
  destruct (String.eqb source dest); [apply keeps_ret; exact Logic.I|].
  unfold move_entries.
  apply keeps_bind with (R := whatever);
    [exact (all_read depth_ok _)|]. intros src _.
  apply keeps_bind with (R := whatever);
    [exact (all_read depth_ok _)|]. intros dst _.
  destruct src as [sourceEntry|]; [|apply keeps_throw].
  apply keeps_bind with (R := whatever).
  { unfold move_check. destruct dst; [|apply keeps_ret; exact Logic.I].
    destruct (is_dir_entry sourceEntry).
    - destruct (negb _); apply keeps_throw.
    - destruct (is_dir_entry _); [apply keeps_throw|].
      apply keeps_ret; exact Logic.I. }
  intros _ _. apply keeps_bind with (R := whatever); [apply all_exec_begin|].
  intros _ _. apply keeps_bind with (R := whatever).
  { unfold move_rows. destruct (negb _).
    - apply keeps_bind with (R := whatever).
      + destruct dst; [apply all_sql_delete|apply keeps_ret; exact Logic.I].
      + intros _ _. apply depth_replacePath.
    - apply keeps_bind with (R := whatever);
        [exact (all_read depth_ok _)|].
      intros paths _. apply keeps_bind with (R := whatever).
      + apply keeps_for_each. intros path _. unfold move_folder_step.
        apply keeps_bind with (R := whatever); [apply keeps_moved_path|].
        intros newPath _.
        apply keeps_bind with (R := whatever); [apply all_sql_delete|].
        intros _ _. apply depth_replacePath.
      + intros _ _. apply depth_createMissingFolders. }
  intros _ _. apply keeps_bind with (R := whatever); [apply all_exec_commit|].
  intros _ _. apply all_setLastUpdate.
Qed.

(** X11.  [moveEntry] keeps the depth column in step with the path
    column: when every row of the table and of the committed table has
    the depth of its path, this is so after the call, whatever the
    arguments and however the call ends; so do [replacePath], which
    writes the depth of the new path, and [createMissingFolders]. *)
Theorem moveEntry_keeps_depths (source dest : string) (w : World) :
  rows_all depth_ok w ->
  rows_all depth_ok (snd (moveEntry source dest w))
  /\ rows_all depth_ok (snd (replacePath source dest w))
  /\ rows_all depth_ok (snd (createMissingFolders w)).
Proof.
  intros Hw. split; [apply (depth_moveEntry source dest w Hw)|].
  split; [apply (depth_replacePath source dest w Hw)|].
  apply (depth_createMissingFolders w Hw).
Qed.

(* ------------------------------------------------------------------ *)
(** *** [moveEntry]: a refused move writes nothing *)

Lemma sql_only_ret {A} (a : A) : raises_only_sql (ret a).
Proof. intros w e w' H. discriminate. Qed.

Lemma sql_only_throw {A} (msg : string) :
  raises_only_sql (@throw A (SQLException msg)).
Proof. intros w e w' [= <- _]. left. exists msg. reflexivity. Qed.

Lemma sql_only_bind {A B} (m : M A) (k : A -> M B) :
  raises_only_sql m -> (forall a, raises_only_sql (k a)) ->
  raises_only_sql (bind m k).
Proof.
  intros Hm Hk w e w' H.
  apply bind_inv in H as [(a & w1 & E1 & E2)|[(e' & E1 & He)|(_ & He)]].
  - exact (Hk a w1 e w' E2).
  - injection He as <-. exact (Hm w e w' E1).
  - discriminate.
Qed.

Lemma sql_only_get_world : raises_only_sql get_world.
Proof. intros w e w' H. discriminate. Qed.

Lemma sql_only_log (ev : Event) : raises_only_sql (log ev).
Proof. intros w e w' H. discriminate. Qed.

Lemma sql_only_write_store (f : Store -> Store) :
  raises_only_sql (write_store f).
Proof. intros w e w' H. discriminate. Qed.

Lemma sql_only_exec_begin : raises_only_sql exec_begin.
Proof.
  intros w e w'. unfold exec_begin. destruct (w_txn w); intros [= <- _].
  left. eexists. reflexivity.
Qed.

Lemma sql_only_exec_commit : raises_only_sql exec_commit.
Proof.
  intros w e w'. unfold exec_commit. destruct (w_txn w); intros [= <- _].
  left. eexists. reflexivity.
Qed.

Lemma sql_only_for_each {A} (f : A -> M unit) (l : list A) :
  (forall a, raises_only_sql (f a)) -> raises_only_sql (for_each f l).
Proof.
  intros Hf. induction l as [|x l IH]; cbn [for_each].
  - apply sql_only_ret.
  - apply sql_only_bind; [apply Hf|intros _; exact IH].
Qed.

Ltac sql_only_step :=
  first [ apply sql_only_ret | apply sql_only_throw | apply sql_only_log
        | apply sql_only_get_world | apply sql_only_write_store
        | apply sql_only_exec_begin | apply sql_only_exec_commit
        | apply sql_only_bind; [|intros ?] ].

Lemma sql_only_setLastUpdate : raises_only_sql setLastUpdate.
Proof. unfold setLastUpdate. repeat sql_only_step. Qed.

Lemma sql_only_sql_insert (r : Row) : raises_only_sql (sql_insert r).
Proof.
  unfold sql_insert. apply sql_only_bind; [apply sql_only_get_world|].
  intros w. destruct (has_path _ _); repeat sql_only_step.
Qed.

Lemma sql_only_sql_delete (p : string) : raises_only_sql (sql_delete p).
Proof. unfold sql_delete. repeat sql_only_step. Qed.

Lemma sql_only_sql_rename (source dest : string) (d : Z) :
  raises_only_sql (sql_rename source dest d).
Proof.
  unfold sql_rename. apply sql_only_bind; [apply sql_only_get_world|].
  intros w. destruct (_ && _); repeat sql_only_step.
Qed.

Lemma sql_only_createMissingFolders : raises_only_sql createMissingFolders.
Proof.
  unfold createMissingFolders.
  apply sql_only_bind; [apply sql_only_get_world|]. intros w.
  apply sql_only_for_each. intros folder.
  apply sql_only_bind; [apply sql_only_get_world|]. intros w'.
  apply sql_only_sql_insert.
Qed.

Lemma sql_only_moved_path (source dest path : string) :
  raises_only_sql (moved_path source dest path).
Proof.
  intros w e w'. unfold moved_path, substr, bind.
  destruct (_ <? _)%nat; [|discriminate].
  intros [= <- _]. right. reflexivity.
Qed.

Lemma sql_only_move_rows (source dest : string) (sourceEntry : Entry)
      (destExists : bool) :
  raises_only_sql (move_rows source dest sourceEntry destExists).
Proof.
  unfold move_rows. destruct (negb _).
  - apply sql_only_bind.
    + destruct destExists; [apply sql_only_sql_delete|apply sql_only_ret].
    + intros _. apply sql_only_sql_rename.
  - apply sql_only_bind.
    + unfold listFolderPaths. repeat sql_only_step.
    + intros paths. apply sql_only_bind.
      * apply sql_only_for_each. intros path. unfold move_folder_step.
        apply sql_only_bind; [apply sql_only_moved_path|]. intros newPath.
        apply sql_only_bind; [apply sql_only_sql_delete|].
        intros _. apply sql_only_sql_rename.
      * intros _. apply sql_only_createMissingFolders.
Qed.

Lemma sql_only_transaction (source dest : string) (sourceEntry : Entry)
      (destExists : bool) :
  raises_only_sql
    (exec_begin ;;
     move_rows source dest sourceEntry destExists ;;
     exec_commit ;;
     setLastUpdate).
Proof.
  apply sql_only_bind; [apply sql_only_exec_begin|]. intros _.
  apply sql_only_bind; [apply sql_only_move_rows|]. intros _.
  apply sql_only_bind; [apply sql_only_exec_commit|]. intros _.
  apply sql_only_setLastUpdate.
Qed.

(** X12.  The exceptions of [moveEntry].  A move that ends with an
    [InvalidArgsException] has written nothing: the world is as before
    the call, no transaction was begun, no row was touched and no
    statement was run.  The other exceptions of [moveEntry] are the
    errors of the store and the [std::out_of_range] of [substr]; it
    raises no [FSException]. *)
Theorem moveEntry_refusal_writes_nothing (source dest : string)
        (w w' : World) (e : Exn) :
  moveEntry source dest w = (Throw e, w') ->
  match e with
  | InvalidArgsException _ => w' = w
  | SQLException _ => True
  | OutOfRange => True
  | FSException _ => False
  end.
Proof.
  unfold moveEntry.
  unfold bind at 1. rewrite ends_with_separator_eq.
  destruct (trailing_separator source) as [[|]|];
    [intros [= <- <-]; reflexivity| |discriminate].
  destruct (hasDotNotation source); [intros [= <- <-]; reflexivity|].
  unfold bind at 1. rewrite ends_with_separator_eq.
  destruct (trailing_separator dest) as [[|]|];
    [intros [= <- <-]; reflexivity| |discriminate].
  destruct (hasDotNotation dest); [intros [= <- <-]; reflexivity|].
  destruct (String.eqb source dest); [discriminate|].
  unfold move_entries.
  rewrite (bind_ret_l _ _ _ _ _ (getEntry_eq source w)).
  rewrite (bind_ret_l _ _ _ _ _ (getEntry_eq dest w)).
  destruct (option_map entry_of_row (find_row source (entries (w_db w))))
    as [sourceEntry|]; [|intros [= <- <-]; reflexivity].
  set (dst := option_map entry_of_row (find_row dest (entries (w_db w)))).
  assert (Hchk : (exists m, move_check sourceEntry dst w
                            = (Throw (InvalidArgsException m), w))
                 \/ move_check sourceEntry dst w = (Ret tt, w)).
  { unfold move_check. destruct dst as [destEntry|]; [|right; reflexivity].
    destruct (is_dir_entry sourceEntry).
    - left. destruct (negb _); eexists; reflexivity.
    - destruct (is_dir_entry destEntry); [left; eexists|right]; reflexivity. }
  destruct Hchk as [(m & Hchk)|Hchk].
  - rewrite (bind_throw_l _ _ _ _ _ Hchk). intros [= <- <-]. reflexivity.
  - rewrite (bind_ret_l _ _ _ _ _ Hchk). intros H.
    apply sql_only_transaction in H as [(m & ->)| ->]; exact Logic.I.
Qed.

(* ------------------------------------------------------------------ *)
(** *** [createMissingFolders] *)

Lemma filter_repaired {A} (key : A -> string) (dirs : list string)
      (B : list A) :
  List.filter
    (fun b =>
       negb (existsb (String.eqb (key b))
               (dirs ++ List.map key
                          (List.filter
                             (fun b => negb (existsb (String.eqb (key b))
                                               dirs)) B))%list))
    B = [].
Proof.
  set (Q := List.map key
              (List.filter
                 (fun b => negb (existsb (String.eqb (key b)) dirs)) B)).
  assert (H : forall l, (forall b, In b l -> In b B) ->
                        List.filter
                          (fun b => negb (existsb (String.eqb (key b))
                                            (dirs ++ Q)%list)) l = []).
  { induction l as [|b l IH]; intros Hsub; [reflexivity|].
    cbn [List.filter].
    rewrite IH by (intros x Hx; apply Hsub; right; exact Hx).
    replace (existsb (String.eqb (key b)) (dirs ++ Q)%list) with true;
      [reflexivity|].
    symmetry. rewrite existsb_app.
    destruct (existsb (String.eqb (key b)) dirs) eqn:Ed; [reflexivity|].
    cbn [orb]. apply List.existsb_exists. exists (key b).
    split; [|apply String.eqb_refl].
    unfold Q. apply List.in_map. apply List.filter_In.
    split; [apply Hsub; left; reflexivity|]. rewrite Ed. reflexivity. }
  apply H. intros b Hb. exact Hb.
Qed.

Lemma filter_folder_rows (mtime : Z) (folders : list string) :
  List.filter (fun r => type_code (r_type r) =? 1)
    (List.map (folder_row mtime) folders)
  = List.map (folder_row mtime) folders
  /\ List.filter (fun r => negb (type_code (r_type r) =? 1))
       (List.map (folder_row mtime) folders) = [].
Proof.
  induction folders as [|f folders [IH1 IH2]]; [split; reflexivity|].
  cbn [List.map List.filter folder_row r_type type_code Z.eqb Pos.eqb negb].
  rewrite IH1, IH2. split; reflexivity.
Qed.

Lemma folder_row_paths (mtime : Z) (folders : list string) :
  List.map r_path (List.map (folder_row mtime) folders) = folders.
Proof.
  induction folders as [|f folders IH]; [reflexivity|].
  cbn [List.map folder_row r_path]. rewrite IH. reflexivity.
Qed.

(** The folders the query misses are no longer missed once their rows are
    in the table. *)
Lemma folder_query_repaired (mtime : Z) (rows : list Row) :
  folder_consistency_query
    (rows ++ List.map (folder_row mtime) (folder_consistency_query rows))%list
  = [].
Proof.
  set (Q := folder_consistency_query rows).
  unfold folder_consistency_query at 1.
  rewrite !List.filter_app.
  destruct (filter_folder_rows mtime Q) as [-> ->].
  rewrite List.map_app, folder_row_paths, app_nil_r.
  unfold Q, folder_consistency_query.
  rewrite (filter_repaired snd). reflexivity.
Qed.

(** X13.  [createMissingFolders] repairs what its query reports: when it
    returns, the folder-consistency query finds nothing on the new table,
    and a second call returns at once and changes nothing. *)
Theorem createMissingFolders_idempotent (w w1 : World) :
  createMissingFolders w = (Ret tt, w1) ->
  folder_consistency_query (entries (w_db w1)) = []
  /\ createMissingFolders w1 = (Ret tt, w1).
Proof.
  intros Hrun. pose proof (createMissingFolders_eq w) as Heq.
  destruct (add_folders (w_time w)
              (folder_consistency_query (entries (w_db w)))
              (entries (w_db w))) as [final|] eqn:Hadd.
  - destruct Heq as (w' & E & Hrows & _).
    rewrite E in Hrun. injection Hrun as ->.
    apply add_folders_some in Hadd.
    assert (Hq : folder_consistency_query (entries (w_db w1)) = []).
    { rewrite Hrows, Hadd. apply folder_query_repaired. }
    split; [exact Hq|].
    unfold createMissingFolders, bind, get_world. rewrite Hq. reflexivity.
  - destruct Heq as (w' & E & _). rewrite E in Hrun. discriminate.
Qed.

(* ------------------------------------------------------------------ *)
(** *** Lookups, [deleteEntry] and [addFolder] *)

Lemma pathExists_eq (path : string) (w : World) :
  pathExists path w = (Ret (has_path path (entries (w_db w))), w).
Proof.
  unfold pathExists, bind, get_world, ret. f_equal. f_equal.
  unfold has_path. induction (entries (w_db w)) as [|r rows IH];
    [reflexivity|].
  cbn [List.filter existsb].
  destruct (String.eqb (r_path r) path); [|exact IH].
  cbn [List.length orb]. apply Z.ltb_lt. lia.
Qed.

Lemma find_row_delete_other (p q : string) (rows : list Row) :
  q <> p -> find_row q (delete_path p rows) = find_row q rows.
Proof.
  intros Hne. unfold find_row, delete_path.
  induction rows as [|r rows IH]; [reflexivity|].
  cbn [List.filter List.find].
  destruct (String.eqb_spec (r_path r) p) as [E|E]; cbn [negb List.find].
  - rewrite IH.
    destruct (String.eqb_spec (r_path r) q) as [E'|E'];
      [congruence|reflexivity].
  - rewrite IH. reflexivity.
Qed.

Lemma has_path_delete_other (p q : string) (rows : list Row) :
  q <> p -> has_path q (delete_path p rows) = has_path q rows.
Proof.
  intros Hne. unfold has_path, delete_path.
  induction rows as [|r rows IH]; [reflexivity|].
  cbn [List.filter existsb].
  destruct (String.eqb_spec (r_path r) p) as [E|E]; cbn [negb existsb].
  - rewrite IH.
    destruct (String.eqb_spec (r_path r) q) as [E'|E'];
      [congruence|reflexivity].
  - rewrite IH. reflexivity.
Qed.

Lemma find_row_none_iff (p : string) (rows : list Row) :
  find_row p rows = None <-> has_path p rows = false.
Proof.
  split; [apply find_row_none_has_path|].
  intros H. destruct (find_row p rows) as [r|] eqn:E; [|reflexivity].
  rewrite (find_row_has_path _ _ _ E) in H. discriminate.
Qed.

(** X14.  The two lookups agree: [pathExists] answers [true] exactly when
    [getEntry] finds an entry, which then has the path asked for; both
    leave the world alone, and [getEntry] refuses a null entry pointer.
    After [deleteEntry] both lookups find nothing at the path, and the
    lookups of every other path answer as before. *)
Theorem lookups_and_deleteEntry (path : string) (w : World) :
  (exists b o,
      pathExists path w = (Ret b, w)
      /\ getEntry path w = (Ret o, w)
      /\ (b = true <-> o <> None)
      /\ (forall e, o = Some e -> e_path e = path))
  /\ (forall e, getEntry_into path (Some e) w = getEntry path w)
  /\ getEntry_into path None w
     = (Throw (InvalidArgsException "Entry pointer should not be null"), w)
  /\ exists w1,
       deleteEntry path w = (Ret tt, w1)
       /\ pathExists path w1 = (Ret false, w1)
       /\ getEntry path w1 = (Ret None, w1)
       /\ forall q, q <> path ->
                    fst (getEntry q w1) = fst (getEntry q w)
                    /\ fst (pathExists q w1) = fst (pathExists q w).
Proof.
  split.
  { exists (has_path path (entries (w_db w))).
    exists (option_map entry_of_row (find_row path (entries (w_db w)))).
    split; [apply pathExists_eq|]. split; [apply getEntry_eq|].
    split.
    - destruct (find_row path (entries (w_db w))) as [r|] eqn:E.
      + rewrite (find_row_has_path _ _ _ E). split; [discriminate|].
        reflexivity.
      + rewrite (find_row_none_has_path _ _ E).
        split; [discriminate|]. intros H. exfalso. apply H. reflexivity.
    - intros e He.
      destruct (find_row path (entries (w_db w))) as [r|] eqn:E;
        [|discriminate].
      injection He as <-. apply (find_row_some _ _ _ E). }
  split; [reflexivity|]. split; [reflexivity|].
  unfold deleteEntry. rewrite sql_delete_eq. eexists. split; [reflexivity|].
  rewrite !pathExists_eq, !getEntry_eq.
  cbn [w_db add_event set_entries entries].
  rewrite has_path_delete_path.
  rewrite (proj2 (find_row_none_iff _ _) (has_path_delete_path path _)).
  split; [reflexivity|]. split; [reflexivity|].
  intros q Hq. rewrite !pathExists_eq, !getEntry_eq.
  cbn [fst w_db add_event set_entries entries].
  rewrite (find_row_delete_other _ _ _ Hq), (has_path_delete_other _ _ _ Hq).
  split; reflexivity.
Qed.

Lemma find_row_app_new (p : string) (rows : list Row) (r : Row) :
  has_path p rows = false -> r_path r = p ->
  find_row p (rows ++ [r]) = Some r.
Proof.
  unfold find_row, has_path. intros H Hr.
  induction rows as [|x rows IH].
  - cbn [app List.find]. rewrite Hr, String.eqb_refl. reflexivity.
  - cbn [existsb] in H. apply orb_false_iff in H as [Hx Hrows].
    cbn [app List.find]. rewrite Hx. apply IH. exact Hrows.
Qed.

Lemma find_row_app_other (p q : string) (rows : list Row) (r : Row) :
  r_path r = p -> q <> p ->
  find_row q (rows ++ [r]) = find_row q rows.
Proof.
  unfold find_row. intros Hr Hq. induction rows as [|x rows IH].
  - cbn [app List.find]. rewrite Hr.
    destruct (String.eqb_spec p q); [congruence|reflexivity].
  - cbn [app List.find]. rewrite IH. reflexivity.
Qed.

Lemma delete_path_app_new (p : string) (rows : list Row) (r : Row) :
  has_path p rows = false -> r_path r = p ->
  delete_path p (rows ++ [r]) = rows.
Proof.
  intros H Hr. unfold delete_path. rewrite List.filter_app.
  fold (delete_path p rows). rewrite (delete_path_absent _ _ H).
  cbn [List.filter]. rewrite Hr, String.eqb_refl. apply app_nil_r.
Qed.

(** X15.  [addFolder] at a path that has a row is refused by the store
    and changes nothing.  At a free path it appends one row, which
    [getEntry] reads back as a directory entry with the given mtime, an
    empty hash, a null meta, size zero, the depth of the path and no
    geometry; the lookups of the other paths answer as before, and a
    [deleteEntry] of the path gives the table before the insert. *)
Theorem addFolder_then_lookup (path : string) (mtime : Z) (w : World) :
  (has_path path (entries (w_db w)) = true ->
   addFolder path mtime w
   = (Throw (SQLException "UNIQUE constraint failed: entries.path"), w))
  /\ (has_path path (entries (w_db w)) = false ->
      exists w1 w2,
        addFolder path mtime w = (Ret tt, w1)
        /\ getEntry path w1
           = (Ret (Some (mkEntry path "" Directory "null" mtime 0
                                 (path_depth path) "" "")), w1)
        /\ (forall q, q <> path ->
                      fst (getEntry q w1) = fst (getEntry q w))
        /\ deleteEntry path w1 = (Ret tt, w2)
        /\ entries (w_db w2) = entries (w_db w)).
Proof.
  split; intros Hp; unfold addFolder.
  - apply sql_insert_dup. exact Hp.
  - set (fr := mkRow path None Directory "null" mtime 0 (path_depth path)
                     None None).
    rewrite (sql_insert_ok fr w Hp). eexists. eexists.
    split; [reflexivity|].
    rewrite getEntry_eq. cbn [w_db add_event set_entries entries r_path].
    rewrite (find_row_app_new path _ fr Hp eq_refl).
    split; [reflexivity|].
    split.
    { intros q Hq. rewrite !getEntry_eq.
      cbn [fst w_db add_event set_entries entries].
      rewrite (find_row_app_other path q _ fr eq_refl Hq). reflexivity. }
    unfold deleteEntry. rewrite sql_delete_eq. split; [reflexivity|].
    cbn [w_db add_event set_entries entries].
    exact (delete_path_app_new path _ fr Hp eq_refl).
Qed.

(* ------------------------------------------------------------------ *)
(** *** [listFolderPaths] *)

Lemma like_plain_literal (pre s : string) :
  string_mem percent pre = false ->
  string_mem underscore pre = false ->
  like_plain (pre +:+ "%") s = begins_with ceq pre s.
Proof.
  unfold like_plain. revert s.
  induction pre as [|c pre IH]; intros s Hp Hu.
  - rewrite string_app_nil_l. change "%" with (String percent "").
    rewrite like_percent. change (like ceq None "") with is_empty.
    apply any_suffix_is_empty.
  - cbn [string_mem] in Hp, Hu.
    apply orb_false_iff in Hp as [Hp1 Hp]. apply orb_false_iff in Hu as [Hu1 Hu].
    rewrite string_app_cons.
    rewrite (like_plain_char None c _ s Hp1 eq_refl Hu1).
    cbn [begins_with]. destruct s as [|x s]; [reflexivity|].
    rewrite (IH s Hp Hu). reflexivity.
Qed.

(** X16.  For a path without [%] and [_], [listFolderPaths] returns the
    paths of the table that are the given path or begin with it and a
    separator (compared with the collation of the store), in ascending
    order byte by byte, which is the order of the index of the primary
    key, and changes nothing. *)
Theorem listFolderPaths_exact (path : string) (w : World) :
  string_mem percent path = false ->
  string_mem underscore path = false ->
  let paths :=
    sort_paths
      (List.map r_path
         (List.filter
            (fun r => begins_with ceq (path +:+ "/") (r_path r)
                      || String.eqb (r_path r) path)
            (entries (w_db w)))) in
  listFolderPaths path w = (Ret paths, w)
  /\ ascending paths = true
  /\ (forall p,
         In p paths <->
         exists r, In r (entries (w_db w)) /\ r_path r = p
                   /\ begins_with ceq (path +:+ "/") p || String.eqb p path
                      = true).
Proof.
  intros Hp Hu paths.
  assert (Hlit : forall s,
             like_plain (path +:+ "/%") s
             = begins_with ceq (path +:+ "/") s).
  { intros s. change "/%" with ("/" +:+ "%"). rewrite <- string_app_assoc.
    apply like_plain_literal; rewrite string_mem_app.
    - rewrite Hp. reflexivity.
    - rewrite Hu. reflexivity. }
  assert (Heq : folder_paths path (entries (w_db w)) = paths).
  { unfold folder_paths, paths. f_equal. f_equal.
    apply List.filter_ext. intros r. rewrite Hlit. reflexivity. }
  split; [rewrite listFolderPaths_eq, Heq; reflexivity|].
  split; [apply ascending_sort|].
  intros p. rewrite <- Heq, folder_paths_in.
  split; intros (r & Hr & Hpath & Hm); exists r;
    (split; [exact Hr|]); (split; [exact Hpath|]).
  - rewrite <- Hlit. exact Hm.
  - rewrite Hlit. exact Hm.
Qed.

Lemma like_plain_wild (pre pat s : string) (c : ascii) :
  (forall x, ceq x x = true) ->
  like_plain pat s = true ->
  like_plain (pre +:+ String underscore pat) (pre +:+ String c s) = true.
Proof.
  intros Hrefl Hrest. unfold like_plain in *.
  induction pre as [|x pre IH].
  - rewrite !string_app_nil_l. exact Hrest.
  - rewrite !string_app_cons.
    destruct (Ascii.eqb x percent) eqn:E1.
    + apply Ascii.eqb_eq in E1 as ->.
      rewrite like_percent, any_suffix_cons, (any_suffix_here _ _ IH).
      apply orb_true_r.
    + destruct (Ascii.eqb x underscore) eqn:E2.
      * simpl. rewrite E1, E2. exact IH.
      * rewrite like_plain_char by (assumption || reflexivity).
        rewrite Hrefl, IH. reflexivity.
Qed.

(** X17.  [listFolderPaths] binds its pattern without escaping it: an
    underscore in the path stands for any character.  Whatever stands in
    the place of the underscore, a path that is otherwise below the
    folder is listed with the paths of the folder. *)
Theorem listFolderPaths_underscore_is_wildcard (pre post rest : string)
        (c : ascii) (r : Row) (w : World) :
  (forall x, ceq x x = true) ->
  In r (entries (w_db w)) ->
  r_path r = pre +:+ String c post +:+ "/" +:+ rest ->
  exists paths,
    listFolderPaths (pre +:+ String underscore post) w = (Ret paths, w)
    /\ In (r_path r) paths.
Proof.
  intros Hrefl Hin Hpath. rewrite listFolderPaths_eq.
  eexists. split; [reflexivity|].
  apply folder_paths_in. exists r. split; [exact Hin|].
  split; [reflexivity|]. apply orb_true_iff. left. rewrite Hpath.
  rewrite !string_app_assoc, !string_app_cons.
  apply like_plain_wild; [exact Hrefl|].
  rewrite string_app_nil_l.
  assert (E1 : post +:+ "/%" = (post +:+ "/") +:+ "%")
    by (rewrite string_app_assoc; reflexivity).
  assert (E2 : post +:+ String slash rest = (post +:+ "/") +:+ rest)
    by (rewrite string_app_assoc; reflexivity).
  unfold slash in E2. rewrite E1, E2.
  apply like_plain_prefix. exact Hrefl.
Qed.

(* ------------------------------------------------------------------ *)
(** *** [addToIndex] only appends *)

Lemma add_path_paths (callback : AddCallback) (p : string) (w w' : World)
      (o : Outcome bool) :
  w_txn w = true ->
  add_path callback p w = (o, w') ->
  add_frame w w'
  /\ exists added,
       List.map r_path (entries (w_db w'))
       = (List.map r_path (entries (w_db w)) ++ added)%list
       /\ forall q, In q added ->
                    q = relativeTo p /\ indexed p = true
                    /\ has_path q (entries (w_db w)) = false.
Proof.
  intros Htxn Hrun.
  destruct (add_path_spec callback p w w' o Htxn Hrun) as [Hframe Hcases].
  split; [exact Hframe|].
  destruct Hcases
    as [(_ & _ & ->)
       |[(_ & r0 & _ & _ & _ & Hrows)
        |[(_ & _ & _ & Hrows)
         |(Hidx & node & Hnode
           & [(r0 & _ & _ & Hrows & _)|(Hnone & Hrows & _)])]]].
  - exists []. rewrite app_nil_r. split; [reflexivity|]. intros q [].
  - exists []. rewrite app_nil_r, Hrows. split; [reflexivity|]. intros q [].
  - exists []. rewrite app_nil_r, Hrows. split; [reflexivity|]. intros q [].
  - exists []. rewrite app_nil_r, Hrows, update_path_paths.
    split; [reflexivity|]. intros q [].
  - exists [relativeTo p]. rewrite Hrows, List.map_app.
    cbn [List.map row_of_entry r_path]. rewrite parsed_entry_path.
    split; [reflexivity|]. intros q [<-|[]].
    split; [reflexivity|]. split; [exact Hidx|].
    apply find_row_none_has_path. exact Hnone.
Qed.

Lemma has_path_app_paths (q : string) (rows rows' : list Row)
      (added : list string) :
  List.map r_path rows' = (List.map r_path rows ++ added)%list ->
  has_path q rows' = false -> has_path q rows = false.
Proof.
  intros Hp H. apply has_path_not_in. apply has_path_not_in in H.
  intros Hin. apply H. rewrite Hp. apply List.in_or_app. left. exact Hin.
Qed.

Lemma add_loop_paths (callback : AddCallback) (pathList : list string)
      (w w' : World) (o : Outcome bool) :
  w_txn w = true ->
  add_loop callback pathList w = (o, w') ->
  add_frame w w'
  /\ exists added,
       List.map r_path (entries (w_db w'))
       = (List.map r_path (entries (w_db w)) ++ added)%list
       /\ forall q, In q added ->
                    In q (examined_paths pathList)
                    /\ has_path q (entries (w_db w)) = false.
Proof.
  revert w. induction pathList as [|p rest IH]; intros w Htxn Hrun.
  - injection Hrun as <- <-. split; [apply add_frame_refl; exact Htxn|].
    exists []. rewrite app_nil_r. split; [reflexivity|]. intros q [].
  - cbn [add_loop] in Hrun. unfold bind in Hrun.
    destruct (add_path callback p w) as [o1 w1] eqn:E1.
    destruct (add_path_paths callback p w w1 o1 Htxn E1)
      as (F1 & added1 & P1 & G1).
    assert (Hhere : forall q, In q added1 ->
                      In q (examined_paths (p :: rest))
                      /\ has_path q (entries (w_db w)) = false).
    { intros q Hq. destruct (G1 q Hq) as (-> & Hidx & Hfree).
      split; [|exact Hfree]. rewrite examined_paths_cons, Hidx.
      left. reflexivity. }
    assert (Hstop : (o, w') = (o1, w1) ->
              add_frame w w'
              /\ exists added,
                   List.map r_path (entries (w_db w'))
                   = (List.map r_path (entries (w_db w)) ++ added)%list
                   /\ forall q, In q added ->
                                In q (examined_paths (p :: rest))
                                /\ has_path q (entries (w_db w)) = false).
    { intros [= -> ->]. split; [exact F1|]. exists added1.
      split; [exact P1|exact Hhere]. }
    destruct o1 as [[|]|e|];
      [|apply Hstop; symmetry; exact Hrun
       |apply Hstop; symmetry; exact Hrun
       |apply Hstop; symmetry; exact Hrun].
    assert (Htxn1 : w_txn w1 = true) by apply F1.
    destruct (IH w1 Htxn1 Hrun) as (F2 & added2 & P2 & G2).
    split; [eapply add_frame_trans; eassumption|].
    exists (added1 ++ added2)%list. rewrite P2, P1, app_assoc.
    split; [reflexivity|]. intros q Hq.
    apply List.in_app_or in Hq as [Hq|Hq]; [exact (Hhere q Hq)|].
    destruct (G2 q Hq) as [Hex Hfree]. split.
    + rewrite examined_paths_cons. destruct (indexed p); [right|]; exact Hex.
    + exact (has_path_app_paths q _ _ _ P1 Hfree).
Qed.

Lemma addToIndex_world (paths : list string) (callback : AddCallback)
      (w : World) :
  snd (addToIndex paths callback w) = w
  \/ exists o w1,
       add_loop callback (listed (w_fs w) paths) (begun w) = (o, w1)
       /\ entries (w_db (snd (addToIndex paths callback w)))
          = entries (w_db w1)
       /\ w_fs (snd (addToIndex paths callback w)) = w_fs w1
       /\ w_builds (snd (addToIndex paths callback w)) = w_builds w1.
Proof.
  clear ceq rootJoin hasDotNotation.
  destruct (addToIndex paths callback w) as [res w'] eqn:Hrun.
  cbn [snd]. revert Hrun.
  unfold addToIndex, listed. destruct paths as [|p0 paths];
    [intros [= _ <-]; left; reflexivity|].
  unfold bind at 1. unfold get_world at 1. cbv beta iota zeta.
  destruct (getIndexPathList (w_fs w) (p0 :: paths)) as [ex|pathList];
    [intros [= _ <-]; left; reflexivity|].
  destruct (w_txn w) eqn:Htxn.
  { rewrite (bind_throw_l _ _ _ _ _ (exec_begin_refused w Htxn)).
    intros [= _ <-]. left. reflexivity. }
  rewrite (bind_ret_l _ _ _ _ _ (exec_begin_ok w Htxn)).
  unfold bind at 1.
  destruct (add_loop callback pathList (begun w)) as [o w1] eqn:E.
  pose proof (add_loop_frame callback pathList (begun w) w1 o eq_refl E)
    as (_ & _ & Ftxn & _).
  intros Hrun. right. exists o, w1. split; [reflexivity|].
  destruct o as [[|]|e|].
  - rewrite (bind_ret_l _ _ _ _ _ (exec_commit_ok w1 Ftxn)) in Hrun.
    injection Hrun as _ <-. repeat split.
  - injection Hrun as _ <-. repeat split.
  - injection Hrun as _ <-. repeat split.
  - injection Hrun as _ <-. repeat split.
Qed.

(** X18.  [addToIndex] removes no path from the table, however it ends:
    the paths of the table are afterwards the paths before the call, in
    their order, followed by the paths it added; an added path was not
    in the table and is the relative path of a listed item whose file
    name has no backslash.  The file system and the build folders are
    as before. *)
Theorem addToIndex_only_appends (paths : list string)
        (callback : AddCallback) (w : World) :
  exists added,
    List.map r_path (entries (w_db (snd (addToIndex paths callback w))))
    = (List.map r_path (entries (w_db w)) ++ added)%list
    /\ (forall q, In q added ->
                  In q (examined_paths (listed (w_fs w) paths))
                  /\ has_path q (entries (w_db w)) = false)
    /\ w_fs (snd (addToIndex paths callback w)) = w_fs w
    /\ w_builds (snd (addToIndex paths callback w)) = w_builds w.
Proof.
  clear ceq rootJoin hasDotNotation.
  destruct (addToIndex_world paths callback w)
    as [->|(o & w1 & E & -> & -> & ->)].
  - exists []. rewrite app_nil_r. split; [reflexivity|].
    split; [intros q []|]. split; reflexivity.
  - destruct (add_loop_paths callback _ (begun w) w1 o eq_refl E)
      as ((Ffs & Fb & _) & added & P & G).
    exists added. split; [exact P|]. split; [exact G|].
    split; [exact Ffs|exact Fb].
Qed.

(* ------------------------------------------------------------------ *)
(** *** [syncIndex], twice *)

Lemma sync_row_keeps_inv (fs : FS) (r : Row) (rest : list Row) (w : World) :
  relativeTo (rootJoin (r_path r)) = r_path r ->
  sync_inv fs (r :: rest) w ->
  exists c w', sync_row r w = (Ret c, w') /\ sync_inv fs rest w'.
Proof.
  clear ceq hasDotNotation getIndexPathList.
  intros Hjoin (Hfs & Htxn & Hrows). subst fs.
  destruct (sync_row_run r w Htxn) as (w' & Hrun & _ & _ & T' & F' & _).
  exists (row_changed (w_fs w) r), w'. split; [exact Hrun|].
  unfold sync_inv. split; [exact F'|]. split; [exact T'|].
  intros r' Hr'.
  destruct (row_status (w_fs w) r) eqn:Hst.
  - destruct (sync_row_clean r w Hst) as (w2 & E2 & _ & _ & D2 & _).
    rewrite Hrun in E2. injection E2 as _ <-. rewrite D2 in Hr'.
    destruct (Hrows r' Hr') as [Hc|[<-|Hin]];
      [left; exact Hc|left; exact Hst|right; exact Hin].
  - destruct (sync_row_modified r w Hst) as (node & w2 & Hnode & E2 & R2 & _).
    rewrite Hrun in E2. injection E2 as _ <-. rewrite R2 in Hr'.
    apply update_path_in in Hr' as [->|[Hin Hne]].
    + left. apply row_clean_parsed; [|exact Hnode].
      rewrite Hjoin. reflexivity.
    + rewrite parsed_entry_path, Hjoin in Hne.
      destruct (Hrows r' Hin) as [Hc|[<-|Hin']];
        [left; exact Hc|congruence|right; exact Hin'].
  - destruct (sync_row_deleted r w Hst) as (w2 & E2 & R2 & _).
    rewrite Hrun in E2. injection E2 as _ <-. rewrite R2 in Hr'.
    unfold delete_path in Hr'. apply List.filter_In in Hr' as [Hin Hne].
    apply negb_true_iff, String.eqb_neq in Hne.
    destruct (Hrows r' Hin) as [Hc|[<-|Hin']];
      [left; exact Hc|congruence|right; exact Hin'].
Qed.

Lemma sync_loop_keeps_inv (fs : FS) (rows : list Row) (changed : bool)
      (w : World) :
  (forall r, In r rows -> relativeTo (rootJoin (r_path r)) = r_path r) ->
  sync_inv fs rows w ->
  exists c w', sync_loop rows changed w = (Ret c, w') /\ sync_inv fs [] w'.
Proof.
  revert changed w. induction rows as [|r rows IH];
    intros changed w Hjoin Hinv.
  - exists changed, w. split; [reflexivity|exact Hinv].
  - destruct (sync_row_keeps_inv fs r rows w
                (Hjoin r (or_introl eq_refl)) Hinv) as (c & w1 & E1 & Hinv1).
    cbn [sync_loop]. rewrite (bind_ret_l _ _ _ _ _ E1).
    apply IH; [|exact Hinv1].
    intros r' Hr'. apply Hjoin. right. exact Hr'.
Qed.

(** X19.  A second [syncIndex] finds nothing to do.  Outside a
    transaction, when the path of every row is the relative path of its
    file, [syncIndex] returns and leaves a table whose rows are all
    unchanged on disk; a second call, on the same file system, returns,
    changes no row, leaves the last-edit timestamp and the build folders
    alone. *)
Theorem syncIndex_idempotent (w : World) :
  w_txn w = false ->
  (forall r, In r (entries (w_db w)) ->
             relativeTo (rootJoin (r_path r)) = r_path r) ->
  exists w1 w2,
    syncIndex w = (Ret tt, w1)
    /\ Forall (row_clean (w_fs w1)) (entries (w_db w1))
    /\ syncIndex w1 = (Ret tt, w2)
    /\ w_db w2 = w_db w1 /\ w_disk w2 = w_db w1
    /\ w_builds w2 = w_builds w1.
Proof.
  intros Htxn Hjoin.
  assert (Hfirst : exists w1,
             syncIndex w = (Ret tt, w1) /\ w_txn w1 = false
             /\ Forall (row_clean (w_fs w1)) (entries (w_db w1))).
  { unfold syncIndex.
    unfold bind at 1. unfold get_world at 1. cbv beta iota zeta.
    rewrite (bind_ret_l _ _ _ _ _ (exec_begin_ok w Htxn)).
    assert (Hinv : sync_inv (w_fs w) (entries (w_db w)) (begun w)).
    { unfold sync_inv. split; [reflexivity|]. split; [reflexivity|].
      intros r Hr. right. exact Hr. }
    destruct (sync_loop_keeps_inv (w_fs w) (entries (w_db w)) false
                (begun w) Hjoin Hinv) as (c & w1 & E1 & F1 & T1 & R1).
    rewrite (bind_ret_l _ _ _ _ _ E1).
    rewrite (bind_ret_l _ _ _ _ _ (exec_commit_ok w1 T1)).
    assert (Hclean : Forall (row_clean (w_fs w1)) (entries (w_db w1))).
    { apply List.Forall_forall. intros r Hr. rewrite F1.
      destruct (R1 r Hr) as [Hc|[]]. exact Hc. }
    destruct c.
    - eexists. split; [reflexivity|]. split; [reflexivity|]. exact Hclean.
    - eexists. split; [reflexivity|]. split; [reflexivity|]. exact Hclean. }
  destruct Hfirst as (w1 & E1 & T1 & Hclean).
  destruct (syncIndex_clean w1 T1 Hclean)
    as (w2 & E2 & _ & D2 & K2 & B2 & _).
  exists w1, w2. repeat split; assumption.
Qed.

(* ------------------------------------------------------------------ *)
(** *** [addToIndex], twice *)

Lemma has_path_app (q : string) (rows rows' : list Row)
      (added : list string) :
  List.map r_path rows' = (List.map r_path rows ++ added)%list ->
  has_path q rows = true -> has_path q rows' = true.
Proof.
  intros Hp H. apply has_path_in. apply has_path_in in H.
  rewrite Hp. apply List.in_or_app. left. exact H.
Qed.

(** When the loop of [addToIndex] runs to its end, every examined path
    has a row. *)
Lemma add_loop_covers (callback : AddCallback) (pathList : list string)
      (w w' : World) :
  w_txn w = true ->
  add_loop callback pathList w = (Ret true, w') ->
  forall q, In q (examined_paths pathList) ->
            has_path q (entries (w_db w')) = true.
Proof.
  revert w. induction pathList as [|p rest IH]; intros w Htxn Hrun q Hq;
    [destruct Hq|].
  cbn [add_loop] in Hrun. apply bind_inv in Hrun
    as [(c & w1 & E1 & Hrun)|[(e & _ & He)|[_ He]]]; try discriminate.
  destruct c; [|discriminate].
  destruct (add_path_spec callback p w w1 (Ret true) Htxn E1)
    as [Hframe Hcases].
  assert (Htxn1 : w_txn w1 = true) by apply Hframe.
  destruct (add_loop_paths callback rest w1 w' (Ret true) Htxn1 Hrun)
    as (_ & added & P & _).
  rewrite examined_paths_cons in Hq.
  assert (Hhere : indexed p = true ->
                  has_path (relativeTo p) (entries (w_db w1)) = true).
  { intros Hidx.
    destruct Hcases
      as [(Hn & _)
         |[(_ & r0 & Hfind & _ & _ & Hrows)
          |[(_ & _ & (e & He) & _)
           |(_ & node & Hnode
             & [(r0 & Hfind & _ & Hrows & _)|(_ & Hrows & _)])]]].
    - congruence.
    - rewrite Hrows. exact (find_row_has_path _ _ _ Hfind).
    - discriminate.
    - apply has_path_in. rewrite Hrows, update_path_paths.
      apply has_path_in. exact (find_row_has_path _ _ _ Hfind).
    - apply has_path_in. rewrite Hrows, List.map_app.
      apply List.in_or_app. right. cbn [List.map row_of_entry r_path].
      rewrite parsed_entry_path. left. reflexivity. }
  destruct (indexed p) eqn:Hidx.
  - destruct Hq as [<-|Hq].
    + exact (has_path_app _ _ _ _ P (Hhere eq_refl)).
    + exact (IH w1 Htxn1 Hrun q Hq).
  - exact (IH w1 Htxn1 Hrun q Hq).
Qed.

(** On a table whose rows are unchanged on disk and that has a row for
    the path, one turn of the loop of [addToIndex] touches no row. *)
Lemma add_path_settled (callback : AddCallback) (p : string) (w : World) :
  w_txn w = true ->
  (forall r, In r (entries (w_db w)) -> row_clean (w_fs w) r) ->
  w_fs w (rootJoin (relativeTo p)) = w_fs w p ->
  (indexed p = true ->
   has_path (relativeTo p) (entries (w_db w)) = true) ->
  exists w',
    add_path callback p w = (Ret true, w')
    /\ entries (w_db w') = entries (w_db w)
    /\ add_frame w w'.
Proof.
  clear ceq hasDotNotation getIndexPathList.
  intros Htxn Hclean Hjoin Hcov.
  destruct (add_path callback p w) as [o w'] eqn:E.
  destruct (add_path_spec callback p w w' o Htxn E) as [Hframe Hcases].
  assert (Hfound : forall r0,
             find_row (relativeTo p) (entries (w_db w)) = Some r0 ->
             file_status (w_fs w) p (r_mtime r0) (getText (r_hash r0))
             = NotModified).
  { intros r0 Hfind. destruct (find_row_some _ _ _ Hfind) as [Hin Hpath].
    pose proof (Hclean r0 Hin) as Hc. unfold row_clean, row_status in Hc.
    rewrite Hpath in Hc.
    rewrite <- (file_status_same_node (w_fs w) p _ _ _ Hjoin). exact Hc. }
  destruct Hcases
    as [(_ & -> & ->)
       |[(_ & r0 & _ & _ & -> & Hrows)
        |[(Hidx & Hnone & _ & _)
         |(Hidx & node & Hnode
           & [(r0 & Hfind & Hst & _)|(Hnone & _)])]]].
  - exists w. split; [reflexivity|]. split; [reflexivity|exact Hframe].
  - exists w'. split; [reflexivity|]. split; [exact Hrows|exact Hframe].
  - exfalso. pose proof (Hcov Hidx) as Hhas.
    destruct (find_row (relativeTo p) (entries (w_db w))) as [r0|] eqn:Hfind.
    + pose proof (Hfound r0 eq_refl) as Hst. unfold file_status in Hst.
      rewrite Hnone in Hst. discriminate.
    + rewrite (find_row_none_has_path _ _ Hfind) in Hhas. discriminate.
  - exfalso. exact (Hst (Hfound r0 Hfind)).
  - exfalso. pose proof (Hcov Hidx) as Hhas.
    rewrite (find_row_none_has_path _ _ Hnone) in Hhas. discriminate.
Qed.

Lemma add_loop_settled (callback : AddCallback) (pathList : list string)
      (w : World) :
  w_txn w = true ->
  (forall r, In r (entries (w_db w)) -> row_clean (w_fs w) r) ->
  (forall p, In p pathList ->
             w_fs w (rootJoin (relativeTo p)) = w_fs w p) ->
  (forall q, In q (examined_paths pathList) ->
             has_path q (entries (w_db w)) = true) ->
  exists w',
    add_loop callback pathList w = (Ret true, w')
    /\ entries (w_db w') = entries (w_db w)
    /\ add_frame w w'.
Proof.
  revert w. induction pathList as [|p rest IH];
    intros w Htxn Hclean Hjoin Hcov.
  - exists w. split; [reflexivity|]. split; [reflexivity|].
    apply add_frame_refl. exact Htxn.
  - assert (Hcov1 : indexed p = true ->
                    has_path (relativeTo p) (entries (w_db w)) = true).
    { intros Hidx. apply Hcov. rewrite examined_paths_cons, Hidx.
      left. reflexivity. }
    destruct (add_path_settled callback p w Htxn Hclean
                (Hjoin p (or_introl eq_refl)) Hcov1)
      as (w1 & E1 & R1 & F1).
    cbn [add_loop]. rewrite (bind_ret_l _ _ _ _ _ E1).
    assert (Hfs1 : w_fs w1 = w_fs w) by apply F1.
    assert (Htxn1 : w_txn w1 = true) by apply F1.
    destruct (IH w1 Htxn1) as (w2 & E2 & R2 & F2).
    + rewrite R1, Hfs1. exact Hclean.
    + intros q Hq. rewrite Hfs1. apply Hjoin. right. exact Hq.
    + intros q Hq. rewrite R1. apply Hcov. rewrite examined_paths_cons.
      destruct (indexed p); [right|]; exact Hq.
    + exists w2. split; [exact E2|]. split; [congruence|].
      eapply add_frame_trans; eassumption.
Qed.

(** X20.  Adding the same paths again changes no row.  After an
    [addToIndex] that returned (no callback that cancels, every row
    unchanged on disk or examined), a second [addToIndex] of the same
    paths on the same file system returns, whatever its callback; it
    leaves every row and every build folder as it is, and records the
    current time as the last edit all the same. *)
Theorem addToIndex_again_changes_no_row (paths : list string)
        (callback callback' : AddCallback) (w w1 : World) :
  w_txn w = false ->
  List.NoDup (List.map r_path (entries (w_db w))) ->
  never_cancels callback ->
  (forall p, In p (listed (w_fs w) paths) ->
             w_fs w (rootJoin (relativeTo p)) = w_fs w p) ->
  (forall r, In r (entries (w_db w)) ->
             row_clean (w_fs w) r
             \/ In (r_path r) (examined_paths (listed (w_fs w) paths))) ->
  addToIndex paths callback w = (Ret tt, w1) ->
  exists w2,
    addToIndex paths callback' w1 = (Ret tt, w2)
    /\ entries (w_db w2) = entries (w_db w1)
    /\ w_builds w2 = w_builds w1
    /\ (paths <> [] -> last_edit (w_db w2) = w_time w1).
Proof.
  clear ceq hasDotNotation.
  intros Htxn Hnd Hnc Hjoin Hrows Hrun.
  destruct (addToIndex_leaves_clean paths callback w w1
              Htxn Hnd Hnc Hjoin Hrows Hrun) as (Hfs1 & Htxn1 & Hclean1).
  destruct paths as [|p0 paths].
  { exists w1. split; [reflexivity|]. split; [reflexivity|].
    split; [reflexivity|]. intros H. congruence. }
  unfold addToIndex in Hrun.
  unfold bind at 1 in Hrun. unfold get_world at 1 in Hrun.
  unfold listed in Hjoin, Hrows.
  destruct (getIndexPathList (w_fs w) (p0 :: paths)) as [ex|pathList] eqn:Hl;
    [discriminate|].
  rewrite (bind_ret_l _ _ _ _ _ (exec_begin_ok w Htxn)) in Hrun.
  apply bind_inv in Hrun
    as [(b & w0 & E0 & Hrun)|[(e & _ & He)|[_ He]]]; try discriminate.
  assert (Hinv0 : add_inv (w_fs w) pathList (begun w)).
  { unfold add_inv. cbn [begun w_fs w_txn w_db].
    repeat split; try reflexivity; assumption. }
  destruct (add_loop_keeps_inv callback (w_fs w) pathList (begun w) w0 b
              Hjoin Hnc Hinv0 E0) as [-> (F0 & T0 & _)].
  pose proof (add_loop_covers callback pathList (begun w) w0 eq_refl E0)
    as Hcov0.
  rewrite (bind_ret_l _ _ _ _ _ (exec_commit_ok w0 T0)) in Hrun.
  assert (Hrows1 : entries (w_db w1) = entries (w_db w0)).
  { injection Hrun as <-. reflexivity. }
  unfold addToIndex.
  unfold bind at 1. unfold get_world at 1. cbv beta iota zeta.
  rewrite Hfs1, Hl.
  rewrite (bind_ret_l _ _ _ _ _ (exec_begin_ok w1 Htxn1)).
  destruct (add_loop_settled callback' pathList (begun w1) eq_refl)
    as (w3 & E3 & R3 & (F3 & B3 & T3 & _ & C3 & _)).
  { intros r Hr. cbn [begun w_fs w_db] in *.
    exact (proj1 (List.Forall_forall _ _) Hclean1 r Hr). }
  { intros p Hp. cbn [begun w_fs]. rewrite Hfs1. exact (Hjoin p Hp). }
  { intros q Hq. cbn [begun w_db]. rewrite Hrows1. exact (Hcov0 q Hq). }
  rewrite (bind_ret_l _ _ _ _ _ E3).
  rewrite (bind_ret_l _ _ _ _ _ (exec_commit_ok w3 T3)).
  eexists. split; [reflexivity|].
  cbn. split; [exact R3|]. split; [exact B3|]. intros _. exact C3.
Qed.

(* ------------------------------------------------------------------ *)
(** *** [createMissingFolders] and the folder of a file *)

(** X21.  [createMissingFolders] gives a file its folder: for a row that
    is not a directory, with a path [d/n] whose file name [n] is not
    empty, has no separator and does not occur in [d], and whose folder
    path [d] neither begins nor ends with a separator, the table has a
    directory row at [d] once [createMissingFolders] has returned; when
    there was none, the folder-consistency query reported [d]. *)
Theorem createMissingFolders_adds_parent (w w1 : World) (r : Row)
        (d n : string) :
  createMissingFolders w = (Ret tt, w1) ->
  In r (entries (w_db w)) ->
  r_type r <> Directory ->
  r_path r = d +:+ "/" +:+ n ->
  n <> "" -> string_mem slash n = false -> occurs n d = false ->
  slash_ended d = false ->
  has_folder d (entries (w_db w1)) = true
  /\ (has_folder d (entries (w_db w)) = false ->
      In d (folder_consistency_query (entries (w_db w)))).
Proof.
  intros Hrun Hin Htype Hpath Hne Hn Hocc Hd.
  assert (Hrep : has_folder d (entries (w_db w)) = false ->
                 In d (folder_consistency_query (entries (w_db w)))).
  { apply (folder_query_reports _ r d n); assumption. }
  split; [|exact Hrep].
  pose proof (createMissingFolders_eq w) as Heq.
  destruct (add_folders (w_time w)
              (folder_consistency_query (entries (w_db w)))
              (entries (w_db w))) as [final|] eqn:Hadd.
  - destruct Heq as (w' & E & Hrows & _).
    rewrite E in Hrun. injection Hrun as ->.
    apply add_folders_some in Hadd.
    rewrite Hrows, Hadd, has_folder_app.
    destruct (has_folder d (entries (w_db w))) eqn:Hhas; [reflexivity|].
    cbn [orb]. apply has_folder_new. apply Hrep. reflexivity.
  - destruct Heq as (w' & E & _). rewrite E in Hrun. discriminate.
Qed.

End Ops.

(* ================================================================== *)
(** * The properties on the example tree *)

(** C5, amended.  [sanitize_query_param] is the four substitutions in
    their order, which amounts to one rewriting per character; read with
    [/] as the escape character of LIKE, the sanitized pattern matches as
    the input read with [*] for any run of characters and every other
    character for itself; [getMatchingEntries] uses it so, with [%] in
    place of an empty pattern.  The input [weird%name_*] matches the
    paths that begin with text that the collation of the store takes for
    [weird%name_]: with the folding of ASCII case of LIKE these are the
    paths that begin with [weird%name_] in some mix of upper and lower
    case, and no others. *)
Theorem sanitize_like_pattern :
  (forall str,
      sanitize_query_param str
      = string_replace
          (string_replace
             (string_replace (string_replace str "/" "//") "%" "/%")
             "_" "/_")
          "*" "%")
  /\ sanitize_query_param "" = ""
  /\ (forall c s,
         sanitize_query_param (String c s)
         = escape_char c +:+ sanitize_query_param s)
  /\ (forall ceq q p,
         like ceq (Some slash) (sanitize_query_param q) p = glob ceq q p)
  /\ (forall ceq path w,
         getMatchingEntries ceq path 0 false w
         = (Ret (List.map entry_of_row
                   (List.filter
                      (fun r =>
                         like ceq (Some slash)
                           (if is_empty (sanitize_query_param path)
                            then "%" else sanitize_query_param path)
                           (r_path r))
                      (entries (w_db w)))), w))
  /\ (forall ceq p, like ceq (Some slash) "%" p = true)
  /\ (forall ceq p,
         like ceq (Some slash) (sanitize_query_param "weird%name_*") p
         = begins_with ceq "weird%name_" p)
  /\ (forall p,
         like nocase (Some slash) (sanitize_query_param "weird%name_*") p
         = true
         <-> exists text rest,
               p = text +:+ rest
               /\ string_map tolower text = "weird%name_").
Proof.
  split; [reflexivity|]. split; [reflexivity|].
  split; [exact sanitize_cons|].
  split; [exact like_sanitize|].
  split.
  { intros ceq path w.
    etransitivity;
      [exact (getMatchingEntries_default ceq demo_path path w)|].
    unfold remove_matches_of, match_pattern, demo_path, like_escaped.
    destruct (sanitize_query_param path); reflexivity. }
  split.
  { intros ceq p. change "%" with (String percent "").
    rewrite like_percent. change (like ceq (Some slash) "") with is_empty.
    apply any_suffix_is_empty. }
  assert (Hgeneral : forall ceq p,
             like ceq (Some slash) (sanitize_query_param "weird%name_*") p
             = begins_with ceq "weird%name_" p).
  { intros ceq p.
    change (like ceq (Some slash) (sanitize_query_param "weird%name_*") p)
      with (like_escaped ceq (sanitize_query_param "weird%name_*") p).
    rewrite like_sanitize.
    apply (glob_literal_star ceq "weird%name_" p). reflexivity. }
  split; [exact Hgeneral|].
  intros p. rewrite Hgeneral. apply begins_with_nocase.
Qed.

(** C5, a counterexample to the claim as stated: the path [WEIRD%NAME_2]
    does not begin with the text [weird%name_]; the LIKE of the store
    folds the case of ASCII letters, so the pattern of the input
    [weird%name_*] matches this path, [getMatchingEntries] returns its
    entry and [removeFromIndex] removes it. *)
Lemma sanitized_pattern_folds_case :
  sanitize_query_param "weird%name_*" = "weird/%name/_%"
  /\ r_path row_upper = "WEIRD%NAME_2"
  /\ String.prefix "weird%name_" (r_path row_upper) = false
  /\ like nocase (Some slash) (sanitize_query_param "weird%name_*")
       (r_path row_upper) = true
  /\ getMatchingEntries nocase "weird%name_*" 0 false
       (demo_world [row_upper; row_y] ∅)
     = (Ret [entry_of_row row_upper], demo_world [row_upper; row_y] ∅)
  /\ exists w',
       removeFromIndex nocase demo_path ["weird%name_*"] None
         (demo_world [row_upper; row_y] ∅)
       = (Ret tt, w')
       /\ entries (w_db w') = [row_y].
Proof.
  split; [vm_compute; reflexivity|].
  split; [reflexivity|].
  split; [vm_compute; reflexivity|].
  split; [vm_compute; reflexivity|].
  split; [vm_compute; reflexivity|].
  eexists. split; vm_compute; reflexivity.
Qed.

(** C1, at a failing input: [addToIndex] on a fresh index, for the file
    [a/f], with a callback that returns [false].  The call returns
    normally with its transaction still open: the inserted row is in the
    store as the connection sees it and not in the committed store, nothing
    was rolled back, the last-edit timestamp is unchanged, and the next
    operation that begins a transaction on this connection is refused by
    the store. *)
Theorem addToIndex_cancel_leaves_transaction_open :
  exists w',
    addToIndex demo_sha256 demo_classify demo_meta demo_geom demo_geom
      demo_path demo_listing ["a/f"] (Some (fun _ _ => false)) demo_empty
    = (Ret tt, w')
    /\ w_txn w' = true
    /\ entries (w_db w') = [row_af]
    /\ entries (w_disk w') = []
    /\ last_edit (w_db w') = last_edit (w_db demo_empty)
    /\ w_trace w'
       = [EvBegin; EvHash "a/f"; EvInsert "a/f"; EvAddCallback "a/f" false]
    /\ syncIndex demo_sha256 demo_classify demo_meta demo_geom demo_geom
         demo_path demo_path w'
       = (Throw (SQLException
                   "cannot start a transaction within a transaction"), w').
Proof.
  eexists. split; [vm_compute; reflexivity|].
  repeat split; vm_compute; reflexivity.
Qed.

(** C2, a counterexample to the claim as stated: the row of [a/f] holds the
    hash [old], whose build folder exists, and the file has changed on
    disk.  [syncIndex] rewrites the row with the new hash, and the build
    folder of the prior hash is still there. *)
Lemma sync_modified_keeps_build_folder :
  exists w',
    syncIndex demo_sha256 demo_classify demo_meta demo_geom demo_geom
      demo_path demo_path (demo_world [row_af_old] {[ "old" ]})
    = (Ret tt, w')
    /\ List.map r_hash (entries (w_db w')) = [Some "sha:xyz"]
    /\ bool_decide ("old" ∈ w_builds w') = true
    /\ w_trace w' = [EvBegin; EvHash "a/f"; EvHash "a/f"; EvUpdate "a/f";
                     EvPrint ("U" +:+ tab +:+ "a/f"); EvCommit;
                     EvSetLastUpdate].
Proof.
  eexists. split; [vm_compute; reflexivity|].
  repeat split; vm_compute; reflexivity.
Qed.

(** C6, a counterexample to the claim as stated: the first input path
    matches an entry, which is removed, and the call fails all the same,
    because the second input path matches nothing. *)
Lemma removeFromIndex_fails_after_a_match :
  exists w',
    removeFromIndex Ascii.eqb demo_path ["a/f"; "zzz"] None
      (demo_world [row_af; row_a] ∅)
    = (Throw (FSException "No matching entries"), w')
    /\ entries (w_db w') = [row_a]
    /\ w_trace w' = [EvDeleteLike "a//f"].
Proof.
  eexists. split; [vm_compute; reflexivity|].
  split; vm_compute; reflexivity.
Qed.

(** C7, a counterexample to the claim as stated: the index holds a row for
    a file that is no longer on disk; [addToIndex] of another file runs to
    its end, the clock moves on, the file system stays as it is, and
    [syncIndex] deletes the stale row and records a new last-edit
    timestamp. *)
Lemma sync_after_add_deletes_stale_row :
  exists w1 w2,
    addToIndex demo_sha256 demo_classify demo_meta demo_geom demo_geom
      demo_path demo_listing ["y"] None (demo_world [row_gone] ∅)
    = (Ret tt, w1)
    /\ List.map r_path (entries (w_db w1)) = ["gone"; "y"]
    /\ last_edit (w_db w1) = 100
    /\ syncIndex demo_sha256 demo_classify demo_meta demo_geom demo_geom
         demo_path demo_path
         (mkWorld (w_fs w1) (w_builds w1) (w_db w1) (w_disk w1) (w_txn w1)
                  200 [])
       = (Ret tt, w2)
    /\ List.map r_path (entries (w_db w2)) = ["y"]
    /\ last_edit (w_db w2) = 200
    /\ w_trace w2 = [EvBegin; EvDelete "gone";
                     EvPrint ("D" +:+ tab +:+ "gone"); EvCommit;
                     EvSetLastUpdate].
Proof.
  eexists _, _. split; [vm_compute; reflexivity|].
  split; [vm_compute; reflexivity|].
  split; [vm_compute; reflexivity|].
  split; [vm_compute; reflexivity|].
  repeat split; vm_compute; reflexivity.
Qed.


(* ------------------------------------------------------------------ *)
(** ** The theorems at work on the example tree *)

(** C2 on the example tree: a row whose file is gone, a row whose file
    has changed, and one path of an add inside its transaction. *)
Lemma build_folder_invalidation_witness :
  row_status demo_sha256 demo_path demo_fs row_gone = Deleted
  /\ (exists w',
         sync_row demo_sha256 demo_classify demo_meta demo_geom demo_geom
           demo_path demo_path row_gone (demo_world [row_gone] {[ "sha:g" ]})
         = (Ret true, w')
         /\ entries (w_db w') = []
         /\ "sha:g" ∉ w_builds w')
  /\ row_status demo_sha256 demo_path demo_fs row_af_old = Modified
  /\ (exists w',
         sync_row demo_sha256 demo_classify demo_meta demo_geom demo_geom
           demo_path demo_path row_af_old
           (demo_world [row_af_old] {[ "old" ]})
         = (Ret true, w')
         /\ w_builds w' = {[ "old" ]}).
Proof.
  destruct (build_folder_invalidation Ascii.eqb demo_sha256 demo_classify
              demo_meta demo_geom demo_geom demo_path demo_path)
    as (_ & Hdel & Hmod & _).
  split; [reflexivity|]. split.
  { destruct (Hdel row_gone (demo_world [row_gone] {[ "sha:g" ]}) eq_refl)
      as (w' & E & Hent & Hb).
    exists w'. split; [exact E|]. split; [exact Hent|].
    apply Hb. discriminate. }
  split; [reflexivity|].
  destruct (Hmod row_af_old (demo_world [row_af_old] {[ "old" ]}) eq_refl)
    as (node & w' & _ & E & _ & Hb).
  exists w'. split; [exact E|exact Hb].
Defined.

(** C3 on the example tree: a missing path, the folder [a], and the file
    [a/f] against a stored mtime that is the same, and against one that
    differs with the stored hash equal or not. *)
Lemma checkUpdate_cases_witness :
  checkUpdate demo_sha256 new_entry "zzz" 7 "old" demo_empty
  = (Ret (Deleted, new_entry), demo_empty)
  /\ checkUpdate demo_sha256 new_entry "a" 7 "old" demo_empty
     = (Ret (NotModified, new_entry), demo_empty)
  /\ checkUpdate demo_sha256 new_entry "a/f" 7 "old" demo_empty
     = (Ret (NotModified, set_mtime new_entry 7), demo_empty)
  /\ checkUpdate demo_sha256 new_entry "a/f" 1 "sha:xyz" demo_empty
     = (Ret (NotModified, set_hash (set_mtime new_entry 7) "sha:xyz"),
        add_event (EvHash "a/f") demo_empty)
  /\ checkUpdate demo_sha256 new_entry "a/f" 1 "old" demo_empty
     = (Ret (Modified, set_hash (set_mtime new_entry 7) "sha:xyz"),
        add_event (EvHash "a/f") demo_empty).
Proof.
  split.
  { apply (proj1 (checkUpdate_cases demo_sha256 demo_classify demo_meta
             demo_geom demo_geom demo_path demo_path new_entry "zzz" 7 "old"
             demo_empty)).
    reflexivity. }
  split.
  { apply (proj1 (proj2 (checkUpdate_cases demo_sha256 demo_classify
             demo_meta demo_geom demo_geom demo_path demo_path new_entry
             "a" 7 "old" demo_empty)) 5).
    reflexivity. }
  split.
  { apply (proj1 (proj2 (proj2 (checkUpdate_cases demo_sha256 demo_classify
             demo_meta demo_geom demo_geom demo_path demo_path new_entry
             "a/f" 7 "old" demo_empty))) 3 "xyz").
    reflexivity. }
  split.
  { apply (proj1 (proj2 (proj2 (proj2 (checkUpdate_cases demo_sha256
             demo_classify demo_meta demo_geom demo_geom demo_path demo_path
             new_entry "a/f" 1 "sha:xyz" demo_empty)))) 7 3 "xyz").
    - reflexivity.
    - discriminate.
    - reflexivity. }
  apply (proj1 (proj2 (proj2 (proj2 (proj2 (checkUpdate_cases demo_sha256
           demo_classify demo_meta demo_geom demo_geom demo_path demo_path
           new_entry "a/f" 1 "old" demo_empty))))) 7 3 "xyz").
  - reflexivity.
  - discriminate.
  - discriminate.
Defined.

(** C4 on the example tree: after [addToIndex] of [a/f] on a fresh index
    the committed store holds the Directory row of [a], with the columns
    of a directory. *)
Lemma directory_rows_invariant_witness :
  In row_a
     (entries
        (w_disk
           (snd (addToIndex demo_sha256 demo_classify demo_meta demo_geom
                   demo_geom demo_path demo_listing ["a/f"] None
                   demo_empty))))
  /\ r_type row_a = Directory
  /\ directory_columns row_a.
Proof.
  assert (Hin : In row_a
     (entries
        (w_disk
           (snd (addToIndex demo_sha256 demo_classify demo_meta demo_geom
                   demo_geom demo_path demo_listing ["a/f"] None
                   demo_empty))))).
  { vm_compute. right. left. reflexivity. }
  split; [exact Hin|]. split; [reflexivity|].
  refine (proj1 (directory_rows_invariant Ascii.eqb demo_sha256 demo_classify
                   demo_meta demo_geom demo_geom demo_path demo_path
                   demo_hasDotNotation demo_listing _ _) row_a Hin eq_refl).
  apply reach_add.
  exact (reach_env Ascii.eqb demo_sha256 demo_classify demo_meta demo_geom
           demo_geom demo_path demo_path demo_hasDotNotation demo_listing
           _ demo_fs ∅ 100
           (reach_init Ascii.eqb demo_sha256 demo_classify demo_meta
              demo_geom demo_geom demo_path demo_path demo_hasDotNotation
              demo_listing demo_fs ∅ 50)).
Defined.

(** C6 on the example tree: the second of two input paths matches
    nothing. *)
Lemma removeFromIndex_fails_iff_witness :
  (forall c, Ascii.eqb c c = true)
  /\ unmatched_input Ascii.eqb demo_path None ["a/f"; "zzz"]
       (demo_world [row_af; row_a] ∅)
  /\ ~ unmatched_input Ascii.eqb demo_path None ["a/f"; "a"]
       (demo_world [row_af; row_a] ∅).
Proof.
  split; [exact Ascii.eqb_refl|]. split.
  - apply (removeFromIndex_fails_iff Ascii.eqb demo_path ["a/f"; "zzz"] None
             (demo_world [row_af; row_a] ∅) Ascii.eqb_refl).
    eexists. vm_compute. reflexivity.
  - apply (removeFromIndex_fails_iff Ascii.eqb demo_path ["a/f"; "a"] None
             (demo_world [row_af; row_a] ∅) Ascii.eqb_refl).
    eexists. vm_compute. reflexivity.
Defined.

(** C7 on the example tree: the index holds the unchanged file [y];
    [a/f] is added, with the folder above it, and the sync that follows
    changes nothing. *)
Lemma add_then_sync_noop_witness :
  exists w1 w2,
    addToIndex demo_sha256 demo_classify demo_meta demo_geom demo_geom
      demo_path demo_listing ["a/f"] None (demo_world [row_y] ∅)
    = (Ret tt, w1)
    /\ List.map r_path (entries (w_db w1)) = ["y"; "a/f"; "a"]
    /\ syncIndex demo_sha256 demo_classify demo_meta demo_geom demo_geom
         demo_path demo_path w1
       = (Ret tt, w2)
    /\ w_db w2 = w_db w1 /\ w_disk w2 = w_db w1.
Proof.
  set (w := demo_world [row_y] ∅).
  set (w1 := snd (addToIndex demo_sha256 demo_classify demo_meta demo_geom
                    demo_geom demo_path demo_listing ["a/f"] None w)).
  assert (Hadd : addToIndex demo_sha256 demo_classify demo_meta demo_geom
                   demo_geom demo_path demo_listing ["a/f"] None w
                 = (Ret tt, w1)).
  { vm_compute. reflexivity. }
  assert (Hnd : List.NoDup (List.map r_path (entries (w_db w)))).
  { apply List.NoDup_cons; [intros []|apply List.NoDup_nil]. }
  assert (Hrows : forall r, In r (entries (w_db w)) ->
            row_clean demo_sha256 demo_path (w_fs w) r
            \/ In (r_path r)
                  (examined_paths demo_path
                     (listed demo_listing (w_fs w) ["a/f"]))).
  { intros r [<-|[]]. left. reflexivity. }
  destruct (add_then_sync_noop demo_sha256 demo_classify demo_meta demo_geom
              demo_geom demo_path demo_path demo_listing ["a/f"] None w w1
              eq_refl Hnd I (fun p _ => eq_refl) Hrows Hadd)
    as (w2 & Hsync & Hdb & Hdisk & _).
  exists w1, w2. split; [exact Hadd|]. split; [vm_compute; reflexivity|].
  split; [exact Hsync|]. split; assumption.
Defined.


(** The order of the listed paths at work: the folder [a] is moved to
    [a/b], below itself, in a table that holds [a/f] before [a/b/f].  The
    paths are listed as [a], [a/b/f], [a/f]: the row of [a/b/f] has gone
    to [a/b/b/f] when the turn of [a/f] deletes what is at [a/b/f], and
    both files are in the table afterwards. *)
Lemma moveEntry_folder_below_itself :
  folder_paths nocase "a" [row_af; row_abf; row_a] = ["a"; "a/b/f"; "a/f"]
  /\ exists w',
       moveEntry nocase demo_hasDotNotation "a" "a/b"
         (demo_world [row_af; row_abf; row_a] ∅)
       = (Ret tt, w')
       /\ List.map (fun r => (r_path r, getText (r_hash r), r_type r))
            (entries (w_db w'))
          = [("a/b/f", "sha:xyz", Generic); ("a/b/b/f", "sha:bf", Generic);
             ("a/b", "", Directory); ("a/b/b", "", Directory)].
Proof.
  split; [vm_compute; reflexivity|].
  eexists. split; vm_compute; reflexivity.
Qed.

(** C9 on the example tree: the file [a/f] is moved onto the file [a/g];
    the folder [a] cannot be moved onto [a/f], nor [a/f] onto [a]. *)
Lemma moveEntry_onto_existing_witness :
  moveEntry Ascii.eqb demo_hasDotNotation "a/f" "a/g"
    (demo_world [row_af; row_ag; row_a] ∅)
  = (Ret tt, moved_file_world "a/f" "a/g"
               (demo_world [row_af; row_ag; row_a] ∅))
  /\ entries (w_db (moved_file_world "a/f" "a/g"
                      (demo_world [row_af; row_ag; row_a] ∅)))
     = [with_path "a/g" row_af; row_a]
  /\ (exists msg,
         moveEntry Ascii.eqb demo_hasDotNotation "a" "a/f"
           (demo_world [row_af; row_ag; row_a] ∅)
         = (Throw (InvalidArgsException msg),
            demo_world [row_af; row_ag; row_a] ∅))
  /\ (exists msg,
         moveEntry Ascii.eqb demo_hasDotNotation "a/f" "a"
           (demo_world [row_af; row_ag; row_a] ∅)
         = (Throw (InvalidArgsException msg),
            demo_world [row_af; row_ag; row_a] ∅)).
Proof.
  assert (Hfg : "a/f" <> "a/g") by discriminate.
  assert (Haf : "a" <> "a/f") by discriminate.
  assert (Hfa : "a/f" <> "a") by discriminate.
  assert (Hf : "a/f" <> "") by discriminate.
  assert (Hg : "a/g" <> "") by discriminate.
  assert (Ha : "a" <> "") by discriminate.
  assert (Hty : forall k, class_type k <> Directory)
    by (intros []; discriminate).
  destruct (moveEntry_onto_existing Ascii.eqb demo_hasDotNotation "a/f" "a/g"
              (demo_world [row_af; row_ag; row_a] ∅) row_af row_ag
              Hf Hg Hfg eq_refl eq_refl) as (_ & _ & H3).
  destruct (H3 (Hty CGeneric) (Hty CGeneric) eq_refl eq_refl eq_refl eq_refl
               eq_refl) as (E & _ & Hent).
  split; [exact E|]. split; [reflexivity|]. split.
  - apply (proj1 (moveEntry_onto_existing Ascii.eqb demo_hasDotNotation
             "a" "a/f" (demo_world [row_af; row_ag; row_a] ∅) row_a row_af
             Ha Hf Haf eq_refl eq_refl)).
    reflexivity.
  - apply (proj1 (proj2 (moveEntry_onto_existing Ascii.eqb
             demo_hasDotNotation "a/f" "a"
             (demo_world [row_af; row_ag; row_a] ∅) row_af row_a
             Hf Ha Hfa eq_refl eq_refl))).
    + apply (Hty CGeneric).
    + reflexivity.
Defined.

(** C10 on the example tree: the read of the last character of [a/f] is
    in bounds; an empty endpoint is undefined behaviour; two non-empty
    endpoints are not. *)
Lemma moveEntry_nonempty_endpoints_witness :
  (0 <= last_index "a/f" < 3
   /\ exists c, string_at "a/f" (last_index "a/f") = Some c)
  /\ moveEntry Ascii.eqb demo_hasDotNotation "" "b" demo_empty
     = (Undef, demo_empty)
  /\ moveEntry Ascii.eqb demo_hasDotNotation "a" "" demo_empty
     = (Undef, demo_empty)
  /\ fst (moveEntry Ascii.eqb demo_hasDotNotation "a" "b" demo_empty)
     <> Undef.
Proof.
  destruct (moveEntry_nonempty_endpoints Ascii.eqb demo_hasDotNotation)
    as (Hin & _ & Hsrc & Hdst & Hok).
  assert (Hf : "a/f" <> "") by discriminate.
  assert (Ha : "a" <> "") by discriminate.
  assert (Hb : "b" <> "") by discriminate.
  split; [exact (Hin "a/f" Hf)|].
  split; [apply Hsrc|].
  split; [apply Hdst; reflexivity|].
  apply Hok; assumption.
Defined.

(* ================================================================== *)
(** ** The extension test of the indexer *)

Lemma tolower_toupper (c : ascii) : tolower (toupper c) = tolower c.
Proof.
  destruct c as [[] [] [] [] [] [] [] []]; vm_compute; reflexivity.
Qed.

Lemma tolower_not_upper (c : ascii) : is_upper (tolower c) = false.
Proof.
  destruct c as [[] [] [] [] [] [] [] []]; vm_compute; reflexivity.
Qed.

Lemma string_map_tolower_toupper (s : string) :
  string_map tolower (string_map toupper s) = string_map tolower s.
Proof.
  induction s as [|c s IH]; simpl; [reflexivity|].
  rewrite tolower_toupper, IH. reflexivity.
Qed.

Lemma has_upper_tolower (s : string) :
  has_upper (string_map tolower s) = false.
Proof.
  unfold has_upper. induction s as [|c s IH]; simpl; [reflexivity|].
  rewrite tolower_not_upper. exact IH.
Qed.

Lemma eqb_lowered (m s : string) :
  has_upper m = true -> String.eqb m (string_map tolower s) = false.
Proof.
  intros Hm. destruct (String.eqb m (string_map tolower s)) eqn:E;
    [|reflexivity].
  apply String.eqb_eq in E. subst m.
  rewrite has_upper_tolower in Hm. discriminate.
Qed.

(** X1. [checkExtension] does not look at the case of the extension, nor
    at its first character: an extension written in upper case, after any
    first character, gets the answer of the extension as written. *)
Theorem checkExtension_ignores_case (c c' : ascii) (e : string)
        (matches : list string) :
  checkExtension (String c (string_map toupper e)) matches
  = checkExtension (String c' e) matches.
Proof.
  unfold checkExtension. cbn [String.length Nat.ltb Nat.leb string_drop].
  rewrite string_map_tolower_toupper. reflexivity.
Qed.

(** X2. A match that contains an upper-case letter is never hit: the
    extension is compared in lower case, the matches as they are written,
    so such a match can be left out of the list without changing any
    answer. *)
Theorem checkExtension_upper_match_is_dead (ext m : string)
        (before after : list string) :
  has_upper m = true ->
  checkExtension ext (before ++ m :: after)%list
  = checkExtension ext (before ++ after)%list.
Proof.
  intros Hm. unfold checkExtension.
  destruct (String.length ext <? 1)%nat; [reflexivity|].
  rewrite !existsb_app. cbn [existsb].
  rewrite (eqb_lowered m _ Hm). reflexivity.
Qed.

Lemma checkExtension_upper_match_is_dead_witness :
  has_upper "JPG" = true
  /\ checkExtension ".jpg" (["jpeg"] ++ "JPG" :: ["tif"])%list
     = checkExtension ".jpg" (["jpeg"] ++ ["tif"])%list.
Proof.
  split; [reflexivity|].
  apply (checkExtension_upper_match_is_dead ".jpg" "JPG" ["jpeg"] ["tif"]).
  reflexivity.
Defined.

(* ================================================================== *)
(** ** Opening a working tree *)

Section OpenProperties.
Variable file_exists : Path -> bool.
Variable tableExists : Path -> bool.

Lemma parent_path_snoc (p : Path) (x : string) :
  parent_path (p ++ [x])%list = p.
Proof. apply List.removelast_last. Qed.

Lemma path_eqb_parent (p : Path) :
  path_eqb (parent_path p) p = match p with [] => true | _ => false end.
Proof.
  unfold path_eqb. destruct p as [|x p _] using List.rev_ind;
    [reflexivity|].
  rewrite parent_path_snoc.
  destruct (p ++ [x])%list eqn:E; [destruct p; discriminate|].
  rewrite <- E. apply bool_decide_eq_false. intros H.
  apply (f_equal (@List.length string)) in H.
  rewrite List.length_app in H. simpl in H. lia.
Qed.

Lemma open_nearest (dirPath : Path) :
  open file_exists tableExists dirPath true
  = open_at tableExists (nearest file_exists dirPath).
Proof.
  unfold nearest. rewrite <- (List.rev_involutive dirPath) at 1.
  induction (List.rev dirPath) as [|x r IH].
  - rewrite open_equation. cbn [List.rev nearest_rev].
    destruct (file_exists (dbase_of [])); unfold open_at; cbn [negb];
      [|reflexivity].
    destruct (tableExists (dbase_of [])); reflexivity.
  - rewrite open_equation. cbn [nearest_rev].
    destruct (file_exists (dbase_of (List.rev (x :: r)))); cbn [negb].
    + unfold open_at. destruct (tableExists _); reflexivity.
    + rewrite path_eqb_parent. cbn [List.rev].
      rewrite parent_path_snoc.
      destruct (List.rev r ++ [x])%list eqn:E;
        [destruct (List.rev r); discriminate|].
      cbn [negb orb]. exact IH.
Qed.

Lemma prefix_snoc (p dir rest : Path) (x : string) :
  (p ++ [x])%list = (dir ++ rest)%list ->
  (dir = (p ++ [x])%list /\ rest = [])
  \/ exists rest', p = (dir ++ rest')%list.
Proof.
  intros H. destruct rest as [|y rest _] using List.rev_ind.
  - left. rewrite List.app_nil_r in H.
    split; [symmetry; exact H|reflexivity].
  - right. exists rest. rewrite List.app_assoc in H.
    apply List.app_inj_tail in H. apply H.
Qed.

Lemma nearest_rev_spec (r : list string) :
  match nearest_rev file_exists r with
  | Some dir =>
      (exists rest, List.rev r = (dir ++ rest)%list)
      /\ file_exists (dbase_of dir) = true
      /\ forall dir' rest',
           List.rev r = (dir' ++ rest')%list ->
           (List.length dir < List.length dir')%nat ->
           file_exists (dbase_of dir') = false
  | None =>
      forall dir rest, List.rev r = (dir ++ rest)%list ->
                       file_exists (dbase_of dir) = false
  end.
Proof.
  induction r as [|x r IH].
  - cbn [nearest_rev List.rev]. destruct (file_exists (dbase_of [])) eqn:E.
    + split; [exists []; reflexivity|]. split; [exact E|].
      intros dir' rest' H Hlen. symmetry in H.
      apply List.app_eq_nil in H as [-> _]. cbn in Hlen. lia.
    + intros dir rest H. symmetry in H.
      apply List.app_eq_nil in H as [-> _]. exact E.
  - cbn [nearest_rev].
    destruct (file_exists (dbase_of (List.rev (x :: r)))) eqn:E.
    + split; [exists []; rewrite List.app_nil_r; reflexivity|].
      split; [exact E|]. intros dir' rest' H Hlen.
      apply (f_equal (@List.length string)) in H.
      rewrite List.length_app in H. lia.
    + cbn [List.rev] in *. destruct (nearest_rev file_exists r) as [dir|].
      * destruct IH as ((rest & Hrest) & Hex & Hnear).
        split; [exists (rest ++ [x])%list;
                rewrite Hrest, List.app_assoc; reflexivity|].
        split; [exact Hex|]. intros dir' rest' H Hlen.
        apply prefix_snoc in H as [[-> _]|[rest'' H]]; [exact E|].
        exact (Hnear dir' rest'' H Hlen).
      * intros dir rest H.
        apply prefix_snoc in H as [[-> _]|[rest'' H]]; [exact E|].
        exact (IH dir rest'' H).
Qed.

Lemma rootDirectory_dbase (dir : Path) : rootDirectory (dbase_of dir) = dir.
Proof.
  unfold rootDirectory, dbase_of.
  change [DDB_FOLDER; "dbase.sqlite"] with ([DDB_FOLDER] ++ ["dbase.sqlite"])%list.
  rewrite List.app_assoc, !parent_path_snoc. reflexivity.
Qed.

(** X22.  [open] without [traverseUp] looks at the directory only.  With
    [traverseUp] it stops at the nearest directory, from the given one up
    to the root, that holds [.ddb/dbase.sqlite]: it opens the database
    there, whose [rootDirectory] is that directory, or raises the
    database exception when the table [entries] is missing there, and
    does not look further up; when no directory on the way holds a
    database it raises the file-system exception. *)
Theorem open_finds_nearest_database (dirPath : Path) :
  open file_exists tableExists dirPath false
  = (if file_exists (dbase_of dirPath)
     then if tableExists (dbase_of dirPath)
          then OpenedDatabase (dbase_of dirPath)
          else OpenDBException (dbase_of dirPath)
     else OpenFailed
            (FSException
               "Not a valid DroneDB directory, .ddb does not exist. Did you run ddb init?"))
  /\ ((exists dir rest,
         dirPath = (dir ++ rest)%list
         /\ file_exists (dbase_of dir) = true
         /\ (forall dir' rest',
               dirPath = (dir' ++ rest')%list ->
               (List.length dir < List.length dir')%nat ->
               file_exists (dbase_of dir') = false)
         /\ rootDirectory (dbase_of dir) = dir
         /\ open file_exists tableExists dirPath true
            = (if tableExists (dbase_of dir)
               then OpenedDatabase (dbase_of dir)
               else OpenDBException (dbase_of dir)))
      \/ ((forall dir rest, dirPath = (dir ++ rest)%list ->
                            file_exists (dbase_of dir) = false)
          /\ open file_exists tableExists dirPath true
             = OpenFailed
                 (FSException
                    "Not a valid DroneDB directory, .ddb does not exist. Did you run ddb init?"))).
Proof.
  split.
  - rewrite open_equation.
    destruct (file_exists (dbase_of dirPath)); cbn [negb orb];
      [|reflexivity].
    destruct (tableExists (dbase_of dirPath)); reflexivity.
  - rewrite open_nearest. unfold nearest.
    pose proof (nearest_rev_spec (List.rev dirPath)) as H.
    rewrite List.rev_involutive in H.
    destruct (nearest_rev file_exists (List.rev dirPath)) as [dir|].
    + left. destruct H as ((rest & Hrest) & Hex & Hnear).
      exists dir, rest. split; [exact Hrest|]. split; [exact Hex|].
      split; [exact Hnear|]. split; [apply rootDirectory_dbase|].
      reflexivity.
    + right. split; [exact H|reflexivity].
Qed.

End OpenProperties.

(* ================================================================== *)
(** ** The further properties on the example tree *)

(** The folding of ASCII case is a collation as the properties of
    [removeFromIndex] need it. *)
Lemma nocase_refl (c : ascii) : nocase c c = true.
Proof. apply Ascii.eqb_refl. Qed.

Lemma nocase_ok : collation_ok nocase.
Proof.
  unfold collation_ok, nocase. split; [intros a; apply Ascii.eqb_refl|].
  split; [intros a b H; rewrite Ascii.eqb_sym; exact H|].
  split.
  - intros a b c Hab Hbc. apply Ascii.eqb_eq in Hab, Hbc.
    apply Ascii.eqb_eq. rewrite Hab. exact Hbc.
  - intros c. destruct c as [[] [] [] [] [] [] [] []]; vm_compute;
      intros H; first [reflexivity|discriminate H].
Qed.

(** X7 on the example tree: a row whose file is gone, a row whose file
    has changed and a row that is up to date; the build folder of the
    first is removed, the build folder of the second stays. *)
Lemma syncIndex_keeps_paths_on_disk_witness :
  exists w',
    syncIndex demo_sha256 demo_classify demo_meta demo_geom demo_geom
      demo_path demo_path
      (demo_world [row_gone; row_af_old; row_y] {[ "sha:g"; "old" ]})
    = (Ret tt, w')
    /\ List.map r_path (entries (w_db w')) = ["a/f"; "y"]
    /\ last_edit (w_db w') = 100
    /\ ("sha:g" ∉ w_builds w')
    /\ ("old" ∈ w_builds w').
Proof.
  destruct (syncIndex_keeps_paths_on_disk demo_sha256 demo_classify
              demo_meta demo_geom demo_geom demo_path demo_path
              (demo_world [row_gone; row_af_old; row_y]
                 {[ "sha:g"; "old" ]}) eq_refl)
    as (w' & E & P & L & _ & _ & _ & B).
  exists w'. split; [exact E|].
  split; [rewrite P; reflexivity|].
  split; [rewrite L; reflexivity|].
  split.
  - intros Hin. apply B in Hin as [_ [Heq|Hall]]; [discriminate Heq|].
    exact (Hall row_gone (or_introl eq_refl) eq_refl eq_refl).
  - apply B. split.
    + apply elem_of_union. right. apply elem_of_singleton. reflexivity.
    + right. intros r [<-|[<-|[<-|[]]]] Hd Hh;
        first [discriminate Hd|discriminate Hh].
Defined.

(** X8 on the example tree: the file [a/f] is removed from the index,
    and its build folder with it. *)
Lemma removeFromIndex_removes_matches_witness :
  exists w',
    removeFromIndex nocase demo_path ["a/f"] None
      (demo_world [row_af; row_a] {[ "sha:xyz" ]})
    = (Ret tt, w')
    /\ (forall r, In r (entries (w_db w')) ->
                  glob nocase (removal_query demo_path "a/f") (r_path r)
                  = false)
    /\ last_edit (w_db w') = 100
    /\ ("sha:xyz" ∉ w_builds w').
Proof.
  set (w := demo_world [row_af; row_a] {[ "sha:xyz" ]}).
  set (w' := snd (removeFromIndex nocase demo_path ["a/f"] None w)).
  assert (Hrun : removeFromIndex nocase demo_path ["a/f"] None w
                 = (Ret tt, w')).
  { vm_compute. reflexivity. }
  destruct (removeFromIndex_removes_matches nocase demo_path ["a/f"]
              None w w' nocase_refl Hrun)
    as ((f & Hf & Hb) & Hgone & _ & Hedit).
  exists w'. split; [exact Hrun|]. split; [|split].
  - intros r Hr. apply (Hgone "a/f" r); [left; reflexivity|exact Hr].
  - apply Hedit. discriminate.
  - intros Hin. apply Hb in Hin as [_ [Heq|Hall]]; [discriminate Heq|].
    apply (Hall row_af (or_introl eq_refl)); [|reflexivity].
    assert (Hrows : entries (w_db w') = [row_a])
      by (vm_compute; reflexivity).
    rewrite Hrows in Hf. cbn [w entries w_db demo_world List.filter] in Hf.
    destruct (f row_af); [|reflexivity].
    destruct (f row_a); discriminate Hf.
Defined.

(** X9 on the example tree, with the folding of ASCII case: the removal
    of [A], which is the path of a file, removes the folder [a] and the
    file [a/f] with it; the file [y] stays. *)
Lemma removeFromIndex_directory_cascade_witness :
  exists w',
    removeFromIndex nocase demo_path ["A"] None
      (demo_world [row_A; row_a; row_af; row_y] ∅)
    = (Ret tt, w')
    /\ entries (w_db w') = [row_y].
Proof.
  destruct (removeFromIndex_directory_cascade nocase demo_path "A" None
              (demo_world [row_A; row_a; row_af; row_y] ∅) row_A
              nocase_ok
              (fun H : demo_path "A" = "" =>
                 eq_ind "A" (fun s => match s with
                                      | EmptyString => False
                                      | _ => True
                                      end) I "" H)
              eq_refl (or_introl eq_refl) eq_refl)
    as (w' & E & R & _).
  exists w'. split; [exact E|]. rewrite R. vm_compute. reflexivity.
Defined.

(** X10 on the example tree: the file [y] is moved to [z] and back. *)
Lemma moveEntry_file_round_trip_witness :
  exists w1 w2,
    moveEntry Ascii.eqb demo_hasDotNotation "y" "z"
      (demo_world [row_a; row_y] ∅)
    = (Ret tt, w1)
    /\ moveEntry Ascii.eqb demo_hasDotNotation "z" "y" w1 = (Ret tt, w2)
    /\ entries (w_db w2) = [row_a; row_y].
Proof.
  assert (Hne : "y" <> "z") by discriminate.
  assert (Htype : r_type row_y <> Directory) by discriminate.
  assert (Hdepth : forall r,
             In r (entries (w_db (demo_world [row_a; row_y] ∅))) ->
             r_path r = "y" -> r_depth r = path_depth "y").
  { intros r [<-|[<-|[]]] H; [discriminate|reflexivity]. }
  destruct (moveEntry_file_round_trip Ascii.eqb demo_hasDotNotation "y" "z"
              (demo_world [row_a; row_y] ∅) row_y
              eq_refl eq_refl eq_refl eq_refl Hne eq_refl eq_refl Htype
              eq_refl Hdepth)
    as (w1 & w2 & E1 & _ & _ & E2 & R & _).
  exists w1, w2. split; [exact E1|]. split; [exact E2|exact R].
Defined.

(** X11 on the example tree: the file [a/f] is moved to [a/h]. *)
Lemma moveEntry_keeps_depths_witness :
  rows_all depth_ok (demo_world [row_a; row_af] ∅)
  /\ rows_all depth_ok
       (snd (moveEntry Ascii.eqb demo_hasDotNotation "a/f" "a/h"
               (demo_world [row_a; row_af] ∅))).
Proof.
  assert (H : rows_all depth_ok (demo_world [row_a; row_af] ∅)).
  { split; repeat (apply List.Forall_cons; [reflexivity|]);
      apply List.Forall_nil. }
  split; [exact H|].
  exact (proj1 (moveEntry_keeps_depths Ascii.eqb demo_hasDotNotation
                  "a/f" "a/h" (demo_world [row_a; row_af] ∅) H)).
Defined.

(** X12 on the example tree: a source path that ends with a separator. *)
Lemma moveEntry_refusal_writes_nothing_witness :
  moveEntry nocase demo_hasDotNotation "a/" "b"
    (demo_world [row_a; row_af] ∅)
  = (Throw (InvalidArgsException "source cannot end with path separator"),
     demo_world [row_a; row_af] ∅)
  /\ snd (moveEntry nocase demo_hasDotNotation "a/" "b"
            (demo_world [row_a; row_af] ∅))
     = demo_world [row_a; row_af] ∅.
Proof.
  assert (Hrun : moveEntry nocase demo_hasDotNotation "a/" "b"
                   (demo_world [row_a; row_af] ∅)
                 = (Throw (InvalidArgsException
                             "source cannot end with path separator"),
                    snd (moveEntry nocase demo_hasDotNotation "a/" "b"
                           (demo_world [row_a; row_af] ∅)))).
  { vm_compute. reflexivity. }
  pose proof (moveEntry_refusal_writes_nothing nocase
                demo_hasDotNotation "a/" "b" _ _ _ Hrun) as Hsame.
  cbv beta iota in Hsame.
  split; [rewrite Hrun, Hsame; reflexivity|exact Hsame].
Defined.

(** X13 on the example tree: the file [a/f] without a row for its
    folder. *)
Lemma createMissingFolders_idempotent_witness :
  exists w1,
    createMissingFolders (demo_world [row_af] ∅) = (Ret tt, w1)
    /\ List.map r_path (entries (w_db w1)) = ["a/f"; "a"]
    /\ createMissingFolders w1 = (Ret tt, w1).
Proof.
  set (w := demo_world [row_af] ∅).
  set (w1 := snd (createMissingFolders w)).
  assert (Hrun : createMissingFolders w = (Ret tt, w1)).
  { vm_compute. reflexivity. }
  exists w1. split; [exact Hrun|]. split; [vm_compute; reflexivity|].
  exact (proj2 (createMissingFolders_idempotent w w1 Hrun)).
Defined.

(** X16 on the example tree: the paths of the folder [a], from a table
    that holds the file before the folder. *)
Lemma listFolderPaths_exact_witness :
  listFolderPaths nocase "a" (demo_world [row_af; row_y; row_a] ∅)
  = (Ret ["a"; "a/f"], demo_world [row_af; row_y; row_a] ∅).
Proof.
  destruct (listFolderPaths_exact nocase "a"
              (demo_world [row_af; row_y; row_a] ∅) eq_refl eq_refl)
    as (E & _).
  rewrite E. reflexivity.
Defined.

(** X17 at an example: the paths of the folder [a_b] include a file
    of the folder [axb]. *)
Lemma listFolderPaths_underscore_is_wildcard_witness :
  exists paths,
    listFolderPaths Ascii.eqb "a_b" (demo_world [row_axb_f] ∅)
    = (Ret paths, demo_world [row_axb_f] ∅)
    /\ In "axb/f" paths.
Proof.
  exact (listFolderPaths_underscore_is_wildcard Ascii.eqb "a" "b" "f"
           "x"%char row_axb_f (demo_world [row_axb_f] ∅)
           Ascii.eqb_refl (or_introl eq_refl) eq_refl).
Defined.

(** X19 on the example tree: a table with a deleted and a modified
    file, synchronised twice. *)
Lemma syncIndex_idempotent_witness :
  exists w1 w2,
    syncIndex demo_sha256 demo_classify demo_meta demo_geom demo_geom
      demo_path demo_path (demo_world [row_gone; row_af_old; row_y] ∅)
    = (Ret tt, w1)
    /\ syncIndex demo_sha256 demo_classify demo_meta demo_geom demo_geom
         demo_path demo_path w1
       = (Ret tt, w2)
    /\ w_db w2 = w_db w1.
Proof.
  destruct (syncIndex_idempotent demo_sha256 demo_classify demo_meta
              demo_geom demo_geom demo_path demo_path
              (demo_world [row_gone; row_af_old; row_y] ∅) eq_refl
              (fun _ _ => eq_refl))
    as (w1 & w2 & E1 & _ & E2 & D & _).
  exists w1, w2. split; [exact E1|]. split; [exact E2|exact D].
Defined.

(** X20 on the example tree: the file [a/f] is added twice, the second
    time with a callback that would cancel. *)
Lemma addToIndex_again_changes_no_row_witness :
  exists w1 w2,
    addToIndex demo_sha256 demo_classify demo_meta demo_geom demo_geom
      demo_path demo_listing ["a/f"] None (demo_world [row_y] ∅)
    = (Ret tt, w1)
    /\ addToIndex demo_sha256 demo_classify demo_meta demo_geom demo_geom
         demo_path demo_listing ["a/f"] (Some (fun _ _ => false)) w1
       = (Ret tt, w2)
    /\ entries (w_db w2) = entries (w_db w1)
    /\ last_edit (w_db w2) = 100.
Proof.
  set (w := demo_world [row_y] ∅).
  set (w1 := snd (addToIndex demo_sha256 demo_classify demo_meta demo_geom
                    demo_geom demo_path demo_listing ["a/f"] None w)).
  assert (Hadd : addToIndex demo_sha256 demo_classify demo_meta demo_geom
                   demo_geom demo_path demo_listing ["a/f"] None w
                 = (Ret tt, w1)).
  { vm_compute. reflexivity. }
  assert (Hnd : List.NoDup (List.map r_path (entries (w_db w)))).
  { apply List.NoDup_cons; [intros []|apply List.NoDup_nil]. }
  assert (Hrows : forall r, In r (entries (w_db w)) ->
            row_clean demo_sha256 demo_path (w_fs w) r
            \/ In (r_path r)
                  (examined_paths demo_path
                     (listed demo_listing (w_fs w) ["a/f"]))).
  { intros r [<-|[]]. left. reflexivity. }
  assert (Hne : ["a/f"] <> []) by discriminate.
  destruct (addToIndex_again_changes_no_row demo_sha256 demo_classify
              demo_meta demo_geom demo_geom demo_path demo_path demo_listing
              ["a/f"] None (Some (fun _ _ => false)) w w1
              eq_refl Hnd I (fun p _ => eq_refl) Hrows Hadd)
    as (w2 & E2 & R & _ & L).
  exists w1, w2. split; [exact Hadd|]. split; [exact E2|].
  split; [exact R|]. rewrite (L Hne). reflexivity.
Defined.

(** X21 on the example tree: the file [a/f] gets its folder [a]. *)
Lemma createMissingFolders_adds_parent_witness :
  exists w1,
    createMissingFolders (demo_world [row_af] ∅) = (Ret tt, w1)
    /\ has_folder "a" (entries (w_db w1)) = true.
Proof.
  set (w := demo_world [row_af] ∅).
  set (w1 := snd (createMissingFolders w)).
  assert (Hrun : createMissingFolders w = (Ret tt, w1)).
  { vm_compute. reflexivity. }
  assert (Htype : r_type row_af <> Directory) by discriminate.
  assert (Hname : "f" <> "") by discriminate.
  exists w1. split; [exact Hrun|].
  exact (proj1 (createMissingFolders_adds_parent w w1 row_af "a" "f" Hrun
                  (or_introl eq_refl) Htype eq_refl Hname eq_refl eq_refl
                  eq_refl)).
Defined.
